(** * Alibi: the room / phase / timer server and its scoring

    A shallow embedding of the WebSocket game server (class [AlibiServer],
    server/index.js) and of the client-side [GameManager]
    (src/gameManager.ts, src/crimes.ts), followed by the properties of the
    specification that were checked against them.

    Conventions of the embedding.
    - JavaScript numbers that the server only ever uses as integers (scores,
      wagers, counters, millisecond clocks) are [Z].
    - A JavaScript [Map] iterates in insertion order, so it is an association
      list with the three operations the code uses ([get], [set], [delete]).
      A plain object used as a dictionary, and the room registry (which is
      never iterated), are [gmap]s.
    - Rooms are mutable objects that are reachable both from the registry and
      from timer closures, so the server state has a heap of room objects and
      the registry maps a room code to a reference into it.
    - [Math.random()] and [Date.now()] are inputs of the handler that reads
      them.  [setTimeout] and [clearTimeout] act on an explicit table of
      pending timers; the event loop may fire any pending timer.
    - A socket is a number.  The state keeps the set of sockets whose
      [readyState] is not OPEN: a socket is open when it connects, may leave
      that state at any moment while it is in the client table, and has left
      it when its 'close' event is handled.  [send] hands a message only to
      an open socket; the outbox lists the messages handed over. *)

From stdpp Require Import gmap strings list fin_maps pretty.
From Stdlib Require Import ZArith Ascii Sorted.

Local Open Scope Z_scope.
Local Open Scope string_scope.
Local Open Scope list_scope.

(** ** Data model *)

Inductive Phase :=
  | WAITING | SETUP | ALIBI_CONSTRUCTION | INTERROGATION | ACCUSATIONS | RESULTS.

Global Instance Phase_eq_dec : EqDecision Phase.
Proof. solve_decision. Defined.

Record Evidence := mkEvidence {
  ev_id : string;
  ev_description : string;
  revealTime : Z
}.

Record Crime := mkCrime {
  crime_id : string;
  title : string;
  description : string;
  location : string;
  crime_time : string;
  evidence : list Evidence
}.

Record Player := mkPlayer {
  player_id : string;
  player_name : string;
  color : string;
  avatar : string;
  score : Z;
  isGuilty : bool
}.

Record Question := mkQuestion {
  q_id : string;
  q_from : string;
  q_to : string;
  q_question : string;
  answer : option string;
  timestamp : Z
}.

Record Vote := mkVote {
  suspectId : string;
  confidence : Z
}.

Record LeaderboardEntry := mkEntry {
  entry_name : string;
  entry_score : Z;
  entry_timestamp : Z
}.

(** *** JavaScript [Map]: an insertion-ordered association list *)

Section JsMap.
Context {K : Type} `{EqDecision K} {V : Type}.

Fixpoint map_get (k : K) (m : list (K * V)) : option V :=
  match m with
  | [] => None
  | (k', v) :: m' => if decide (k' = k) then Some v else map_get k m'
  end.

(* [set] on a present key keeps the entry's position; a new key goes last *)
Fixpoint map_set (k : K) (v : V) (m : list (K * V)) : list (K * V) :=
  match m with
  | [] => [(k, v)]
  | (k', v') :: m' =>
      if decide (k' = k) then (k, v) :: m' else (k', v') :: map_set k v m'
  end.

Fixpoint map_delete (k : K) (m : list (K * V)) : list (K * V) :=
  match m with
  | [] => []
  | (k', v') :: m' =>
      if decide (k' = k) then m' else (k', v') :: map_delete k m'
  end.

Definition map_keys (m : list (K * V)) : list K := m.*1.
Definition map_values (m : list (K * V)) : list V := m.*2.
End JsMap.

(** The [results] object built by the scoring. *)
Record Results := mkResults {
  res_guiltyPlayerId : option string;
  res_votes : gmap string Vote;
  res_scores : gmap string Z
}.

Record GameState := mkGameState {
  phase : Phase;
  crime : option Crime;
  guiltyPlayerId : option string;
  alibis : list (string * string);
  questions : list Question;
  votes : list (string * Vote);
  currentEvidence : list Evidence;
  phaseStartTime : option Z;
  roundNumber : Z;
  results : option Results
}.

Record Timers := mkTimers {
  phaseTimer : option nat;
  evidenceTimers : list nat
}.

Record Room := mkRoom {
  code : string;
  host : string;
  players : list (string * Player);
  gameState : GameState;
  timers : Timers
}.

Record ClientData := mkClientData {
  playerId : string;
  roomCode : option string;
  playerName : option string
}.

(** *** Field updates (JavaScript assignments to one field) *)

Definition set_phase (ph : Phase) (g : GameState) : GameState :=
  mkGameState ph (crime g) (guiltyPlayerId g) (alibis g) (questions g) (votes g)
    (currentEvidence g) (phaseStartTime g) (roundNumber g) (results g).
Definition set_crime (c : option Crime) (g : GameState) : GameState :=
  mkGameState (phase g) c (guiltyPlayerId g) (alibis g) (questions g) (votes g)
    (currentEvidence g) (phaseStartTime g) (roundNumber g) (results g).
Definition set_guiltyPlayerId (i : option string) (g : GameState) : GameState :=
  mkGameState (phase g) (crime g) i (alibis g) (questions g) (votes g)
    (currentEvidence g) (phaseStartTime g) (roundNumber g) (results g).
Definition set_alibis (a : list (string * string)) (g : GameState) : GameState :=
  mkGameState (phase g) (crime g) (guiltyPlayerId g) a (questions g) (votes g)
    (currentEvidence g) (phaseStartTime g) (roundNumber g) (results g).
Definition set_questions (q : list Question) (g : GameState) : GameState :=
  mkGameState (phase g) (crime g) (guiltyPlayerId g) (alibis g) q (votes g)
    (currentEvidence g) (phaseStartTime g) (roundNumber g) (results g).
Definition set_votes (v : list (string * Vote)) (g : GameState) : GameState :=
  mkGameState (phase g) (crime g) (guiltyPlayerId g) (alibis g) (questions g) v
    (currentEvidence g) (phaseStartTime g) (roundNumber g) (results g).
Definition set_currentEvidence (e : list Evidence) (g : GameState) : GameState :=
  mkGameState (phase g) (crime g) (guiltyPlayerId g) (alibis g) (questions g) (votes g)
    e (phaseStartTime g) (roundNumber g) (results g).
Definition set_phaseStartTime (t : option Z) (g : GameState) : GameState :=
  mkGameState (phase g) (crime g) (guiltyPlayerId g) (alibis g) (questions g) (votes g)
    (currentEvidence g) t (roundNumber g) (results g).
Definition set_roundNumber (n : Z) (g : GameState) : GameState :=
  mkGameState (phase g) (crime g) (guiltyPlayerId g) (alibis g) (questions g) (votes g)
    (currentEvidence g) (phaseStartTime g) n (results g).
Definition set_results (r : option Results) (g : GameState) : GameState :=
  mkGameState (phase g) (crime g) (guiltyPlayerId g) (alibis g) (questions g) (votes g)
    (currentEvidence g) (phaseStartTime g) (roundNumber g) r.

Definition set_players (ps : list (string * Player)) (r : Room) : Room :=
  mkRoom (code r) (host r) ps (gameState r) (timers r).
Definition set_gameState (g : GameState) (r : Room) : Room :=
  mkRoom (code r) (host r) (players r) g (timers r).
Definition set_timers (t : Timers) (r : Room) : Room :=
  mkRoom (code r) (host r) (players r) (gameState r) t.
Definition upd_gameState (f : GameState -> GameState) (r : Room) : Room :=
  set_gameState (f (gameState r)) r.

Definition set_score (n : Z) (p : Player) : Player :=
  mkPlayer (player_id p) (player_name p) (color p) (avatar p) n (isGuilty p).
Definition set_answer (a : option string) (q : Question) : Question :=
  mkQuestion (q_id q) (q_from q) (q_to q) (q_question q) a (timestamp q).

(** ** Constants of the server *)

Definition PHASE_DURATIONS (ph : Phase) : option Z :=
  match ph with
  | SETUP => Some 5000
  | ALIBI_CONSTRUCTION => Some 30000
  | INTERROGATION => Some 30000
  | ACCUSATIONS => Some 20000
  | RESULTS => Some 10000
  | WAITING => None
  end.

Definition COLORS : list string :=
  ["#E63946"; "#457B9D"; "#2A9D8F"; "#E9C46A"; "#F4A261"; "#9D4EDD"; "#06FFA5"; "#FF006E"].
Definition AVATARS : list string :=
  ["detective"; "businessman"; "artist"; "scientist"; "chef"; "athlete"; "musician"; "teacher"].

Definition museum_heist : Crime :=
  mkCrime "museum_heist" "Art Theft"
    "A valuable sculpture was stolen from the Meridian Museum at 9:47 PM."
    "Meridian Museum" "9:47 PM"
    [ mkEvidence "tattoo" "The thief had a tattoo on their left hand." 10;
      mkEvidence "shoes" "Muddy size 10 boot prints were found." 20 ].
Definition corporate_espionage : Crime :=
  mkCrime "corporate_espionage" "Data Breach"
    "Files were stolen from TechCorp HQ at 11:23 PM."
    "TechCorp HQ" "11:23 PM"
    [ mkEvidence "coffee" "A coffee cup with lipstick was found." 10;
      mkEvidence "parking" "A car with tinted windows was seen." 20 ].
Definition jewelry_theft : Crime :=
  mkCrime "jewelry_theft" "Diamond Heist"
    "Diamonds worth $50K stolen from Luxe Jewelers at 8:15 PM."
    "Luxe Jewelers" "8:15 PM"
    [ mkEvidence "gloves" "A latex glove was found at the scene." 10;
      mkEvidence "witness" "Someone in a red jacket was seen nearby." 20 ].
Definition vandalism : Crime :=
  mkCrime "vandalism" "City Hall Vandalism"
    "Graffiti was spray-painted on City Hall at 2:30 AM."
    "City Hall" "2:30 AM"
    [ mkEvidence "paint" "Blue paint stains led away from the scene." 10;
      mkEvidence "camera" "Someone on a bicycle was seen fleeing." 20 ].
Definition restaurant_poisoning : Crime :=
  mkCrime "restaurant_poisoning" "Restaurant Sabotage"
    "Food at Bella Cucina was contaminated at 6:45 PM."
    "Bella Cucina" "6:45 PM"
    [ mkEvidence "kitchen" "An unauthorized person was in the kitchen." 10;
      mkEvidence "bottle" "An empty cleaning bottle was found." 20 ].

(** [AlibiServer.getCrimes] (server/index.js) *)
Definition getCrimes : list Crime :=
  [museum_heist; corporate_espionage; jewelry_theft].

(** [CRIMES] (src/crimes.ts), the catalogue of the client-side [GameManager] *)
Definition CRIMES : list Crime :=
  [museum_heist; corporate_espionage; jewelry_theft; vandalism; restaurant_poisoning].

(** ** Random numbers

    A value of [Math.random()] is a fraction in [0,1), kept as the pair
    [rnd_num mod (rnd_den + 1)] over [rnd_den + 1], together with the two
    renderings the server takes of it: [toString(36)] and the decimal one of
    a template literal. *)

Record RandomNumber := mkRandom {
  rnd_num : nat;
  rnd_den : nat;
  base36 : string;
  decimal : string
}.

(* Math.floor(Math.random() * n) *)
Definition randomIndex (r : RandomNumber) (n : nat) : nat :=
  (((rnd_num r `mod` S (rnd_den r)) * n) `div` S (rnd_den r))%nat.

Definition upperChar (c : ascii) : ascii :=
  let n := nat_of_ascii c in
  if ((97 <=? n) && (n <=? 122))%nat then ascii_of_nat (n - 32) else c.

Fixpoint toUpperCase (s : string) : string :=
  match s with
  | EmptyString => EmptyString
  | String c s' => String (upperChar c) (toUpperCase s')
  end.

(* Math.random().toString(36).substring(2, 6).toUpperCase() *)
Definition generateRoomCode (r : RandomNumber) : string :=
  toUpperCase (String.substring 2 4 (base36 r)).

(* Math.random().toString(36).substring(2, 11) *)
Definition generateId (r : RandomNumber) : string :=
  String.substring 2 9 (base36 r).

(** ** Messages *)

(** The [crime] field of a snapshot: the object literal
    [{location, time, hidden: true}] or [room.gameState.crime] itself. *)
Inductive CrimeView :=
  | HiddenCrime (loc : option string) (tm : option string)
  | FullCrime (c : option Crime).

Record PublicGameState := mkPublic {
  pub_phase : Phase;
  pub_phaseStartTime : option Z;
  pub_crime : CrimeView;
  pub_isGuilty : bool;
  pub_players : list Player;
  pub_alibis : gmap string string;
  pub_questions : list Question;
  pub_currentEvidence : list Evidence;
  pub_results : option Results
}.

Inductive ServerMessage :=
  | CONNECTED (pid : string)
  | ROOM_CREATED (rc : string)
  | ROOM_JOINED (rc : string) (ps : list Player) (gs : PublicGameState)
  | PLAYER_JOINED (p : Player) (playerCount : nat)
  | PLAYER_LEFT (pid : string) (playerCount : nat)
  | PHASE_CHANGE (gs : PublicGameState)
  | ALIBI_SUBMITTED (pid : string)
  | NEW_QUESTION (q : Question)
  | QUESTION_ANSWERED (qid : string) (ans : string)
  | EVIDENCE_REVEALED (ev : Evidence)
  | VOTE_SUBMITTED (pid : string)
  | ERROR (msg : string)
  | LEADERBOARD_UPDATE (top : list LeaderboardEntry).

Inductive ClientMessage :=
  | CREATE_ROOM
  | JOIN_ROOM (rc : string) (name : string)
  | START_GAME
  | SUBMIT_ALIBI (alibi : string)
  | ASK_QUESTION (toId : string) (text : string)
  | ANSWER_QUESTION (questionId : string) (ans : string)
  | SUBMIT_VOTE (suspect : string) (conf : Z)
  | OTHER_MESSAGE.

(** ** Server state *)

Inductive Callback :=
  | CbAdvancePhase (rc : string)
  | CbRevealEvidence (room : nat) (rc : string) (ev : Evidence).

(** A pending timer.  [owner] is the room object whose [timers] record
    received the handle when the timer was armed. *)
Record Timer := mkTimer {
  owner : nat;
  delay : Z;
  callback : Callback
}.

Definition isPhaseTimer (t : Timer) : bool :=
  match callback t with CbAdvancePhase _ => true | CbRevealEvidence _ _ _ => false end.

Record State := mkState {
  rooms : gmap string nat;
  heap : gmap nat Room;
  clients : list (nat * ClientData);
  leaderboard : list LeaderboardEntry;
  pending : gmap nat Timer;
  nextTimer : nat;
  nextRoom : nat;
  nextWs : nat;
  (* the sockets whose readyState is not OPEN *)
  notOpen : gset nat;
  outbox : list (nat * ServerMessage)
}.

Definition set_rooms (x : gmap string nat) (s : State) : State :=
  mkState x (heap s) (clients s) (leaderboard s) (pending s) (nextTimer s)
    (nextRoom s) (nextWs s) (notOpen s) (outbox s).
Definition set_heap (x : gmap nat Room) (s : State) : State :=
  mkState (rooms s) x (clients s) (leaderboard s) (pending s) (nextTimer s)
    (nextRoom s) (nextWs s) (notOpen s) (outbox s).
Definition set_clients (x : list (nat * ClientData)) (s : State) : State :=
  mkState (rooms s) (heap s) x (leaderboard s) (pending s) (nextTimer s)
    (nextRoom s) (nextWs s) (notOpen s) (outbox s).
Definition set_leaderboard (x : list LeaderboardEntry) (s : State) : State :=
  mkState (rooms s) (heap s) (clients s) x (pending s) (nextTimer s)
    (nextRoom s) (nextWs s) (notOpen s) (outbox s).
Definition set_pending (x : gmap nat Timer) (s : State) : State :=
  mkState (rooms s) (heap s) (clients s) (leaderboard s) x (nextTimer s)
    (nextRoom s) (nextWs s) (notOpen s) (outbox s).
Definition set_notOpen (x : gset nat) (s : State) : State :=
  mkState (rooms s) (heap s) (clients s) (leaderboard s) (pending s) (nextTimer s)
    (nextRoom s) (nextWs s) x (outbox s).

(** The server of a fresh process: empty registries, the leaderboard as
    read from its file. *)
Definition initial (lb : list LeaderboardEntry) : State :=
  mkState ∅ ∅ [] lb ∅ 0 0 0 ∅ [].

(* this.rooms.get(roomCode) *)
Definition getRoom (s : State) (rc : string) : option (nat * Room) :=
  r ← rooms s !! rc; room ← heap s !! r; Some (r, room).

Definition storeRoom (r : nat) (room : Room) (s : State) : State :=
  set_heap (<[r := room]> (heap s)) s.

(* if (ws.readyState === WebSocket.OPEN) ws.send(JSON.stringify(message));
   nothing is handed to a socket that is not open *)
Definition send (ws : nat) (m : ServerMessage) (s : State) : State :=
  mkState (rooms s) (heap s) (clients s) (leaderboard s) (pending s) (nextTimer s)
    (nextRoom s) (nextWs s) (notOpen s)
    (outbox s ++ if bool_decide (ws ∈ notOpen s) then [] else [(ws, m)]).

(* setTimeout(callback, delay): the handle is the next unused number *)
Definition setTimeout (t : Timer) (s : State) : nat * State :=
  (nextTimer s,
   mkState (rooms s) (heap s) (clients s) (leaderboard s)
     (<[nextTimer s := t]> (pending s)) (S (nextTimer s))
     (nextRoom s) (nextWs s) (notOpen s) (outbox s)).

Definition clearTimeout (tid : nat) (s : State) : State :=
  set_pending (delete tid (pending s)) s.

(* Array.from(this.clients.entries()).find(([ws, data]) => data.playerId === playerId) *)
Fixpoint findClient (pid : string) (cs : list (nat * ClientData)) : option nat :=
  match cs with
  | [] => None
  | (ws, cd) :: cs' => if decide (playerId cd = pid) then Some ws else findClient pid cs'
  end.

(** ** Broadcast gateway *)

Definition sendToPlayer (pid : string) (m : ServerMessage) (s : State) : State :=
  match findClient pid (clients s) with
  | Some ws => send ws m s
  | None => s
  end.

Definition broadcastToRoom (rc : string) (m : ServerMessage) (s : State) : State :=
  match getRoom s rc with
  | None => s
  | Some (_, room) =>
      foldl (fun s pid => sendToPlayer pid m s) s (map_keys (players room))
  end.

(* Object.fromEntries: a later entry overrides an earlier one *)
Definition fromEntries {V} (l : list (string * V)) : gmap string V :=
  foldl (fun m kv => <[kv.1 := kv.2]> m) ∅ l.

Definition getPublicGameState (room : Room) (pid : string) : PublicGameState :=
  let g := gameState room in
  let guilty := bool_decide (guiltyPlayerId g = Some pid) in
  mkPublic (phase g) (phaseStartTime g)
    (if guilty
     then HiddenCrime (location <$> crime g) (crime_time <$> crime g)
     else FullCrime (crime g))
    guilty
    (map_values (players room))
    (fromEntries (alibis g))
    (questions g)
    (currentEvidence g)
    (results g).

Definition broadcastPhaseUpdate (rc : string) (s : State) : State :=
  match getRoom s rc with
  | None => s
  | Some (_, room) =>
      foldl (fun s pid => sendToPlayer pid (PHASE_CHANGE (getPublicGameState room pid)) s)
        s (map_keys (players room))
  end.

(** ** Leaderboard *)

(* Array.prototype.sort is stable; the comparator is b.score - a.score *)
Fixpoint insertByScore (e : LeaderboardEntry) (l : list LeaderboardEntry) :=
  match l with
  | [] => [e]
  | y :: l' =>
      if (entry_score e <? entry_score y)%Z then y :: insertByScore e l' else e :: y :: l'
  end.

Definition sortByScore (l : list LeaderboardEntry) : list LeaderboardEntry :=
  foldr insertByScore [] l.

Definition broadcastLeaderboard (s : State) : State :=
  let top10 := take 10 (leaderboard s) in
  foldl (fun s ws => send ws (LEADERBOARD_UPDATE top10) s) s (map_keys (clients s)).

Definition addToLeaderboard (name : string) (sc : Z) (now : Z) (s : State) : State :=
  let entry := mkEntry name sc now in
  let lb := take 100 (sortByScore (leaderboard s ++ [entry])) in
  broadcastLeaderboard (set_leaderboard lb s).

(** ** Scoring engine *)

(** The running state of [calculateResults]: the players (whose scores
    are updated in place), [fooledCount] and the [results] object. *)
Record Tally := mkTally {
  t_players : list (string * Player);
  fooledCount : Z;
  t_votes : gmap string Vote;
  t_scores : gmap string Z
}.

(* the body of room.gameState.votes.forEach((vote, voterId) => ...) *)
Definition countVote (guilty : option string) (t : Tally) (e : string * Vote) : Tally :=
  let voterId := e.1 in
  let vote := e.2 in
  let vs := <[voterId := vote]> (t_votes t) in
  match map_get voterId (t_players t) with
  | None => mkTally (t_players t) (fooledCount t) vs (t_scores t)
  | Some player =>
      if decide (Some (suspectId vote) = guilty) then
        let player' := set_score (score player + 100 * confidence vote) player in
        mkTally (map_set voterId player' (t_players t)) (fooledCount t) vs
          (<[voterId := score player']> (t_scores t))
      else
        mkTally (t_players t) (fooledCount t + 1) vs
          (<[voterId := score player]> (t_scores t))
  end.

Definition countVotes (room : Room) : Tally :=
  foldl (countVote (guiltyPlayerId (gameState room)))
    (mkTally (players room) 0 ∅ ∅) (votes (gameState room)).

(* "Award points to guilty player" *)
Definition awardGuilty (guilty : option string) (t : Tally) : Tally :=
  match guilty with
  | None => t
  | Some gid =>
      match map_get gid (t_players t) with
      | None => t
      | Some guiltyPlayer =>
          let guiltyPlayer' :=
            set_score (score guiltyPlayer + fooledCount t * 150) guiltyPlayer in
          mkTally (map_set gid guiltyPlayer' (t_players t)) (fooledCount t) (t_votes t)
            (<[gid := score guiltyPlayer']> (t_scores t))
      end
  end.

Definition scoreRoom (room : Room) : Room :=
  let guilty := guiltyPlayerId (gameState room) in
  let t := awardGuilty guilty (countVotes room) in
  set_players (t_players t)
    (upd_gameState (set_results (Some (mkResults guilty (t_votes t) (t_scores t)))) room).

Definition submitScore (now : Z) (s : State) (p : Player) : State :=
  if (0 <? score p)%Z then addToLeaderboard (player_name p) (score p) now s else s.

Definition calculateResults (rc : string) (now : Z) (s : State) : State :=
  match getRoom s rc with
  | None => s
  | Some (r, room) =>
      let room' := scoreRoom room in
      foldl (submitScore now) (storeRoom r room' s) (map_values (players room'))
  end.

(** ** Phase state machine *)

(* a mutation of the room object behind reference [r] *)
Definition updRoom (r : nat) (f : Room -> Room) (s : State) : State :=
  set_heap (alter f r (heap s)) s.

Definition set_phaseTimer (t : option nat) (room : Room) : Room :=
  set_timers (mkTimers t (evidenceTimers (timers room))) room.
Definition set_evidenceTimers (l : list nat) (room : Room) : Room :=
  set_timers (mkTimers (phaseTimer (timers room)) l) room.

(* if (duration): undefined and 0 are falsy *)
Definition truthyDuration (d : option Z) : option Z :=
  match d with
  | Some n => if (n =? 0)%Z then None else Some n
  | None => None
  end.

(* the body of room.gameState.crime.evidence.forEach(evidence => ...) *)
Definition armEvidence (r : nat) (rc : string) (s : State) (ev : Evidence) : State :=
  let '(tid, s) := setTimeout (mkTimer r (revealTime ev * 1000) (CbRevealEvidence r rc ev)) s in
  updRoom r (fun room => set_evidenceTimers (evidenceTimers (timers room) ++ [tid]) room) s.

(* "Clear existing timers" *)
Definition clearTimers (r : nat) (tm : Timers) (s : State) : State :=
  let s := match phaseTimer tm with
           | Some t => clearTimeout t s
           | None => s
           end in
  let s := foldl (fun s t => clearTimeout t s) s (evidenceTimers tm) in
  updRoom r (set_evidenceTimers []) s.

(* "Set timer for next phase" *)
Definition armPhaseTimer (r : nat) (rc : string) (duration : option Z) (s : State) : State :=
  match truthyDuration duration with
  | Some d =>
      let '(tid, s) := setTimeout (mkTimer r d (CbAdvancePhase rc)) s in
      updRoom r (set_phaseTimer (Some tid)) s
  | None => s
  end.

(* "Schedule evidence reveals for interrogation phase" *)
Definition armEvidenceTimers (r : nat) (rc : string) (ph : Phase) (c : option Crime)
    (s : State) : State :=
  match ph, c with
  | INTERROGATION, Some c => foldl (armEvidence r rc) s (evidence c)
  | _, _ => s
  end.

Definition startPhase (rc : string) (ph : Phase) (duration : option Z) (now : Z)
    (s : State) : State :=
  match getRoom s rc with
  | None => s
  | Some (r, room) =>
      let s := updRoom r (upd_gameState (fun g => set_phaseStartTime (Some now) (set_phase ph g))) s in
      let s := clearTimers r (timers room) s in
      (* Broadcast phase change *)
      let s := broadcastPhaseUpdate rc s in
      let s := armPhaseTimer r rc duration s in
      armEvidenceTimers r rc ph (crime (gameState room)) s
  end.

Definition phaseSequence : list Phase :=
  [SETUP; ALIBI_CONSTRUCTION; INTERROGATION; ACCUSATIONS; RESULTS].

(* Array.prototype.indexOf; [None] stands for -1 *)
Fixpoint indexOf (ph : Phase) (l : list Phase) : option nat :=
  match l with
  | [] => None
  | x :: l' => if decide (x = ph) then Some O else S <$> indexOf ph l'
  end.

Definition advancePhase (rc : string) (now : Z) (s : State) : State :=
  match getRoom s rc with
  | None => s
  | Some (r, room) =>
      match indexOf (phase (gameState room)) phaseSequence with
      | None => s
      | Some currentIndex =>
          let s := if decide (Some currentIndex = indexOf ACCUSATIONS phaseSequence)
                   then calculateResults rc now s (* Calculate results before showing them *)
                   else s in
          if (currentIndex <? length phaseSequence - 1)%nat then
            match phaseSequence !! S currentIndex with
            | Some nextPhase => startPhase rc nextPhase (PHASE_DURATIONS nextPhase) now s
            | None => s
            end
          else
            (* Round complete *)
            let s := updRoom r (upd_gameState (fun g => set_guiltyPlayerId None (set_phase WAITING g))) s in
            broadcastPhaseUpdate rc s
      end
  end.

(** The values a handler reads from the clock and the random generator. *)
Record Oracle := mkOracle {
  now : Z;
  random1 : RandomNumber;
  random2 : RandomNumber
}.

Definition startGame (rc : string) (o : Oracle) (s : State) : State :=
  match getRoom s rc with
  | None => s
  | Some (r, room) =>
      if (length (players room) <? 4)%nat then s else
      let crimes := getCrimes in
      let playerIds := map_keys (players room) in
      let s := updRoom r (upd_gameState (fun g =>
                 let g := set_roundNumber (roundNumber g + 1) g in
                 let g := set_phase SETUP g in
                 (* Select random crime *)
                 let g := set_crime (crimes !! randomIndex (random1 o) (length crimes)) g in
                 (* Select random guilty player *)
                 let g := set_guiltyPlayerId
                            (playerIds !! randomIndex (random2 o) (length playerIds)) g in
                 (* Reset game data *)
                 let g := set_alibis [] g in
                 let g := set_questions [] g in
                 let g := set_votes [] g in
                 set_currentEvidence [] g)) s in
      (* Start setup phase *)
      startPhase rc SETUP (PHASE_DURATIONS SETUP) (now o) s
  end.

(** ** Message handlers *)

Definition emptyGameState : GameState :=
  mkGameState WAITING None None [] [] [] [] None 0 None.

Definition createRoom (ws : nat) (clientData : ClientData) (rnd : RandomNumber)
    (s : State) : State :=
  let rc := generateRoomCode rnd in
  let room := mkRoom rc (playerId clientData) [] emptyGameState (mkTimers None []) in
  let r := nextRoom s in
  (* this.rooms.set(roomCode, room), [room] being a new object *)
  let s := mkState (<[rc := r]> (rooms s)) (<[r := room]> (heap s)) (clients s)
             (leaderboard s) (pending s) (nextTimer s) (S r) (nextWs s) (notOpen s)
             (outbox s) in
  send ws (ROOM_CREATED rc) s.

Definition joinRoom (ws : nat) (clientData : ClientData) (rc : string) (name : string)
    (s : State) : State :=
  match getRoom s rc with
  | None => send ws (ERROR "Room not found") s
  | Some (r, room) =>
      if (8 <=? length (players room))%nat then send ws (ERROR "Room is full") s
      else if negb (bool_decide (phase (gameState room) = WAITING))
      then send ws (ERROR "Game already in progress") s
      else
        (* Add player to room *)
        let pid := playerId clientData in
        let s := set_clients (map_set ws (mkClientData pid (Some rc) (Some name)) (clients s)) s in
        let colorIndex := (length (players room) `mod` 8)%nat in
        let avatarIndex := (length (players room) `mod` 8)%nat in
        let player := mkPlayer pid name (nth colorIndex COLORS "") (nth avatarIndex AVATARS "")
                        0 false in
        let s := updRoom r (fun room => set_players (map_set pid player (players room)) room) s in
        (* Notify all players in room *)
        let s := broadcastToRoom rc
                   (PLAYER_JOINED player (length (map_set pid player (players room)))) s in
        (* Send current game state to joining player *)
        match heap s !! r with
        | Some room' =>
            send ws (ROOM_JOINED rc (map_values (players room'))
                       (getPublicGameState room' pid)) s
        | None => s
        end
  end.

(* this.rooms.get(clientData.roomCode); a client outside any room has none *)
Definition clientRoom (s : State) (clientData : ClientData) : option (string * nat * Room) :=
  rc ← roomCode clientData; x ← getRoom s rc; Some (rc, x.1, x.2).

Definition submitAlibi (clientData : ClientData) (alibi : string) (s : State) : State :=
  match clientRoom s clientData with
  | None => s
  | Some (rc, r, room) =>
      if negb (bool_decide (phase (gameState room) = ALIBI_CONSTRUCTION)) then s else
      let s := updRoom r (upd_gameState (fun g =>
                 set_alibis (map_set (playerId clientData) alibi (alibis g)) g)) s in
      broadcastToRoom rc (ALIBI_SUBMITTED (playerId clientData)) s
  end.

Definition askQuestion (clientData : ClientData) (toId text : string) (o : Oracle)
    (s : State) : State :=
  match clientRoom s clientData with
  | None => s
  | Some (rc, r, room) =>
      if negb (bool_decide (phase (gameState room) = INTERROGATION)) then s else
      (* Check question limit *)
      let questionsAsked :=
        length (filter (fun q => q_from q = playerId clientData) (questions (gameState room))) in
      if (3 <=? questionsAsked)%nat then s else
      let question :=
        mkQuestion ("q_" +:+ pretty (now o) +:+ "_" +:+ decimal (random1 o))
          (playerId clientData) toId text None (now o) in
      let s := updRoom r (upd_gameState (fun g => set_questions (questions g ++ [question]) g)) s in
      broadcastToRoom rc (NEW_QUESTION question) s
  end.

(* Array.prototype.find(q => q.id === questionId) *)
Fixpoint findQuestion (qid : string) (qs : list Question) : option Question :=
  match qs with
  | [] => None
  | q :: qs' => if decide (q_id q = qid) then Some q else findQuestion qid qs'
  end.

(* question.answer = answer, on the object that [find] returned *)
Fixpoint answerFound (qid : string) (ans : string) (qs : list Question) : list Question :=
  match qs with
  | [] => []
  | q :: qs' =>
      if decide (q_id q = qid) then set_answer (Some ans) q :: qs'
      else q :: answerFound qid ans qs'
  end.

(* truthiness of [question.answer]: null and the empty string are falsy *)
Definition truthyAnswer (a : option string) : bool :=
  match a with
  | None => false
  | Some x => negb (bool_decide (x = ""))
  end.

Definition answerQuestion (clientData : ClientData) (questionId ans : string)
    (s : State) : State :=
  match clientRoom s clientData with
  | None => s
  | Some (rc, r, room) =>
      match findQuestion questionId (questions (gameState room)) with
      | None => s
      | Some question =>
          if negb (bool_decide (q_to question = playerId clientData))
             || truthyAnswer (answer question)
          then s
          else
            let s := updRoom r (upd_gameState (fun g =>
                       set_questions (answerFound questionId ans (questions g)) g)) s in
            broadcastToRoom rc (QUESTION_ANSWERED questionId ans) s
      end
  end.

Definition submitVote (clientData : ClientData) (suspect : string) (conf : Z)
    (s : State) : State :=
  match clientRoom s clientData with
  | None => s
  | Some (rc, r, room) =>
      if negb (bool_decide (phase (gameState room) = ACCUSATIONS)) then s else
      let vote := mkVote suspect (Z.min 3 (Z.max 1 conf)) in
      let s := updRoom r (upd_gameState (fun g =>
                 set_votes (map_set (playerId clientData) vote (votes g)) g)) s in
      broadcastToRoom rc (VOTE_SUBMITTED (playerId clientData)) s
  end.

Definition handleDisconnect (ws : nat) (s : State) : State :=
  match map_get ws (clients s) with
  | None => s
  | Some clientData =>
      let s :=
        (* if (clientData.roomCode): null and the empty string are falsy *)
        match (if bool_decide (roomCode clientData = Some "") then None
               else clientRoom s clientData) with
        | None => s
        | Some (rc, r, room) =>
            let ps := map_delete (playerId clientData) (players room) in
            let s := updRoom r (set_players ps) s in
            let s := broadcastToRoom rc (PLAYER_LEFT (playerId clientData) (length ps)) s in
            (* Delete room if empty *)
            if (length ps =? 0)%nat then set_rooms (delete rc (rooms s)) s else s
        end in
      set_clients (map_delete ws (clients s)) s
  end.

(* wss.on('connection', ...): a new socket gets the next unused number; the
   socket handed to the 'connection' listener is open *)
Definition connection (rnd : RandomNumber) (s : State) : State :=
  let ws := nextWs s in
  let clientData := mkClientData (generateId rnd) None None in
  let s := mkState (rooms s) (heap s) (map_set ws clientData (clients s)) (leaderboard s)
             (pending s) (nextTimer s) (nextRoom s) (S ws) (notOpen s ∖ {[ws]})
             (outbox s) in
  send ws (CONNECTED (playerId clientData)) s.

Definition handleMessage (ws : nat) (m : ClientMessage) (o : Oracle) (s : State) : State :=
  match map_get ws (clients s) with
  | None => s
  | Some clientData =>
      match m with
      | CREATE_ROOM => createRoom ws clientData (random1 o) s
      | JOIN_ROOM rc name => joinRoom ws clientData rc name s
      | START_GAME =>
          match roomCode clientData with
          | Some rc => startGame rc o s
          | None => s
          end
      | SUBMIT_ALIBI alibi => submitAlibi clientData alibi s
      | ASK_QUESTION toId text => askQuestion clientData toId text o s
      | ANSWER_QUESTION qid ans => answerQuestion clientData qid ans s
      | SUBMIT_VOTE suspect conf => submitVote clientData suspect conf s
      | OTHER_MESSAGE => s
      end
  end.

(** ** The event loop *)

Definition runCallback (cb : Callback) (o : Oracle) (s : State) : State :=
  match cb with
  | CbAdvancePhase rc => advancePhase rc (now o) s
  | CbRevealEvidence r rc ev =>
      let s := updRoom r (upd_gameState (fun g =>
                 set_currentEvidence (currentEvidence g ++ [ev]) g)) s in
      broadcastToRoom rc (EVIDENCE_REVEALED ev) s
  end.

(** What happens to the server.  [Closing ws]: the socket [ws] of the
    client table leaves the OPEN state (the closing handshake has begun or the
    connection is lost); its 'close' event, [Close ws], comes later, and the
    socket is closed by then. *)
Inductive Event :=
  | Connection (rnd : RandomNumber)
  | Message (ws : nat) (m : ClientMessage) (o : Oracle)
  | Close (ws : nat)
  | Timeout (tid : nat) (o : Oracle)
  | Closing (ws : nat).

(* ws.readyState becomes CLOSING or CLOSED *)
Definition leaveOpen (ws : nat) (s : State) : State :=
  set_notOpen ({[ws]} ∪ notOpen s) s.

(* a timer that fires leaves the table of pending timers *)
Definition step (s : State) (e : Event) : State :=
  match e with
  | Connection rnd => connection rnd s
  | Message ws m o => handleMessage ws m o s
  | Close ws => handleDisconnect ws (leaveOpen ws s)
  | Timeout tid o =>
      match pending s !! tid with
      | Some t => runCallback (callback t) o (clearTimeout tid s)
      | None => s
      end
  | Closing ws =>
      match map_get ws (clients s) with
      | Some _ => leaveOpen ws s
      | None => s
      end
  end.

Definition run (evs : list Event) (s : State) : State := foldl step s evs.

(** ** The client-side [GameManager] (src/gameManager.ts)

    A second, single-room implementation of the same round that lives in the
    browser bundle.  Its timers are the browser's: the armed phase timer is
    kept as the delay it was armed with, the evidence timers (which the class
    never records nor cancels) as the list of those still to fire. *)

Module GameManager.

Inductive GamePhase :=
  | WAITING | SETUP | ALIBI_CONSTRUCTION | INTERROGATION | EVIDENCE_DROP
  | ACCUSATIONS | RESULTS.

Global Instance GamePhase_eq_dec : EqDecision GamePhase.
Proof. solve_decision. Defined.

Record Question := mkQuestion {
  id : string;
  from : string;
  to : string;
  question : string;
  answer : option string;
  timestamp : Z
}.

Record Player := mkPlayer {
  pid : string;
  name : string;
  color : string;
  avatar : string;
  isGuilty : bool;
  alibi : string;
  score : Z;
  vote : option string;
  confidence : option Z;
  asked : list Question
}.

Record GameState := mkGameState {
  roomCode : string;
  phase : GamePhase;
  players : list (string * Player);
  crime : option Crime;
  guiltyPlayerId : option string;
  currentEvidence : list Evidence;
  questions : list Question;
  phaseEndTime : option Z;
  roundNumber : Z
}.

Record Manager := mkManager {
  state : GameState;
  phaseTimer : option Z;
  evidenceTimers : list (Z * Evidence)
}.

Definition create (rc : string) : Manager :=
  mkManager (mkGameState rc WAITING [] None None [] [] None 0) None [].

Definition canStartGame (m : Manager) : bool :=
  (4 <=? length (players (state m)))%nat && bool_decide (phase (state m) = WAITING).

Definition getRandomCrime (rnd : RandomNumber) : option Crime :=
  CRIMES !! randomIndex rnd (length CRIMES).

Definition phaseDurations (ph : GamePhase) : option Z :=
  match ph with
  | WAITING => None
  | SETUP => Some 5000
  | ALIBI_CONSTRUCTION => Some 30000
  | INTERROGATION => Some 30000
  | EVIDENCE_DROP => None
  | ACCUSATIONS => Some 20000
  | RESULTS => Some 10000
  end.

Definition changePhase (newPhase : GamePhase) (now : Z) (m : Manager) : Manager :=
  let st := state m in
  let st1 := mkGameState (roomCode st) newPhase (players st) (crime st) (guiltyPlayerId st)
               (currentEvidence st) (questions st) (phaseEndTime st) (roundNumber st) in
  match phaseDurations newPhase with
  | Some duration =>
      mkManager
        (mkGameState (roomCode st1) (phase st1) (players st1) (crime st1)
           (guiltyPlayerId st1) (currentEvidence st1) (questions st1)
           (Some (now + duration)) (roundNumber st1))
        (Some duration)
        (match newPhase, crime st1 with
         | INTERROGATION, Some c =>
             evidenceTimers m ++ map (fun ev => (revealTime ev * 1000, ev)) (evidence c)
         | _, _ => evidenceTimers m
         end)
  | None =>
      mkManager
        (mkGameState (roomCode st1) (phase st1) (players st1) (crime st1)
           (guiltyPlayerId st1) (currentEvidence st1) (questions st1)
           None (roundNumber st1))
        None (evidenceTimers m)
  end.

Definition markGuilty (p : Player) : Player :=
  mkPlayer (pid p) (name p) (color p) (avatar p) true (alibi p) (score p) (vote p)
    (confidence p) (asked p).
Definition resetPlayer (p : Player) : Player :=
  mkPlayer (pid p) (name p) (color p) (avatar p) (isGuilty p) "" (score p) None None [].
Definition addScore (n : Z) (p : Player) : Player :=
  mkPlayer (pid p) (name p) (color p) (avatar p) (isGuilty p) (alibi p) (score p + n)
    (vote p) (confidence p) (asked p).

Definition startGame (rndCrime rndGuilty : RandomNumber) (now : Z) (m : Manager) : Manager :=
  if negb (canStartGame m) then m else
  let st := state m in
  let playerIds := map_keys (players st) in
  let guilty := playerIds !! randomIndex rndGuilty (length playerIds) in
  (* Mark the guilty player *)
  let ps := match guilty with
            | Some g => match map_get g (players st) with
                        | Some p => map_set g (markGuilty p) (players st)
                        | None => players st
                        end
            | None => players st
            end in
  (* Reset all player data *)
  let ps := map (fun kv => (kv.1, resetPlayer kv.2)) ps in
  changePhase SETUP now
    (mkManager
       (mkGameState (roomCode st) (phase st) ps (getRandomCrime rndCrime) guilty
          [] [] (phaseEndTime st) (roundNumber st + 1))
       (phaseTimer m) (evidenceTimers m)).

Definition phaseOrder : list GamePhase :=
  [WAITING; SETUP; ALIBI_CONSTRUCTION; INTERROGATION; ACCUSATIONS; RESULTS].

Fixpoint indexOf (ph : GamePhase) (l : list GamePhase) : Z :=
  match l with
  | [] => -1
  | x :: l' => if decide (x = ph) then 0
               else let i := indexOf ph l' in if (i <? 0)%Z then -1 else i + 1
  end.

Definition advancePhase (now : Z) (m : Manager) : Manager :=
  let currentIndex := indexOf (phase (state m)) phaseOrder in
  if (currentIndex <? Z.of_nat (length phaseOrder) - 1)%Z then
    match phaseOrder !! Z.to_nat (currentIndex + 1) with
    | Some ph => changePhase ph now m
    | None => m
    end
  else changePhase WAITING now m.

(* the body of this.state.players.forEach(player => ...) in calculateResults *)
Definition tallyPlayer (guilty : string) (acc : list (string * Player) * Z)
    (k : string) : list (string * Player) * Z :=
  match map_get k acc.1 with
  | None => acc
  | Some player =>
      if decide (pid player = guilty) then acc
      else if decide (vote player = Some guilty) then
        (* player.confidence || 1 *)
        let c := match confidence player with
                 | Some c => if (c =? 0)%Z then 1 else c
                 | None => 1
                 end in
        (map_set k (addScore (100 * c) player) acc.1, acc.2)
      else (acc.1, acc.2 + 1)
  end.

Definition calculateResults (m : Manager) : Manager :=
  let st := state m in
  match guiltyPlayerId st with
  | None => m
  | Some g =>
      if bool_decide (g = "") then m else
      let '(ps, fooledCount) := foldl (tallyPlayer g) (players st, 0) (map_keys (players st)) in
      let ps := match map_get g ps with
                | Some guiltyPlayer => map_set g (addScore (fooledCount * 150) guiltyPlayer) ps
                | None => ps
                end in
      mkManager
        (mkGameState (roomCode st) (phase st) ps (crime st) (guiltyPlayerId st)
           (currentEvidence st) (questions st) (phaseEndTime st) (roundNumber st))
        (phaseTimer m) (evidenceTimers m)
  end.

Definition set_players (ps : list (string * Player)) (m : Manager) : Manager :=
  let st := state m in
  mkManager
    (mkGameState (roomCode st) (phase st) ps (crime st) (guiltyPlayerId st)
       (currentEvidence st) (questions st) (phaseEndTime st) (roundNumber st))
    (phaseTimer m) (evidenceTimers m).

Definition set_questions (qs : list Question) (m : Manager) : Manager :=
  let st := state m in
  mkManager
    (mkGameState (roomCode st) (phase st) (players st) (crime st) (guiltyPlayerId st)
       (currentEvidence st) qs (phaseEndTime st) (roundNumber st))
    (phaseTimer m) (evidenceTimers m).

Definition addPlayer (id name : string) (m : Manager) : Manager :=
  let colorIndex := (length (players (state m)) `mod` length COLORS)%nat in
  let avatarIndex := (length (players (state m)) `mod` length AVATARS)%nat in
  let player := mkPlayer id name (nth colorIndex COLORS "") (nth avatarIndex AVATARS "")
                  false "" 0 None None [] in
  set_players (map_set id player (players (state m))) m.

Definition removePlayer (id : string) (m : Manager) : Manager :=
  set_players (map_delete id (players (state m))) m.

Definition submitAlibi (playerId alibi : string) (m : Manager) : Manager :=
  match map_get playerId (players (state m)) with
  | Some player =>
      if bool_decide (phase (state m) = ALIBI_CONSTRUCTION) then
        set_players
          (map_set playerId
             (mkPlayer (pid player) (name player) (color player) (avatar player)
                (isGuilty player) alibi (score player) (vote player) (confidence player)
                (asked player))
             (players (state m))) m
      else m
  | None => m
  end.

Definition askQuestion (fromId toId questionText : string) (now : Z) (rnd : RandomNumber)
    (m : Manager) : Manager :=
  if negb (bool_decide (phase (state m) = INTERROGATION)) then m else
  match map_get fromId (players (state m)) with
  | None => m
  | Some _ =>
      (* Check if player has questions remaining (max 3 per player) *)
      let questionsAsked :=
        length (filter (fun q => from q = fromId) (questions (state m))) in
      if (3 <=? questionsAsked)%nat then m else
      let q := mkQuestion ("q_" +:+ pretty now +:+ "_" +:+ decimal rnd)
                 fromId toId questionText None now in
      set_questions (questions (state m) ++ [q]) m
  end.

(* question.answer = answer, on the first question with that id *)
Fixpoint answerFirst (questionId ans : string) (qs : list Question) : list Question :=
  match qs with
  | [] => []
  | q :: qs' =>
      if decide (id q = questionId) then
        (* !question.answer: undefined and the empty string are falsy *)
        match answer q with
        | Some a => if bool_decide (a = "") then
                      mkQuestion (id q) (from q) (to q) (question q) (Some ans) (timestamp q)
                        :: qs'
                    else q :: qs'
        | None => mkQuestion (id q) (from q) (to q) (question q) (Some ans) (timestamp q) :: qs'
        end
      else q :: answerFirst questionId ans qs'
  end.

Definition answerQuestion (questionId ans : string) (m : Manager) : Manager :=
  set_questions (answerFirst questionId ans (questions (state m))) m.

Definition submitVote (playerId suspectId : string) (conf : Z) (m : Manager) : Manager :=
  match map_get playerId (players (state m)) with
  | Some player =>
      if bool_decide (phase (state m) = ACCUSATIONS) then
        set_players
          (map_set playerId
             (mkPlayer (pid player) (name player) (color player) (avatar player)
                (isGuilty player) (alibi player) (score player) (Some suspectId)
                (Some (Z.min 3 (Z.max 1 conf))) (asked player))
             (players (state m))) m
      else m
  | None => m
  end.

Global Instance Evidence_eq_dec : EqDecision Evidence.
Proof. solve_decision. Defined.

(* the callback of scheduleEvidenceReveals *)
Definition revealEvidence (ev : Evidence) (m : Manager) : Manager :=
  let st := state m in
  if bool_decide (phase st = INTERROGATION) then
    mkManager
      (mkGameState (roomCode st) (phase st) (players st) (crime st) (guiltyPlayerId st)
         (currentEvidence st ++ [ev]) (questions st) (phaseEndTime st) (roundNumber st))
      (phaseTimer m) (evidenceTimers m)
  else m.

(** The calls a user of the class can make, and the two timer callbacks
    (the phase timer that is armed, or an evidence timer that was set). *)
Inductive Call :=
  | AddPlayer (id name : string)
  | RemovePlayer (id : string)
  | StartGame (rndCrime rndGuilty : RandomNumber) (now : Z)
  | PhaseTimeout (now : Z)
  | EvidenceTimeout (ev : Evidence)
  | SubmitAlibi (playerId alibi : string)
  | AskQuestion (fromId toId questionText : string) (now : Z) (rnd : RandomNumber)
  | AnswerQuestion (questionId ans : string)
  | SubmitVote (playerId suspectId : string) (conf : Z)
  | CalculateResults.

Definition call (m : Manager) (c : Call) : Manager :=
  match c with
  | AddPlayer id name => addPlayer id name m
  | RemovePlayer id => removePlayer id m
  | StartGame rc rg now => startGame rc rg now m
  | PhaseTimeout now =>
      match phaseTimer m with
      | Some _ => advancePhase now m
      | None => m
      end
  | EvidenceTimeout ev =>
      if bool_decide (ev ∈ (evidenceTimers m).*2) then revealEvidence ev m else m
  | SubmitAlibi p a => submitAlibi p a m
  | AskQuestion f t q now rnd => askQuestion f t q now rnd m
  | AnswerQuestion q a => answerQuestion q a m
  | SubmitVote p sus c => submitVote p sus c m
  | CalculateResults => calculateResults m
  end.

Definition calls (cs : list Call) (m : Manager) : Manager := foldl call m cs.

(** What every call keeps true of the players: one record per id, kept
    under its id, with a score that is not negative and a wager, if any, of
    1, 2 or 3. *)
Record playersOk (ps : list (string * Player)) : Prop := mkPlayersOk {
  pok_ids : NoDup (map_keys ps);
  pok_keys : Forall (fun kv : string * Player => pid kv.2 = kv.1) ps;
  pok_scores : Forall (fun kv : string * Player => (0 ≤ score kv.2)%Z) ps;
  pok_confidence : Forall (fun kv : string * Player =>
    ∀ c, confidence kv.2 = Some c → (1 ≤ c ≤ 3)%Z) ps
}.

(** What every call keeps true of the manager. *)
Record wellFormed (m : Manager) : Prop := mkWellFormed {
  wf_players : playersOk (players (state m));
  wf_questions : ∀ k,
    (length (filter (fun q => from q = k) (questions (state m))) ≤ 3)%nat;
  wf_phase : phase (state m) ≠ EVIDENCE_DROP
}.

(** The scores of the players, in the order of the [Map]. *)
Definition scores (m : Manager) : list (string * Z) :=
  map (fun kv => (kv.1, score kv.2)) (players (state m)).

(** The record of player [k] is marked guilty. *)
Definition marked (m : Manager) (k : string) : Prop :=
  ∃ p, map_get k (players (state m)) = Some p ∧ isGuilty p = true.

(* the body of the forEach of calculateResults, for one record *)
Definition tallied (g : string) (p : Player) : Player :=
  if decide (pid p = g) then p
  else if decide (vote p = Some g) then
    addScore (100 * match confidence p with
                    | Some c => if (c =? 0)%Z then 1 else c
                    | None => 1
                    end) p
  else p.

(** Players other than [g] whose vote is not for [g] (no vote included). *)
Definition fooled (g : string) (ps : list (string * Player)) : Z :=
  Z.of_nat (length (filter (fun kv : string * Player =>
    kv.1 ≠ g ∧ vote kv.2 ≠ Some g) ps)).

(** What [calculateResults] adds to the score of player [k] with record [p]. *)
Definition award (g : string) (ps : list (string * Player)) (k : string) (p : Player) : Z :=
  if decide (k = g) then 150 * fooled g ps
  else if decide (vote p = Some g) then
    100 * match confidence p with Some c => if (c =? 0)%Z then 1 else c | None => 1 end
  else 0.

End GameManager.

(** ** Sample runs *)

Definition sampleRandom (n : nat) (b : string) : RandomNumber := mkRandom n 9 b "0.25".

Definition sampleOracle (t : Z) (n : nat) : Oracle :=
  mkOracle t (sampleRandom n "0.ab12cdefgh") (sampleRandom n "0.ab12cdefgh").

(** Four clients connect, the first creates room "AB12", all four join. *)
Definition lobbyEvents : list Event :=
  [ Connection (sampleRandom 0 "0.p1xxxxxxxxx");
    Connection (sampleRandom 0 "0.p2xxxxxxxxx");
    Connection (sampleRandom 0 "0.p3xxxxxxxxx");
    Connection (sampleRandom 0 "0.p4xxxxxxxxx");
    Message 0 CREATE_ROOM (sampleOracle 0 0);
    Message 0 (JOIN_ROOM "AB12" "Ada") (sampleOracle 1 0);
    Message 1 (JOIN_ROOM "AB12" "Bob") (sampleOracle 2 0);
    Message 2 (JOIN_ROOM "AB12" "Cyd") (sampleOracle 3 0);
    Message 3 (JOIN_ROOM "AB12" "Dee") (sampleOracle 4 0) ].

Definition lobby : State := run lobbyEvents (initial []).

(** The host starts the game and the SETUP and ALIBI_CONSTRUCTION timers
    fire: the room is in INTERROGATION. *)
Definition interrogatingEvents : list Event :=
  lobbyEvents ++
  [ Message 0 START_GAME (sampleOracle 10 0);
    Timeout 0 (sampleOracle 5010 0);
    Timeout 1 (sampleOracle 35010 0);
    Message 1 (ASK_QUESTION "p1xxxxxxx" "Where were you at 9:47 PM?")
      (sampleOracle 35020 0) ].

Definition interrogating : State := run interrogatingEvents (initial []).

(** The questions of the room registered under a code, as (id, answer). *)
Definition answersOf (s : State) (rc : string) : option (list (string * option string)) :=
  (fun x => map (fun q => (q_id q, answer q)) (questions (gameState x.2))) <$> getRoom s rc.

(** A whole round on the sample lobby: every phase timer fires in turn
    and the room is back in WAITING. *)
Definition fullRound (o : Oracle) (first : nat) : list Event :=
  [ Message 0 START_GAME o;
    Timeout first o; Timeout (first + 1) o; Timeout (first + 2) o;
    Timeout (first + 5) o; Timeout (first + 6) o ].

(** The interrogation timer fires and three votes are cast; the guilty
    player of the round is "p1xxxxxxx". *)
Definition accusingEvents : list Event :=
  interrogatingEvents ++
  [ Timeout 2 (sampleOracle 65010 0);
    Message 1 (SUBMIT_VOTE "p1xxxxxxx" 2) (sampleOracle 65020 0);
    Message 2 (SUBMIT_VOTE "p4xxxxxxx" 3) (sampleOracle 65030 0);
    Message 0 (SUBMIT_VOTE "p2xxxxxxx" 1) (sampleOracle 65040 0) ].

Definition accusing : State := run accusingEvents (initial []).

Definition scoresOf (s : State) (rc : string) : option (list (string * Z)) :=
  (fun x => map (fun kv => (kv.1, score kv.2)) (players x.2)) <$> getRoom s rc.

Definition afterFirstRound : State :=
  run (lobbyEvents ++ fullRound (sampleOracle 10 0) 0) (initial []).

(** The phase and the round number of the room registered under a code. *)
Definition phaseOf (s : State) (rc : string) : option Phase :=
  (fun x => phase (gameState x.2)) <$> getRoom s rc.
Definition roundOf (s : State) (rc : string) : option Z :=
  (fun x => roundNumber (gameState x.2)) <$> getRoom s rc.
Definition guiltyOf (s : State) (rc : string) : option (option string) :=
  (fun x => guiltyPlayerId (gameState x.2)) <$> getRoom s rc.

(** The sample lobby starts its round (timer 0 is armed for SETUP); a
    second CREATE_ROOM draws the code "AB12" again, the four clients join the
    new room and start it (timer 1 is armed for its SETUP). *)
Definition reusedCodeEvents : list Event :=
  lobbyEvents ++
  [ Message 0 START_GAME (sampleOracle 10 0);
    Message 1 CREATE_ROOM (sampleOracle 1000 0);
    Message 0 (JOIN_ROOM "AB12" "Ada") (sampleOracle 1001 0);
    Message 1 (JOIN_ROOM "AB12" "Bob") (sampleOracle 1002 0);
    Message 2 (JOIN_ROOM "AB12" "Cyd") (sampleOracle 1003 0);
    Message 3 (JOIN_ROOM "AB12" "Dee") (sampleOracle 1004 0);
    Message 1 START_GAME (sampleOracle 1010 0) ].

Definition reusedCode : State := run reusedCodeEvents (initial []).

(** ** Notions used in the statements *)

(** Everything of the server state except the messages sent so far. *)
Definition core (s : State) :=
  (rooms s, heap s, clients s, leaderboard s, pending s, nextTimer s, nextRoom s, nextWs s,
   notOpen s).

(** What a snapshot for [pid] must show of the crime of [room]. *)
Definition redacted (room : Room) : CrimeView :=
  HiddenCrime (location <$> crime (gameState room)) (crime_time <$> crime (gameState room)).

Definition personalized (room : Room) (pid : string) (snap : PublicGameState) : Prop :=
  (pub_crime snap = redacted room ↔ guiltyPlayerId (gameState room) = Some pid) ∧
  (guiltyPlayerId (gameState room) ≠ Some pid → pub_crime snap = FullCrime (crime (gameState room))) ∧
  (pub_isGuilty snap = true ↔ guiltyPlayerId (gameState room) = Some pid).

(** A room without its timer handles, and the heap seen that way. *)
Definition dataOf (room : Room) : Room := set_timers (mkTimers None []) room.
Definition dview (s : State) : gmap nat Room := dataOf <$> heap s.

(** Everything except the timers and the outbox. *)
Definition dcore (s : State) :=
  (rooms s, dview s, clients s, leaderboard s, nextRoom s, nextWs s, notOpen s).

(** Everything except the leaderboard and the outbox. *)
Definition ncore (s : State) :=
  (rooms s, heap s, clients s, pending s, nextTimer s, nextRoom s, nextWs s, notOpen s).

(** The event is a CREATE_ROOM whose random draw gives the code [rc]. *)
Definition drawsCode (rc : string) (e : Event) : bool :=
  match e with
  | Message _ CREATE_ROOM o => bool_decide (generateRoomCode (random1 o) = rc)
  | _ => false
  end.

(** The sockets of the client table whose readyState is OPEN, in the order
    of the table. *)
Definition openClients (s : State) : list nat :=
  filter (fun ws => ws ∉ notOpen s) (map_keys (clients s)).

(** The messages that reach the connections of the players [l] in state
    [s], in order: a player without a connection gets none, and neither does
    one whose socket is not open. *)
Definition deliveries (s : State) (l : list string)
    (m : string -> ServerMessage) : list (nat * ServerMessage) :=
  omap (fun pid =>
          ws ← findClient pid (clients s);
          if bool_decide (ws ∈ notOpen s) then None else Some (ws, m pid)) l.

(** The vote accuses the guilty player. *)
Definition correctVote (guilty : option string) (v : Vote) : bool :=
  bool_decide (Some (suspectId v) = guilty).

(** Points a player earns with the vote they cast, if any. *)
Definition voteAward (room : Room) (pid : string) : Z :=
  match map_get pid (votes (gameState room)) with
  | Some v => if correctVote (guiltyPlayerId (gameState room)) v then 100 * confidence v else 0
  | None => 0
  end.

(** The votes, cast by players of the room, that accuse someone else. *)
Fixpoint countWrong (guilty : option string) (ids : list string)
    (vs : list (string * Vote)) : Z :=
  match vs with
  | [] => 0
  | (voter, v) :: vs' =>
      (if bool_decide (voter ∈ ids) && negb (correctVote guilty v) then 1 else 0)
      + countWrong guilty ids vs'
  end.

Definition wrongVotes (room : Room) : Z :=
  countWrong (guiltyPlayerId (gameState room)) (map_keys (players room))
    (votes (gameState room)).

(** Points the guilty player earns for the players they fooled. *)
Definition guiltyBonus (room : Room) (pid : string) : Z :=
  if decide (guiltyPlayerId (gameState room) = Some pid) then 150 * wrongVotes room else 0.

(** The phase that follows a phase in a round. *)
Definition nextPhase (ph : Phase) : Phase :=
  match ph with
  | WAITING => WAITING
  | SETUP => ALIBI_CONSTRUCTION
  | ALIBI_CONSTRUCTION => INTERROGATION
  | INTERROGATION => ACCUSATIONS
  | ACCUSATIONS => RESULTS
  | RESULTS => WAITING
  end.

(** *** Timers *)

(** The handle [tid] of timer [t] is kept in the timers record [tm]: in the
    [phaseTimer] slot for a phase timer, in [evidenceTimers] for an
    evidence-reveal timer. *)
Definition recorded (tm : Timers) (tid : nat) (t : Timer) : Prop :=
  if isPhaseTimer t then phaseTimer tm = Some tid else tid ∈ evidenceTimers tm.

(** The timer discipline: every pending timer has a handle that was already
    given out, and is recorded in the [timers] of the room object it was
    armed for; room references are below the next one to be given out. *)
Definition timersOk (s : State) : Prop :=
  (∀ tid t, pending s !! tid = Some t →
     (tid < nextTimer s)%nat ∧
     ∃ room, heap s !! owner t = Some room ∧ recorded (timers room) tid t) ∧
  (∀ r room, heap s !! r = Some room → (r < nextRoom s)%nat).

(** The part of the state that the timer discipline talks about. *)
Definition tview (s : State) :=
  (timers <$> heap s, pending s, nextTimer s, nextRoom s).

(** [s'] is a later state than [s] as far as timers go: handles are given
    out in increasing order, and a handle given out before [s] is pending in
    [s'] only if it was pending, for the same timer, in [s]. *)
Definition older (s s' : State) : Prop :=
  (nextTimer s ≤ nextTimer s')%nat ∧
  ∀ tid t, (tid < nextTimer s)%nat → pending s' !! tid = Some t → pending s !! tid = Some t.

(** Every pending timer of room object [r] has a handle from [n0] on. *)
Definition armedSince (n0 r : nat) (s : State) : Prop :=
  ∀ tid t, pending s !! tid = Some t → owner t = r → (n0 ≤ tid)%nat.

(** No timer of room object [r] is pending. *)
Definition noneArmed (r : nat) (s : State) : Prop :=
  ∀ tid t, pending s !! tid = Some t → owner t ≠ r.

(** What holds of room object [r] while [startPhase] arms its new timers. *)
Definition armInv (n0 r : nat) (s : State) : Prop :=
  timersOk s ∧ armedSince n0 r s ∧ is_Some (heap s !! r) ∧ (n0 ≤ nextTimer s)%nat.

(** Every timer pending in [s] is still pending in [s']. *)
Definition keeps (s s' : State) : Prop :=
  ∀ tid t, pending s !! tid = Some t → pending s' !! tid = Some t.

(** *** Player records and vote maps *)

Definition innocent (p : Player) : Prop := isGuilty p = false.

(** What is kept true of every room object: no player record is marked
    guilty, and the votes are a [Map] (one entry per voter). *)
Definition roomInv (room : Room) : Prop :=
  Forall innocent (map_values (players room)) ∧
  NoDup (map_keys (votes (gameState room))).

(** The player records a message carries all have [isGuilty] false. *)
Definition msgClean (m : ServerMessage) : Prop :=
  match m with
  | ROOM_JOINED _ ps gs => Forall innocent ps ∧ Forall innocent (pub_players gs)
  | PLAYER_JOINED p _ => innocent p
  | PHASE_CHANGE gs => Forall innocent (pub_players gs)
  | _ => True
  end.

Definition Inv (s : State) : Prop :=
  (∀ r room, heap s !! r = Some room → roomInv room) ∧
  Forall (fun x => msgClean x.2) (outbox s).

(** A PHASE_CHANGE whose snapshot raises its own [isGuilty] flag while all
    the player records it lists (there are some) have [isGuilty] false. *)
Definition guiltySnapshot (x : nat * ServerMessage) : bool :=
  match x.2 with
  | PHASE_CHANGE gs =>
      pub_isGuilty gs && negb (Nat.eqb (length (pub_players gs)) 0)
      && forallb (fun p => negb (isGuilty p)) (pub_players gs)
  | _ => false
  end.

(** *** Well-formed rooms *)

(** What every room object of a running server satisfies. *)
Record roomOk (room : Room) : Prop := mkRoomOk {
  ok_capacity : (length (players room) ≤ 8)%nat;
  ok_ids : NoDup (map_keys (players room));
  ok_keys : Forall (fun kv : string * Player => player_id kv.2 = kv.1) (players room);
  ok_scores : Forall (fun kv : string * Player => (0 ≤ score kv.2)%Z) (players room);
  ok_votes : Forall (fun kv : string * Vote => (1 ≤ confidence kv.2 ≤ 3)%Z)
    (votes (gameState room));
  ok_questions : ∀ pid,
    (length (filter (fun q => q_from q = pid) (questions (gameState room))) ≤ 3)%nat;
  ok_crime : ∀ c, crime (gameState room) = Some c → c ∈ getCrimes;
  ok_round : phase (gameState room) ≠ WAITING →
    is_Some (guiltyPlayerId (gameState room)) ∧ is_Some (crime (gameState room)) ∧
    (1 ≤ roundNumber (gameState room))%Z;
  ok_roundNumber : (0 ≤ roundNumber (gameState room))%Z
}.

Definition Ok (s : State) : Prop := ∀ r room, heap s !! r = Some room → roomOk room.

(** The room object at a heap address (an empty room where there is none). *)
Definition roomAt (s : State) (r : nat) : Room :=
  default (mkRoom "" "" [] emptyGameState (mkTimers None [])) (heap s !! r).

(** The round of [accusing] runs to its end: the ACCUSATIONS timer fires
    (the votes are scored) and then the RESULTS timer; the room is back in
    WAITING with the scores of the round. *)
Definition scoredRound : State :=
  run (accusingEvents ++ [Timeout 5 (sampleOracle 85010 0); Timeout 6 (sampleOracle 95010 0)])
    (initial []).

(** A client creates a room while Math.random() returns 0, whose base-36
    rendering "0" leaves the empty room code, and joins it. *)
Definition emptyCodeEvents : list Event :=
  [ Connection (sampleRandom 0 "0.p1xxxxxxxxx");
    Message 0 CREATE_ROOM (mkOracle 0 (mkRandom 0 9 "0" "0") (mkRandom 0 9 "0" "0"));
    Message 0 (JOIN_ROOM "" "Ada") (sampleOracle 1 0) ].

Definition emptyCode : State := run emptyCodeEvents (initial []).

(** The order of the leaderboard: best score first. *)
Definition byScore (a b : LeaderboardEntry) : Prop := (entry_score b ≤ entry_score a)%Z.
Definition ranked (l : list LeaderboardEntry) : Prop := StronglySorted byScore l.

(** *** Evidence *)

(** What the evidence timers look at in a room object: the phase, the
    crime and the evidence revealed so far. *)
Definition evidenceFields (room : Room) : Phase * option Crime * list Evidence :=
  (phase (gameState room), crime (gameState room), currentEvidence (gameState room)).

Definition eview (s : State) : gmap nat (Phase * option Crime * list Evidence) :=
  evidenceFields <$> heap s.

(** An evidence timer reveals an item of the crime of the room object it
    was armed for, and that room is in INTERROGATION. *)
Definition revealOk (s : State) (t : Timer) : Prop :=
  match callback t with
  | CbAdvancePhase _ => True
  | CbRevealEvidence r _ ev =>
      r = owner t ∧
      ∃ c shown, eview s !! r = Some (INTERROGATION, Some c, shown) ∧ ev ∈ evidence c
  end.

(** The evidence revealed in a room is evidence of its crime. *)
Definition shownOk (s : State) : Prop :=
  ∀ r ph c shown, eview s !! r = Some (ph, c, shown) →
    ∀ ev, ev ∈ shown → ∃ c0, c = Some c0 ∧ ev ∈ evidence c0.

Definition evidenceInv (s : State) : Prop :=
  (∀ tid t, pending s !! tid = Some t → revealOk s t) ∧ shownOk s.

(** The same, but for the timers of room object [r]. *)
Definition evidenceInvBut (r : nat) (s : State) : Prop :=
  (∀ tid t, pending s !! tid = Some t → owner t ≠ r → revealOk s t) ∧ shownOk s.

(** A round of the client-side manager: four players, the game starts
    (the first player is drawn as guilty), the phase timer fires three times
    (ACCUSATIONS), one player votes for the guilty player with wager 2, one
    votes for an innocent player, one does not vote. *)
Definition clientRoundCalls : list GameManager.Call :=
  [ GameManager.AddPlayer "a" "Ada"; GameManager.AddPlayer "b" "Bob";
    GameManager.AddPlayer "c" "Cyd"; GameManager.AddPlayer "d" "Dee";
    GameManager.StartGame (sampleRandom 0 "0.5") (sampleRandom 0 "0.5") 0;
    GameManager.PhaseTimeout 5000; GameManager.PhaseTimeout 35000;
    GameManager.PhaseTimeout 65000;
    GameManager.SubmitVote "b" "a" 2; GameManager.SubmitVote "c" "d" 3 ].

Definition clientRound : GameManager.Manager :=
  GameManager.calls clientRoundCalls (GameManager.create "AB12").

(** The player ids of every room object. *)
Definition pview (s : State) : gmap nat (list string) :=
  (fun room => map_keys (players room)) <$> heap s.

(** The table of connections and the next socket number. *)
Definition cview (s : State) : list (nat * ClientData) * nat := (clients s, nextWs s).

(** *** Rounds keep going *)

(** [tid] is a handle kept in a timers record. *)
Definition handleOf (tm : Timers) (tid : nat) : Prop :=
  phaseTimer tm = Some tid ∨ tid ∈ evidenceTimers tm.

(** A handle kept by a room object was given out already, and if its timer
    is still pending it is a timer of that room object. *)
Definition handlesOk (s : State) : Prop :=
  ∀ r room tid, heap s !! r = Some room → handleOf (timers room) tid →
    (tid < nextTimer s)%nat ∧ ∀ t, pending s !! tid = Some t → owner t = r.

(** A room object is registered under one code at most, and was created
    before the next one is. *)
Definition regOk (s : State) : Prop :=
  ∀ rc r, rooms s !! rc = Some r →
    (r < nextRoom s)%nat ∧ ∀ rc', rooms s !! rc' = Some r → rc' = rc.

(** A registered room that is not in WAITING has its phase timer pending. *)
Definition tickingAt (s : State) (rc : string) (r : nat) : Prop :=
  ∀ ph c shown, rooms s !! rc = Some r → eview s !! r = Some (ph, c, shown) →
    ph ≠ WAITING → ∃ tid d, pending s !! tid = Some (mkTimer r d (CbAdvancePhase rc)).

Definition ticking (s : State) : Prop := ∀ rc r, tickingAt s rc r.

(** The registry and the next room reference. *)
Definition rview (s : State) : gmap string nat * nat := (rooms s, nextRoom s).

(** * Properties *)

(** ** Association lists *)

Section JsMapFacts.
Context {K : Type} `{EqDecision K} {V : Type}.
Implicit Types (m : list (K * V)) (k : K) (v : V).

Lemma map_get_set_eq k v m : map_get k (map_set k v m) = Some v.
Proof.
  induction m as [|[k' v'] m IH]; simpl.
  - by rewrite decide_True.
  - destruct (decide (k' = k)) as [->|Hne]; simpl.
    + by rewrite decide_True.
    + by rewrite decide_False.
Qed.

Lemma map_get_set_ne k k' v m : k ≠ k' → map_get k' (map_set k v m) = map_get k' m.
Proof.
  intros Hne. induction m as [|[k0 v0] m IH]; simpl.
  - by rewrite decide_False.
  - destruct (decide (k0 = k)) as [->|Hk]; simpl.
    + by rewrite !decide_False.
    + destruct (decide (k0 = k')); [done | apply IH].
Qed.

Lemma map_keys_set_present k v m :
  is_Some (map_get k m) → map_keys (map_set k v m) = map_keys m.
Proof.
  unfold map_keys. induction m as [|[k0 v0] m IH]; simpl; intros [x Hx]; [done|].
  destruct (decide (k0 = k)) as [->|Hk]; simpl; [done|].
  f_equal. apply IH. eauto.
Qed.

Lemma map_get_Some_elem k v m : map_get k m = Some v → (k, v) ∈ m.
Proof.
  induction m as [|[k0 v0] m IH]; simpl; [done|].
  destruct (decide (k0 = k)) as [->|Hk].
  - intros [= ->]. left.
  - intros Hm. right. by apply IH.
Qed.

Lemma map_get_None k m : map_get k m = None ↔ k ∉ map_keys m.
Proof.
  unfold map_keys. induction m as [|[k0 v0] m IH]; simpl.
  - split; [intros _; apply not_elem_of_nil | done].
  - rewrite not_elem_of_cons. destruct (decide (k0 = k)) as [->|Hk].
    + split; [done | intros [? _]; done].
    + rewrite IH. split; [intros ?; split; [congruence | done] | intros [_ ?]; done].
Qed.

Lemma map_get_is_Some k m : is_Some (map_get k m) ↔ k ∈ map_keys m.
Proof.
  rewrite <- not_eq_None_Some, map_get_None.
  split; [apply dec_stable | intros ? Hn; done].
Qed.

Lemma map_values_set_Forall (P : V → Prop) k v m :
  P v → Forall P (map_values m) → Forall P (map_values (map_set k v m)).
Proof.
  unfold map_values. intros Hv. induction m as [|[k0 v0] m IH]; simpl; intros Hm.
  - by constructor.
  - inversion Hm; subst. destruct (decide (k0 = k)); simpl; constructor; auto.
Qed.

Lemma map_values_delete_Forall (P : V → Prop) k m :
  Forall P (map_values m) → Forall P (map_values (map_delete k m)).
Proof.
  unfold map_values. induction m as [|[k0 v0] m IH]; simpl; intros Hm; [done|].
  inversion Hm; subst. destruct (decide (k0 = k)); simpl; [done|]. constructor; auto.
Qed.

Lemma elem_of_map_keys_set x k v m :
  x ∈ map_keys (map_set k v m) ↔ x = k ∨ x ∈ map_keys m.
Proof.
  unfold map_keys. induction m as [|[k0 v0] m IH]; simpl.
  - rewrite list_elem_of_singleton. split; [by left | intros [?|H']; [done|]].
    by apply elem_of_nil in H'.
  - destruct (decide (k0 = k)) as [->|Hk]; simpl; rewrite !elem_of_cons.
    + tauto.
    + rewrite IH. tauto.
Qed.

Lemma map_set_NoDup k v m : NoDup (map_keys m) → NoDup (map_keys (map_set k v m)).
Proof.
  induction m as [|[k0 v0] m IH]; simpl.
  - intros _. apply NoDup_singleton.
  - intros Hnd. change (NoDup (k0 :: map_keys m)) in Hnd.
    apply NoDup_cons in Hnd as [Hk0 Hnd].
    destruct (decide (k0 = k)) as [->|Hk].
    + change (NoDup (k :: map_keys m)). by apply NoDup_cons.
    + change (NoDup (k0 :: map_keys (map_set k v m))). apply NoDup_cons. split; [|by apply IH].
      rewrite elem_of_map_keys_set. intros [?|?]; done.
Qed.

Lemma map_get_Forall (P : V → Prop) k v m :
  Forall P (map_values m) → map_get k m = Some v → P v.
Proof.
  intros Hm Hk. apply map_get_Some_elem in Hk.
  rewrite Forall_forall in Hm. apply Hm. unfold map_values.
  apply list_elem_of_fmap. by exists (k, v).
Qed.
End JsMapFacts.

Lemma randomIndex_lt (r : RandomNumber) (n : nat) : (0 < n)%nat → (randomIndex r n < n)%nat.
Proof.
  intros Hn. unfold randomIndex.
  assert (Hm : (rnd_num r `mod` S (rnd_den r) < S (rnd_den r))%nat)
    by (apply Nat.mod_upper_bound; lia).
  apply Nat.Div0.div_lt_upper_bound. nia.
Qed.

(** ** Sending only adds to the outbox *)

Lemma foldl_preserve {A B} (P : A → Prop) (f : A → B → A) (l : list B) (a : A) :
  (∀ a b, P a → P (f a b)) → P a → P (foldl f a l).
Proof. intros Hf. revert a. induction l; simpl; auto. Qed.

Lemma sendToPlayer_core pid m s : core (sendToPlayer pid m s) = core s.
Proof. unfold sendToPlayer. by destruct (findClient pid (clients s)). Qed.

Lemma broadcastToRoom_core rc m s : core (broadcastToRoom rc m s) = core s.
Proof.
  unfold broadcastToRoom. destruct (getRoom s rc) as [[r room]|]; [|done].
  apply (foldl_preserve (fun s' => core s' = core s)); [|done].
  intros a b Ha. by rewrite sendToPlayer_core.
Qed.

Lemma broadcastPhaseUpdate_core rc s : core (broadcastPhaseUpdate rc s) = core s.
Proof.
  unfold broadcastPhaseUpdate. destruct (getRoom s rc) as [[r room]|]; [|done].
  apply (foldl_preserve (fun s' => core s' = core s)); [|done].
  intros a b Ha. by rewrite sendToPlayer_core.
Qed.

Lemma core_getRoom s s' rc : core s' = core s → getRoom s' rc = getRoom s rc.
Proof. unfold core, getRoom. intros H. by replace (rooms s') with (rooms s) by congruence; replace (heap s') with (heap s) by congruence. Qed.

Ltac core_eqs H :=
  let H1 := fresh "Hrooms" in let H2 := fresh "Hheap" in let H3 := fresh "Hclients" in
  let H4 := fresh "Hlb" in let H5 := fresh "Hpending" in let H6 := fresh "HnextT" in
  let H7 := fresh "HnextR" in let H8 := fresh "HnextW" in
  unfold core in H; injection H as H1 H2 H3 H4 H5 H6 H7 H8.


Lemma core_dcore s s' : core s' = core s → dcore s' = dcore s.
Proof. unfold core, dcore, dview. intros H. congruence. Qed.

Lemma core_ncore s s' : core s' = core s → ncore s' = ncore s.
Proof. unfold core, ncore. intros H. congruence. Qed.

(** ** Mutating a room object *)

Lemma dview_updRoom_timers r f s :
  (∀ room, dataOf (f room) = dataOf room) → dview (updRoom r f s) = dview s.
Proof.
  intros Hf. unfold dview, updRoom. simpl. apply map_eq. intros i.
  rewrite !lookup_fmap, lookup_alter. case_decide; [subst|done].
  destruct (heap s !! i); simpl; [|done]. by rewrite Hf.
Qed.

Lemma dview_updRoom_data r f s :
  (∀ room, dataOf (f room) = f (dataOf room)) → dview (updRoom r f s) = alter f r (dview s).
Proof.
  intros Hf. unfold dview, updRoom. simpl. apply map_eq. intros i.
  rewrite lookup_fmap, !lookup_alter. case_decide; [subst|by rewrite lookup_fmap].
  rewrite lookup_fmap. destruct (heap s !! i); simpl; [|done]. by rewrite Hf.
Qed.

Lemma dcore_updRoom_timers r f s :
  (∀ room, dataOf (f room) = dataOf room) → dcore (updRoom r f s) = dcore s.
Proof. intros Hf. unfold dcore. by rewrite dview_updRoom_timers. Qed.

Lemma dview_lookup s r room :
  heap s !! r = Some room → dview s !! r = Some (dataOf room).
Proof. intros H. unfold dview. by rewrite lookup_fmap, H. Qed.

Lemma dview_lookup_inv s r x :
  dview s !! r = Some x → ∃ room, heap s !! r = Some room ∧ dataOf room = x.
Proof.
  unfold dview. rewrite lookup_fmap. destruct (heap s !! r) as [room|]; [|done].
  intros [= <-]. eauto.
Qed.

Lemma dataOf_fields room room' :
  dataOf room' = dataOf room →
  code room' = code room ∧ host room' = host room ∧
  players room' = players room ∧ gameState room' = gameState room.
Proof. unfold dataOf, set_timers. intros [= -> -> -> ->]. done. Qed.

(** ** Timers never touch the data of a room *)

Lemma foldl_clearTimeout_dcore l s :
  dcore (foldl (fun s t => clearTimeout t s) s l) = dcore s.
Proof. apply (foldl_preserve (fun s' => dcore s' = dcore s)); [|done]. intros a b Ha. exact Ha. Qed.

Lemma clearTimers_dcore r tm s : dcore (clearTimers r tm s) = dcore s.
Proof.
  unfold clearTimers. rewrite dcore_updRoom_timers by done.
  rewrite foldl_clearTimeout_dcore. by destruct (phaseTimer tm).
Qed.

Lemma armPhaseTimer_dcore r rc d s : dcore (armPhaseTimer r rc d s) = dcore s.
Proof.
  unfold armPhaseTimer. destruct (truthyDuration d); [|done].
  simpl. by rewrite dcore_updRoom_timers.
Qed.

Lemma armEvidence_dcore r rc s ev : dcore (armEvidence r rc s ev) = dcore s.
Proof. unfold armEvidence. simpl. by rewrite dcore_updRoom_timers. Qed.

Lemma armEvidenceTimers_dcore r rc ph c s : dcore (armEvidenceTimers r rc ph c s) = dcore s.
Proof.
  unfold armEvidenceTimers. destruct ph; try done. destruct c as [c|]; [|done].
  apply (foldl_preserve (fun s' => dcore s' = dcore s)); [|done].
  intros a b Ha. by rewrite armEvidence_dcore.
Qed.

Lemma startPhase_dcore rc ph d now s r room :
  getRoom s rc = Some (r, room) →
  dcore (startPhase rc ph d now s) =
  dcore (updRoom r (upd_gameState (fun g => set_phaseStartTime (Some now) (set_phase ph g))) s).
Proof.
  intros Hg. unfold startPhase. rewrite Hg.
  rewrite armEvidenceTimers_dcore, armPhaseTimer_dcore.
  rewrite (core_dcore _ _ (broadcastPhaseUpdate_core _ _)).
  by rewrite clearTimers_dcore.
Qed.

Lemma getRoom_Some s rc r room :
  getRoom s rc = Some (r, room) ↔ rooms s !! rc = Some r ∧ heap s !! r = Some room.
Proof.
  unfold getRoom. split.
  - intros H. destruct (rooms s !! rc) as [r'|] eqn:E; simpl in H; [|done].
    destruct (heap s !! r') as [room'|] eqn:E'; simpl in H; [|done].
    by injection H as -> ->.
  - intros [H1 H2]. rewrite H1. simpl. by rewrite H2.
Qed.

(** The room object after [startPhase]: only the phase, its start time and
    the timer handles have changed. *)
Lemma startPhase_room rc ph d now s r room :
  getRoom s rc = Some (r, room) →
  ∃ room', heap (startPhase rc ph d now s) !! r = Some room' ∧
    rooms (startPhase rc ph d now s) = rooms s ∧
    code room' = code room ∧ host room' = host room ∧ players room' = players room ∧
    gameState room' = set_phaseStartTime (Some now) (set_phase ph (gameState room)).
Proof.
  intros Hg. pose proof (startPhase_dcore rc ph d now s r room Hg) as Hd.
  apply getRoom_Some in Hg as [Hr Hh].
  unfold dcore in Hd. injection Hd as Hrooms Hdv _ _ _ _.
  rewrite dview_updRoom_data in Hdv by done.
  assert (Hl : dview (startPhase rc ph d now s) !! r =
               Some (upd_gameState (fun g => set_phaseStartTime (Some now) (set_phase ph g))
                       (dataOf room))).
  { rewrite Hdv, lookup_alter_eq, (dview_lookup _ _ _ Hh). done. }
  apply dview_lookup_inv in Hl as (room' & Hroom' & Hdata).
  exists room'. split; [done|]. split; [done|].
  change (upd_gameState (fun g => set_phaseStartTime (Some now) (set_phase ph g)) (dataOf room))
    with (dataOf (upd_gameState (fun g => set_phaseStartTime (Some now) (set_phase ph g)) room))
    in Hdata.
  apply dataOf_fields in Hdata as (? & ? & ? & ?). done.
Qed.

Lemma startPhase_heap_other rc ph d now s r room r' :
  getRoom s rc = Some (r, room) → r' ≠ r →
  dataOf <$> heap (startPhase rc ph d now s) !! r' = dataOf <$> heap s !! r'.
Proof.
  intros Hg Hne. pose proof (startPhase_dcore rc ph d now s r room Hg) as Hd.
  unfold dcore in Hd. injection Hd as _ Hdv _ _ _ _.
  rewrite dview_updRoom_data in Hdv by done.
  apply (f_equal (fun m => m !! r')) in Hdv.
  rewrite lookup_alter_ne in Hdv by done. unfold dview in Hdv.
  by rewrite !lookup_fmap in Hdv.
Qed.

Lemma getRoom_updRoom s rc r room f :
  getRoom s rc = Some (r, room) → getRoom (updRoom r f s) rc = Some (r, f room).
Proof.
  rewrite !getRoom_Some. intros [Hr Hh]. split; [done|].
  unfold updRoom. simpl. by rewrite lookup_alter_eq, Hh.
Qed.

(** ** startGame *)

(** The room at the end of a [startGame] that passed its guard. *)
Lemma startGame_room rc o s r room :
  getRoom s rc = Some (r, room) → (4 ≤ length (players room))%nat →
  ∃ room', getRoom (startGame rc o s) rc = Some (r, room') ∧
    players room' = players room ∧
    gameState room' =
      mkGameState SETUP
        (getCrimes !! randomIndex (random1 o) (length getCrimes))
        (map_keys (players room) !! randomIndex (random2 o) (length (map_keys (players room))))
        [] [] [] [] (Some (now o)) (roundNumber (gameState room) + 1)
        (results (gameState room)).
Proof.
  intros Hg Hn. unfold startGame. rewrite Hg.
  destruct (length (players room) <? 4)%nat eqn:Hlt; [apply Nat.ltb_lt in Hlt; lia|].
  match goal with |- context [startPhase rc SETUP ?d ?t (updRoom r ?f s)] =>
    pose proof (startPhase_room rc SETUP d t _ r _ (getRoom_updRoom s rc r room f Hg))
      as (room' & Hroom' & Hrooms & _ & _ & Hps & Hgs)
  end.
  exists room'. split; [|split; [done|]].
  - apply getRoom_Some. split; [|done]. rewrite Hrooms. simpl.
    by apply getRoom_Some in Hg as [? ?].
  - rewrite Hgs. reflexivity.
Qed.

(** ** C8: the guilty player of a round *)

(** C8 (as amended).  A [startGame] that passes its guard makes one of the
    room's current players the guilty player, and leaves the player set as it
    was.  The draw does not look at the previous round. *)
Theorem startGame_guilty_is_player rc o s r room :
  getRoom s rc = Some (r, room) → (4 ≤ length (players room))%nat →
  ∃ room' g, getRoom (startGame rc o s) rc = Some (r, room') ∧
    players room' = players room ∧
    guiltyPlayerId (gameState room') = Some g ∧
    g ∈ map_keys (players room').
Proof.
  intros Hg Hn.
  destruct (startGame_room rc o s r room Hg Hn) as (room' & Hroom' & Hps & Hgs).
  assert (Hlen : length (map_keys (players room)) = length (players room))
    by (unfold map_keys; apply length_fmap).
  destruct (map_keys (players room) !! randomIndex (random2 o) (length (map_keys (players room))))
    as [g|] eqn:Hidx.
  - exists room', g. rewrite Hgs, Hps. simpl. repeat split; try done.
    apply list_elem_of_lookup. eauto.
  - apply lookup_ge_None in Hidx.
    pose proof (randomIndex_lt (random2 o) (length (map_keys (players room)))). lia.
Qed.

Lemma startGame_guilty_is_player_witness :
  ∃ room' g, getRoom (startGame "AB12" (sampleOracle 10 7) lobby) "AB12" = Some (0%nat, room') ∧
    guiltyPlayerId (gameState room') = Some g ∧ g ∈ map_keys (players room').
Proof.
  destruct (startGame_guilty_is_player "AB12" (sampleOracle 10 7) lobby 0%nat
              (default (mkRoom "" "" [] emptyGameState (mkTimers None [])) (heap lobby !! 0%nat)))
    as (room' & g & H1 & _ & H2 & H3).
  - vm_compute. reflexivity.
  - vm_compute. lia.
  - exists room', g. auto.
Defined.

(** C8 (as stated, refuted).  Two consecutive rounds of the four-player
    sample lobby in which the random generator returns the same value: the
    same player is guilty in both. *)
Lemma guilty_player_repeats :
  (length ∘ players ∘ snd <$> getRoom lobby "AB12") = Some 4%nat ∧
  guiltyOf (step lobby (Message 0 START_GAME (sampleOracle 10 0))) "AB12"
    = Some (Some "p1xxxxxxx") ∧
  phaseOf afterFirstRound "AB12" = Some WAITING ∧
  roundOf afterFirstRound "AB12" = Some 1 ∧
  guiltyOf (step afterFirstRound (Message 0 START_GAME (sampleOracle 100000 0))) "AB12"
    = Some (Some "p1xxxxxxx") ∧
  roundOf (step afterFirstRound (Message 0 START_GAME (sampleOracle 100000 0))) "AB12"
    = Some 2.
Proof. vm_compute. repeat split; reflexivity. Qed.

(** ** C7: the crime catalogue *)

(** C7 (fails on the server).  The server draws the crime from [getCrimes],
    which has three entries: the first three of the five-entry catalogue
    [CRIMES] of the client bundle.  Whatever the random generator returns, the
    draw is one of those three, so "vandalism" and "restaurant_poisoning" are
    never the crime of a server round; every one of the three can be drawn. *)
Theorem getCrimes_has_three_entries :
  length getCrimes = 3%nat ∧ length CRIMES = 5%nat ∧ getCrimes = take 3 CRIMES ∧
  (∀ rnd : RandomNumber,
     ∃ c, getCrimes !! randomIndex rnd (length getCrimes) = Some c ∧
          c ≠ vandalism ∧ c ≠ restaurant_poisoning) ∧
  (∀ c, c ∈ getCrimes →
     ∃ rnd, getCrimes !! randomIndex rnd (length getCrimes) = Some c).
Proof.
  split; [done|]. split; [done|]. split; [done|]. split.
  - intros rnd.
    pose proof (randomIndex_lt rnd (length getCrimes)) as Hlt.
    destruct (randomIndex rnd (length getCrimes)) as [|[|[|i]]]; simpl in *.
    + eexists; split; [done|]. split; discriminate.
    + eexists; split; [done|]. split; discriminate.
    + eexists; split; [done|]. split; discriminate.
    + lia.
  - intros c Hc. unfold getCrimes in Hc. rewrite !elem_of_cons in Hc.
    destruct Hc as [->|[->|[->|Hc]]].
    + by exists (mkRandom 0 2 "" "").
    + by exists (mkRandom 1 2 "" "").
    + by exists (mkRandom 2 2 "" "").
    + by apply elem_of_nil in Hc.
Qed.

(** ** C1: the guard of startGame *)

(** C1 (fails on the server).  The sample room is in INTERROGATION, in
    round 1, with one question asked.  A START_GAME message is not ignored:
    the round is thrown away, round 2 starts in SETUP with a new state, and
    each of the four players is sent a PHASE_CHANGE. *)
Theorem startGame_restarts_running_round :
  let s := interrogating in
  let s' := step s (Message 0 START_GAME (sampleOracle 40000 3)) in
  phaseOf s "AB12" = Some INTERROGATION ∧ roundOf s "AB12" = Some 1 ∧
  answersOf s "AB12" = Some [("q_35020_0.25", None)] ∧
  phaseOf s' "AB12" = Some SETUP ∧ roundOf s' "AB12" = Some 2 ∧
  answersOf s' "AB12" = Some [] ∧
  guiltyOf s "AB12" = Some (Some "p1xxxxxxx") ∧
  guiltyOf s' "AB12" = Some (Some "p2xxxxxxx") ∧
  length (outbox s') = (length (outbox s) + 4)%nat.
Proof. vm_compute. repeat split; reflexivity. Qed.

(** The guard of the client-side implementation does look at the phase. *)
Lemma GameManager_startGame_guard rndCrime rndGuilty now (m : GameManager.Manager) :
  GameManager.phase (GameManager.state m) ≠ GameManager.WAITING ∨
  (length (GameManager.players (GameManager.state m)) < 4)%nat →
  GameManager.startGame rndCrime rndGuilty now m = m.
Proof.
  intros H. unfold GameManager.startGame, GameManager.canStartGame.
  destruct H as [H|H].
  - rewrite (bool_decide_eq_false_2 _ H). by rewrite andb_false_r.
  - apply Nat.leb_gt in H. by rewrite H.
Qed.

(** What the server does guard: a room with fewer than four players, or a
    code that is not registered. *)
Lemma startGame_too_few rc o s r room :
  getRoom s rc = Some (r, room) → (length (players room) < 4)%nat → startGame rc o s = s.
Proof. intros Hg Hn. unfold startGame. rewrite Hg. apply Nat.ltb_lt in Hn. by rewrite Hn. Qed.

Lemma startGame_no_room rc o s : getRoom s rc = None → startGame rc o s = s.
Proof. intros Hg. unfold startGame. by rewrite Hg. Qed.

(** ** C9: answering a question *)

(** C9 (fails on the server).  The recipient of the sample question first
    answers with the empty string, then with a text: both calls are accepted,
    the stored answer changes and QUESTION_ANSWERED is broadcast twice. *)
Theorem answerQuestion_overwrites_empty_answer :
  let s0 := interrogating in
  let s1 := step s0 (Message 0 (ANSWER_QUESTION "q_35020_0.25" "") (sampleOracle 35030 0)) in
  let s2 := step s1 (Message 0 (ANSWER_QUESTION "q_35020_0.25" "At home.") (sampleOracle 35040 0)) in
  answersOf s0 "AB12" = Some [("q_35020_0.25", None)] ∧
  answersOf s1 "AB12" = Some [("q_35020_0.25", Some "")] ∧
  answersOf s2 "AB12" = Some [("q_35020_0.25", Some "At home.")] ∧
  length (outbox s1) = (length (outbox s0) + 4)%nat ∧
  length (outbox s2) = (length (outbox s1) + 4)%nat.
Proof. vm_compute. repeat split; reflexivity. Qed.

(** ** C5: what a snapshot shows of the crime *)

Lemma getPublicGameState_personalized room pid :
  personalized room pid (getPublicGameState room pid).
Proof.
  unfold personalized, getPublicGameState, redacted. simpl.
  destruct (decide (guiltyPlayerId (gameState room) = Some pid)) as [Hg|Hg].
  - rewrite (bool_decide_eq_true_2 _ Hg). done.
  - rewrite (bool_decide_eq_false_2 _ Hg). repeat split; try done.
Qed.

Lemma deliveries_eq s s' l m :
  clients s' = clients s → notOpen s' = notOpen s → deliveries s' l m = deliveries s l m.
Proof. intros Hc Hn. unfold deliveries. by rewrite Hc, Hn. Qed.

Lemma deliveries_core s s' l m : core s' = core s → deliveries s' l m = deliveries s l m.
Proof. intros H. apply deliveries_eq; unfold core in H; congruence. Qed.

Lemma foldl_sendToPlayer (m : string → ServerMessage) l s :
  let s' := foldl (fun s pid => sendToPlayer pid (m pid) s) s l in
  core s' = core s ∧ outbox s' = outbox s ++ deliveries s l m.
Proof.
  revert s. induction l as [|pid l IH]; intros s; simpl.
  - split; [done|]. unfold deliveries. simpl. by rewrite app_nil_r.
  - destruct (IH (sendToPlayer pid (m pid) s)) as [Hc Ho].
    rewrite sendToPlayer_core in Hc. split; [done|].
    rewrite Ho, (deliveries_core s _ l m (sendToPlayer_core pid (m pid) s)).
    unfold deliveries. simpl.
    unfold sendToPlayer. destruct (findClient pid (clients s)) as [ws|]; simpl; [|done].
    destruct (bool_decide (ws ∈ notOpen s)); simpl; [by rewrite app_nil_r|].
    by rewrite <- app_assoc.
Qed.

Lemma broadcastPhaseUpdate_outbox rc s r room :
  getRoom s rc = Some (r, room) →
  outbox (broadcastPhaseUpdate rc s) =
  outbox s ++ deliveries s (map_keys (players room))
                (fun pid => PHASE_CHANGE (getPublicGameState room pid)).
Proof.
  intros Hg. unfold broadcastPhaseUpdate. rewrite Hg.
  apply (foldl_sendToPlayer (fun pid => PHASE_CHANGE (getPublicGameState room pid))).
Qed.

Lemma broadcastToRoom_outbox rc m s r room :
  getRoom s rc = Some (r, room) →
  outbox (broadcastToRoom rc m s) =
  outbox s ++ deliveries s (map_keys (players room)) (fun _ => m).
Proof.
  intros Hg. unfold broadcastToRoom. rewrite Hg.
  apply (foldl_sendToPlayer (fun _ => m)).
Qed.

Lemma elem_of_deliveries s l m ws msg :
  (ws, msg) ∈ deliveries s l m →
  ∃ pid, pid ∈ l ∧ findClient pid (clients s) = Some ws ∧ msg = m pid.
Proof.
  unfold deliveries. rewrite list_elem_of_omap. intros (pid & Hin & Hf).
  destruct (findClient pid (clients s)) as [ws'|] eqn:E; simpl in Hf; [|done].
  destruct (bool_decide (ws' ∈ notOpen s)); [done|].
  injection Hf as <- <-. eauto.
Qed.

Lemma deliveries_open s l m ws msg : (ws, msg) ∈ deliveries s l m → ws ∉ notOpen s.
Proof.
  unfold deliveries. rewrite list_elem_of_omap. intros (pid & Hin & Hf).
  destruct (findClient pid (clients s)) as [ws'|]; simpl in Hf; [|done].
  destruct (bool_decide (ws' ∈ notOpen s)) eqn:Hb; [done|].
  injection Hf as <- <-. by apply bool_decide_eq_false in Hb.
Qed.

(** C5.  Every snapshot the server builds for a recipient hides the crime
    (location, time and the [hidden] mark only) exactly when the recipient is
    the guilty player, shows the stored crime otherwise, and raises its
    [isGuilty] flag exactly for the guilty player; and the phase broadcast
    sends to each connected room member the snapshot built for that member,
    and sends nothing else. *)
Theorem snapshot_hides_crime_from_guilty s rc r room :
  getRoom s rc = Some (r, room) →
  (∀ pid, personalized room pid (getPublicGameState room pid)) ∧
  ∃ sent, outbox (broadcastPhaseUpdate rc s) = outbox s ++ sent ∧
    ∀ ws msg, (ws, msg) ∈ sent →
      ∃ pid, pid ∈ map_keys (players room) ∧ findClient pid (clients s) = Some ws ∧
        msg = PHASE_CHANGE (getPublicGameState room pid) ∧
        personalized room pid (getPublicGameState room pid).
Proof.
  intros Hg. split; [intros pid; apply getPublicGameState_personalized|].
  eexists. split; [by apply broadcastPhaseUpdate_outbox with (r := r)|].
  intros ws msg Hin. apply elem_of_deliveries in Hin as (pid & Hpid & Hf & ->).
  exists pid. repeat split; try done; apply getPublicGameState_personalized.
Qed.

Lemma snapshot_hides_crime_from_guilty_witness :
  ∃ r room sent, getRoom interrogating "AB12" = Some (r, room) ∧
    outbox (broadcastPhaseUpdate "AB12" interrogating) = outbox interrogating ++ sent ∧
    length sent = 4%nat ∧
    personalized room "p1xxxxxxx" (getPublicGameState room "p1xxxxxxx").
Proof.
  destruct (snapshot_hides_crime_from_guilty interrogating "AB12" 0%nat
              (default (mkRoom "" "" [] emptyGameState (mkTimers None []))
                 (heap interrogating !! 0%nat))) as [Hp (sent & Hs & _)].
  - vm_compute. reflexivity.
  - eexists _, _, sent. split; [vm_compute; reflexivity|]. split; [exact Hs|].
    split; [|apply Hp].
    apply (f_equal length) in Hs. rewrite length_app in Hs.
    assert (length (outbox (broadcastPhaseUpdate "AB12" interrogating)) =
            (length (outbox interrogating) + 4)%nat) as Hl by (vm_compute; reflexivity).
    lia.
Defined.

(** ** The scoring loop *)

Lemma set_score_same p : set_score (score p + 0) p = p.
Proof. destruct p. unfold set_score. simpl. f_equal. lia. Qed.

Lemma set_score_add p a b :
  set_score (score (set_score (score p + a) p) + b) (set_score (score p + a) p)
  = set_score (score p + (a + b)) p.
Proof. unfold set_score. simpl. f_equal. lia. Qed.

(** One iteration of the loop over the votes. *)
Lemma countVote_step guilty t k v :
  let t1 := countVote guilty t (k, v) in
  map_keys (t_players t1) = map_keys (t_players t) ∧
  fooledCount t1 = fooledCount t +
    (if bool_decide (k ∈ map_keys (t_players t)) && negb (correctVote guilty v) then 1 else 0) ∧
  ∀ pid p, map_get pid (t_players t) = Some p →
    map_get pid (t_players t1) =
    Some (set_score (score p + (if decide (pid = k)
                                then (if correctVote guilty v then 100 * confidence v else 0)
                                else 0)) p).
Proof.
  unfold countVote, correctVote. simpl.
  destruct (map_get k (t_players t)) as [player|] eqn:Hk.
  - assert (Hin : k ∈ map_keys (t_players t)) by (apply map_get_is_Some; eauto).
    rewrite (bool_decide_eq_true_2 _ Hin). simpl.
    destruct (decide (Some (suspectId v) = guilty)) as [Hc|Hc]; simpl.
    + rewrite (bool_decide_eq_true_2 _ Hc). simpl.
      split; [apply map_keys_set_present; eauto|]. split; [lia|].
      intros pid p Hp. destruct (decide (pid = k)) as [->|Hne].
      * rewrite map_get_set_eq. congruence.
      * rewrite map_get_set_ne by done. by rewrite Hp, set_score_same.
    + rewrite (bool_decide_eq_false_2 _ Hc). simpl.
      split; [done|]. split; [done|].
      intros pid p Hp. rewrite Hp. by destruct (decide (pid = k)); rewrite set_score_same.
  - assert (Hin : k ∉ map_keys (t_players t)) by (by apply map_get_None).
    rewrite (bool_decide_eq_false_2 _ Hin). simpl.
    split; [done|]. split; [lia|].
    intros pid p Hp. destruct (decide (pid = k)) as [->|Hne]; [congruence|].
    by rewrite Hp, set_score_same.
Qed.

(** The whole loop, for a [Map] of votes (one entry per voter). *)
Lemma countVotes_loop guilty vs t :
  NoDup (map_keys vs) →
  let t' := foldl (countVote guilty) t vs in
  map_keys (t_players t') = map_keys (t_players t) ∧
  fooledCount t' = fooledCount t + countWrong guilty (map_keys (t_players t)) vs ∧
  ∀ pid p, map_get pid (t_players t) = Some p →
    map_get pid (t_players t') =
    Some (set_score (score p + match map_get pid vs with
                               | Some v => if correctVote guilty v then 100 * confidence v else 0
                               | None => 0
                               end) p).
Proof.
  revert t. induction vs as [|[k v] vs IH]; intros t Hnd; simpl.
  - split; [done|]. split; [lia|]. intros pid p Hp. by rewrite Hp, set_score_same.
  - unfold map_keys in Hnd. simpl in Hnd. apply NoDup_cons in Hnd as [Hk Hnd].
    destruct (countVote_step guilty t k v) as (Hkeys1 & Hf1 & Hp1).
    destruct (IH (countVote guilty t (k, v)) Hnd) as (Hkeys & Hf & Hp).
    split; [congruence|]. split.
    + rewrite Hf, Hf1, Hkeys1. lia.
    + intros pid p Hpid. rewrite (Hp pid _ (Hp1 pid p Hpid)).
      rewrite set_score_add. do 2 f_equal.
      destruct (decide (k = pid)) as [->|Hne].
      * rewrite decide_True by done.
        assert (map_get pid vs = None) as -> by (by apply map_get_None). lia.
      * rewrite decide_False by done. lia.
Qed.

Lemma awardGuilty_players guilty t pid p :
  map_get pid (t_players t) = Some p →
  map_get pid (t_players (awardGuilty guilty t)) =
  Some (set_score (score p + (if decide (guilty = Some pid) then 150 * fooledCount t else 0)) p).
Proof.
  intros Hp. unfold awardGuilty. destruct guilty as [gid|].
  - destruct (decide (gid = pid)) as [->|Hne].
    + rewrite Hp. simpl. rewrite map_get_set_eq, decide_True by done.
      do 2 f_equal. lia.
    + rewrite decide_False by congruence.
      destruct (map_get gid (t_players t)); simpl.
      * rewrite map_get_set_ne by done. by rewrite Hp, set_score_same.
      * by rewrite Hp, set_score_same.
  - rewrite decide_False by done. by rewrite Hp, set_score_same.
Qed.

Lemma awardGuilty_keys guilty t :
  map_keys (t_players (awardGuilty guilty t)) = map_keys (t_players t).
Proof.
  unfold awardGuilty. destruct guilty as [gid|]; [|done].
  destruct (map_get gid (t_players t)) eqn:E; [|done]. simpl.
  apply map_keys_set_present. eauto.
Qed.

(** The scores of a room after the scoring. *)
Lemma scoreRoom_scores room :
  NoDup (map_keys (votes (gameState room))) →
  map_keys (players (scoreRoom room)) = map_keys (players room) ∧
  fooledCount (countVotes room) = wrongVotes room ∧
  ∀ pid p, map_get pid (players room) = Some p →
    map_get pid (players (scoreRoom room)) =
    Some (set_score (score p + voteAward room pid + guiltyBonus room pid) p).
Proof.
  intros Hnd. unfold scoreRoom, countVotes.
  destruct (countVotes_loop (guiltyPlayerId (gameState room)) (votes (gameState room))
              (mkTally (players room) 0 ∅ ∅) Hnd) as (Hkeys & Hf & Hp).
  simpl in Hkeys, Hf, Hp. split; [|split].
  - simpl. by rewrite awardGuilty_keys.
  - rewrite Hf. unfold wrongVotes. lia.
  - intros pid p Hpid. simpl.
    rewrite (awardGuilty_players _ _ pid _ (Hp pid p Hpid)).
    rewrite Hf. unfold guiltyBonus, voteAward, wrongVotes, set_score. simpl.
    reflexivity.
Qed.

Lemma broadcastLeaderboard_core s : core (broadcastLeaderboard s) = core s.
Proof.
  unfold broadcastLeaderboard.
  apply (foldl_preserve (fun s' => core s' = core s)); [|done].
  intros a b Ha. exact Ha.
Qed.

Lemma addToLeaderboard_ncore name sc now s : ncore (addToLeaderboard name sc now s) = ncore s.
Proof.
  unfold addToLeaderboard.
  by rewrite (core_ncore _ _ (broadcastLeaderboard_core _)).
Qed.

Lemma submitScores_ncore now l s : ncore (foldl (submitScore now) s l) = ncore s.
Proof.
  apply (foldl_preserve (fun s' => ncore s' = ncore s)); [|done].
  intros a p Ha. unfold submitScore. destruct (0 <? score p)%Z; [|done].
  by rewrite addToLeaderboard_ncore.
Qed.

Lemma calculateResults_ncore rc now s r room :
  getRoom s rc = Some (r, room) →
  ncore (calculateResults rc now s) = ncore (storeRoom r (scoreRoom room) s).
Proof. intros Hg. unfold calculateResults. rewrite Hg. apply submitScores_ncore. Qed.

Lemma ncore_getRoom s s' rc : ncore s' = ncore s → getRoom s' rc = getRoom s rc.
Proof.
  unfold ncore, getRoom. intros H.
  by replace (rooms s') with (rooms s) by congruence;
     replace (heap s') with (heap s) by congruence.
Qed.

Lemma calculateResults_getRoom rc now s r room :
  getRoom s rc = Some (r, room) →
  getRoom (calculateResults rc now s) rc = Some (r, scoreRoom room).
Proof.
  intros Hg. rewrite (ncore_getRoom _ _ _ (calculateResults_ncore rc now s r room Hg)).
  apply getRoom_Some in Hg as [Hr Hh]. apply getRoom_Some. split; [done|].
  unfold storeRoom. simpl. by rewrite lookup_insert_eq.
Qed.

(** ** Handlers that leave the timers alone *)

Lemma core_tview s s' : core s' = core s → tview s' = tview s.
Proof. unfold core, tview. intros H. congruence. Qed.

Lemma ncore_tview s s' : ncore s' = ncore s → tview s' = tview s.
Proof. unfold ncore, tview. intros H. congruence. Qed.

Lemma tview_updRoom r f s :
  (∀ room, timers (f room) = timers room) → tview (updRoom r f s) = tview s.
Proof.
  intros Hf. unfold tview, updRoom. simpl. f_equal. f_equal. f_equal.
  apply map_eq. intros i. rewrite !lookup_fmap, lookup_alter.
  case_decide; [subst|done]. destruct (heap s !! i); simpl; [|done]. by rewrite Hf.
Qed.

Lemma tview_storeRoom r room room' s :
  heap s !! r = Some room → timers room' = timers room →
  tview (storeRoom r room' s) = tview s.
Proof.
  intros Hh Ht. unfold tview, storeRoom. simpl. f_equal. f_equal. f_equal.
  apply map_eq. intros i. rewrite !lookup_fmap, lookup_insert.
  case_decide; [subst|done]. rewrite Hh. simpl. by rewrite Ht.
Qed.

Lemma clientRoom_Some s cd rc r room :
  clientRoom s cd = Some (rc, r, room) → roomCode cd = Some rc ∧ getRoom s rc = Some (r, room).
Proof.
  unfold clientRoom. destruct (roomCode cd) as [rc'|]; simpl; [|done].
  destruct (getRoom s rc') as [[r' room']|] eqn:Hg; simpl; [|done].
  intros H. injection H as <- <- <-. done.
Qed.

Lemma tview_calculateResults rc now s : tview (calculateResults rc now s) = tview s.
Proof.
  destruct (getRoom s rc) as [[r room]|] eqn:Hg.
  - rewrite (ncore_tview _ _ (calculateResults_ncore rc now s r room Hg)).
    apply getRoom_Some in Hg as [_ Hh]. by apply tview_storeRoom with (room := room).
  - unfold calculateResults. by rewrite Hg.
Qed.

Lemma tview_joinRoom ws cd rc name s : tview (joinRoom ws cd rc name s) = tview s.
Proof.
  unfold joinRoom. destruct (getRoom s rc) as [[r room]|]; [|done].
  destruct (8 <=? length (players room))%nat; [done|].
  destruct (negb _); [done|].
  match goal with |- context [heap ?x !! r] => destruct (heap x !! r) end.
  - change (tview (send ?w ?m ?x)) with (tview x).
    rewrite (core_tview _ _ (broadcastToRoom_core _ _ _)).
    by rewrite tview_updRoom.
  - rewrite (core_tview _ _ (broadcastToRoom_core _ _ _)).
    by rewrite tview_updRoom.
Qed.

Lemma tview_submitAlibi cd alibi s : tview (submitAlibi cd alibi s) = tview s.
Proof.
  unfold submitAlibi. destruct (clientRoom s cd) as [[[rc r] room]|]; [|done].
  destruct (negb _); [done|].
  rewrite (core_tview _ _ (broadcastToRoom_core _ _ _)). by rewrite tview_updRoom.
Qed.

Lemma tview_askQuestion cd toId text o s : tview (askQuestion cd toId text o s) = tview s.
Proof.
  unfold askQuestion. destruct (clientRoom s cd) as [[[rc r] room]|]; [|done].
  destruct (negb _); [done|]. destruct (3 <=? _)%nat; [done|].
  rewrite (core_tview _ _ (broadcastToRoom_core _ _ _)). by rewrite tview_updRoom.
Qed.

Lemma tview_answerQuestion cd qid ans s : tview (answerQuestion cd qid ans s) = tview s.
Proof.
  unfold answerQuestion. destruct (clientRoom s cd) as [[[rc r] room]|]; [|done].
  destruct (findQuestion _ _); [|done]. destruct (_ || _); [done|].
  rewrite (core_tview _ _ (broadcastToRoom_core _ _ _)). by rewrite tview_updRoom.
Qed.

Lemma tview_submitVote cd suspect conf s : tview (submitVote cd suspect conf s) = tview s.
Proof.
  unfold submitVote. destruct (clientRoom s cd) as [[[rc r] room]|]; [|done].
  destruct (negb _); [done|].
  rewrite (core_tview _ _ (broadcastToRoom_core _ _ _)). by rewrite tview_updRoom.
Qed.

Lemma tview_handleDisconnect ws s : tview (handleDisconnect ws s) = tview s.
Proof.
  unfold handleDisconnect. destruct (map_get ws (clients s)) as [cd|]; [|done].
  change (tview (set_clients ?c ?x)) with (tview x).
  destruct (if bool_decide _ then None else clientRoom s cd) as [[[rc r] room]|]; [|done].
  destruct (_ =? 0)%nat.
  - change (tview (set_rooms ?c ?x)) with (tview x).
    rewrite (core_tview _ _ (broadcastToRoom_core _ _ _)). by rewrite tview_updRoom.
  - rewrite (core_tview _ _ (broadcastToRoom_core _ _ _)). by rewrite tview_updRoom.
Qed.

Lemma tview_revealEvidence r rc ev s :
  tview (broadcastToRoom rc (EVIDENCE_REVEALED ev)
           (updRoom r (upd_gameState (fun g =>
              set_currentEvidence (currentEvidence g ++ [ev]) g)) s)) = tview s.
Proof. rewrite (core_tview _ _ (broadcastToRoom_core _ _ _)). by rewrite tview_updRoom. Qed.

(** ** The timer discipline is an invariant *)

Lemma timersOk_tview s s' : tview s' = tview s → timersOk s → timersOk s'.
Proof.
  unfold tview. intros H [H1 H2].
  assert (Hh : ∀ r, timers <$> heap s' !! r = timers <$> heap s !! r).
  { intros r. rewrite <- !lookup_fmap. congruence. }
  assert (Hp : pending s' = pending s) by congruence.
  assert (Hn : nextTimer s' = nextTimer s) by congruence.
  assert (Hr : nextRoom s' = nextRoom s) by congruence.
  split.
  - intros tid t Ht. rewrite Hp in Ht. destruct (H1 tid t Ht) as (Hlt & room & Hroom & Hrec).
    split; [lia|]. specialize (Hh (owner t)). rewrite Hroom in Hh.
    destruct (heap s' !! owner t) as [room'|]; [|done]. simpl in Hh.
    exists room'. split; [done|]. congruence.
  - intros r room' Hroom'. specialize (Hh r). rewrite Hroom' in Hh.
    destruct (heap s !! r) as [room|] eqn:E; [|done]. rewrite Hr. eauto.
Qed.

Lemma older_refl s : older s s.
Proof. split; [lia | auto]. Qed.

Lemma older_trans s1 s2 s3 : older s1 s2 → older s2 s3 → older s1 s3.
Proof.
  intros [Hn1 Hp1] [Hn2 Hp2]. split; [lia|].
  intros tid t Hlt Ht. apply Hp1; [done|]. apply Hp2; [lia | done].
Qed.

Lemma older_tview s s' : tview s' = tview s → older s s'.
Proof.
  unfold tview. intros H.
  assert (Hp : pending s' = pending s) by congruence.
  assert (Hn : nextTimer s' = nextTimer s) by congruence.
  split; [lia|]. intros tid t _. by rewrite Hp.
Qed.

Lemma older_clearTimeout tid s : older s (clearTimeout tid s).
Proof.
  split; [done|]. simpl. intros tid' t _. rewrite lookup_delete_Some. by intros [_ ?].
Qed.

Lemma older_setTimeout t s : older s (setTimeout t s).2.
Proof.
  split; [simpl; lia|]. simpl. intros tid t' Hlt. rewrite lookup_insert_ne by lia. done.
Qed.

Lemma older_updRoom r f s : older s (updRoom r f s).
Proof. split; [done|]. simpl. auto. Qed.

Lemma timersOk_clearTimeout tid s : timersOk s → timersOk (clearTimeout tid s).
Proof.
  intros [H1 H2]. split; [|exact H2].
  simpl. intros tid' t. rewrite lookup_delete_Some. intros [_ Ht]. by apply H1.
Qed.

Lemma timersOk_updTimers r f s :
  timersOk s →
  (∀ room tid t, heap s !! r = Some room → pending s !! tid = Some t → owner t = r →
     recorded (timers room) tid t → recorded (timers (f room)) tid t) →
  timersOk (updRoom r f s).
Proof.
  intros [H1 H2] Hf. split.
  - simpl. intros tid t Ht. destruct (H1 tid t Ht) as (Hlt & room & Hroom & Hrec).
    split; [done|]. rewrite lookup_alter. case_decide as Hr.
    + subst r. rewrite Hroom. simpl. eexists. split; [done|]. by eapply Hf.
    + eauto.
  - simpl. intros r' room'. rewrite lookup_alter_Some.
    intros [(-> & x & Hx & _)|(_ & Hx)]; eauto.
Qed.

Lemma timersOk_arm r f t s room :
  timersOk s → heap s !! r = Some room → owner t = r →
  recorded (timers (f room)) (nextTimer s) t →
  (∀ tid t', pending s !! tid = Some t' → owner t' = r →
     recorded (timers room) tid t' → recorded (timers (f room)) tid t') →
  timersOk (updRoom r f (setTimeout t s).2).
Proof.
  intros [H1 H2] Hroom Ho Hnew Hold. split.
  - simpl. intros tid t'. rewrite lookup_insert_Some.
    intros [[<- <-]|[Hne Ht']].
    + split; [lia|]. rewrite Ho, lookup_alter_eq, Hroom. simpl. eauto.
    + destruct (H1 tid t' Ht') as (Hlt & room' & Hroom' & Hrec).
      split; [lia|]. rewrite lookup_alter. case_decide as Hr.
      * rewrite Hroom. simpl. eexists. split; [done|].
        apply Hold; [done | done |]. rewrite <- Hr in Hroom'. congruence.
      * eauto.
  - simpl. intros r' room'. rewrite lookup_alter_Some.
    intros [(-> & x & Hx & _)|(_ & Hx)]; eauto.
Qed.

Lemma foldl_clearTimeout_pending l s tid t :
  pending (foldl (fun s t => clearTimeout t s) s l) !! tid = Some t ↔
  pending s !! tid = Some t ∧ tid ∉ l.
Proof.
  revert s. induction l as [|x l IH]; intros s; simpl.
  - split; [intros ?; split; [done | apply not_elem_of_nil] | by intros [? _]].
  - rewrite IH. simpl. rewrite lookup_delete_Some, not_elem_of_cons. split.
    + intros [[Hne Ht] Hnin]. split; [done|]. split; [congruence | done].
    + intros [Ht [Hne Hnin]]. split; [|done]. split; [congruence | done].
Qed.

Lemma foldl_clearTimeout_rest l s :
  let s' := foldl (fun s t => clearTimeout t s) s l in
  heap s' = heap s ∧ nextTimer s' = nextTimer s ∧ nextRoom s' = nextRoom s.
Proof.
  apply (foldl_preserve
           (fun s' => heap s' = heap s ∧ nextTimer s' = nextTimer s ∧ nextRoom s' = nextRoom s));
    [|done].
  intros a b Ha. exact Ha.
Qed.

Lemma older_foldl_clearTimeout l s : older s (foldl (fun s t => clearTimeout t s) s l).
Proof.
  apply (foldl_preserve (fun s' => older s s')); [|apply older_refl].
  intros a b Ha. eapply older_trans; [exact Ha | apply older_clearTimeout].
Qed.

Lemma timersOk_foldl_clearTimeout l s :
  timersOk s → timersOk (foldl (fun s t => clearTimeout t s) s l).
Proof.
  apply (foldl_preserve timersOk). intros a b Ha. by apply timersOk_clearTimeout.
Qed.

(** After "Clear existing timers", no timer of the room is pending. *)
Lemma clearTimers_noneArmed r room s :
  timersOk s → heap s !! r = Some room →
  let s' := clearTimers r (timers room) s in
  timersOk s' ∧ noneArmed r s' ∧ nextTimer s' = nextTimer s ∧ older s s' ∧
  is_Some (heap s' !! r).
Proof.
  intros Hok Hroom. unfold clearTimers.
  set (s1 := match phaseTimer (timers room) with
             | Some t => clearTimeout t s
             | None => s
             end).
  assert (Hs1 : timersOk s1 ∧ heap s1 = heap s ∧ nextTimer s1 = nextTimer s ∧ older s s1 ∧
                ∀ tid t, pending s1 !! tid = Some t →
                  pending s !! tid = Some t ∧ phaseTimer (timers room) ≠ Some tid).
  { subst s1. destruct (phaseTimer (timers room)) as [pt|].
    - split; [by apply timersOk_clearTimeout|]. split; [done|]. split; [done|].
      split; [apply older_clearTimeout|]. simpl. intros tid t.
      rewrite lookup_delete_Some. intros [Hne Ht]. split; [done|]. congruence.
    - split; [done|]. split; [done|]. split; [done|]. split; [apply older_refl|]. done. }
  destruct Hs1 as (Hok1 & Hh1 & Hn1 & Hold1 & Hp1).
  set (s2 := foldl (fun s t => clearTimeout t s) s1 (evidenceTimers (timers room))).
  destruct (foldl_clearTimeout_rest (evidenceTimers (timers room)) s1) as (Hh2 & Hn2 & _).
  fold s2 in Hh2, Hn2.
  assert (Hok2 : timersOk s2) by (by apply timersOk_foldl_clearTimeout).
  assert (Hnone : noneArmed r s2).
  { intros tid t Ht Ho. apply foldl_clearTimeout_pending in Ht as [Ht Hnin].
    apply Hp1 in Ht as [Ht Hnp].
    destruct Hok as [H1 _]. destruct (H1 tid t Ht) as (_ & room' & Hroom' & Hrec).
    rewrite Ho, Hroom in Hroom'. injection Hroom' as <-.
    unfold recorded in Hrec. destruct (isPhaseTimer t); done. }
  split; [|split; [|split; [|split]]].
  - apply timersOk_updTimers; [done|]. intros room' tid t _ Ht Ho _.
    by destruct (Hnone tid t Ht).
  - intros tid t Ht. apply (Hnone tid t Ht).
  - simpl. congruence.
  - eapply older_trans; [exact Hold1|]. eapply older_trans; [apply older_foldl_clearTimeout|].
    apply older_updRoom.
  - simpl. rewrite lookup_alter_eq, Hh2, Hh1, Hroom. simpl. eauto.
Qed.

Lemma armPhaseTimer_ok r rc d s :
  timersOk s → noneArmed r s → is_Some (heap s !! r) →
  let s' := armPhaseTimer r rc d s in
  armInv (nextTimer s) r s' ∧ older s s' ∧ keeps s s' ∧
  ∀ d', truthyDuration d = Some d' →
    pending s' !! nextTimer s = Some (mkTimer r d' (CbAdvancePhase rc)) ∧
    (phaseTimer ∘ timers <$> heap s' !! r) = Some (Some (nextTimer s)).
Proof.
  intros Hok Hnone [room Hroom]. unfold armPhaseTimer.
  destruct (truthyDuration d) as [d'|].
  - cbv zeta match beta.
    change (let '(tid, s0) := setTimeout ?t s in updRoom r (set_phaseTimer (Some tid)) s0)
      with (updRoom r (set_phaseTimer (Some (nextTimer s))) (setTimeout t s).2).
    split; [split; [|split; [|split]]|split; [|split]].
    + apply timersOk_arm with (room := room); try done.
      intros tid t' Ht' Ho. by destruct (Hnone tid t' Ht').
    + unfold armedSince. simpl. intros tid t. rewrite lookup_insert_Some.
      intros [[<- _]|[_ Ht]] Ho; [done|]. by destruct (Hnone tid t Ht).
    + simpl. rewrite lookup_alter_eq, Hroom. simpl. eauto.
    + simpl. lia.
    + eapply older_trans; [apply older_setTimeout | apply older_updRoom].
    + intros tid t Ht. simpl. destruct Hok as [H1 _]. destruct (H1 tid t Ht) as [Hlt _].
      rewrite lookup_insert_ne by lia. done.
    + intros d'' [= <-]. simpl. rewrite lookup_insert_eq, lookup_alter_eq, Hroom. done.
  - split; [split; [done|split; [|split]]|split; [|split]].
    + intros tid t Ht Ho. by destruct (Hnone tid t Ht).
    + eauto.
    + lia.
    + apply older_refl.
    + by intros tid t Ht.
    + done.
Qed.

Lemma armEvidence_ok r rc n0 s ev :
  armInv n0 r s →
  let s' := armEvidence r rc s ev in
  armInv n0 r s' ∧ older s s' ∧ keeps s s' ∧
  (phaseTimer ∘ timers <$> heap s' !! r) = (phaseTimer ∘ timers <$> heap s !! r).
Proof.
  intros (Hok & Hsince & [room Hroom] & Hn0). unfold armEvidence.
  change (let '(tid, s0) := setTimeout ?t s in updRoom r ?f s0)
    with (updRoom r (fun room => set_evidenceTimers
                       (evidenceTimers (timers room) ++ [nextTimer s]) room)
            (setTimeout t s).2).
  split; [split; [|split; [|split]]|split; [|split]].
  - apply timersOk_arm with (room := room); try done.
    + unfold recorded. simpl. apply elem_of_app. right. apply list_elem_of_singleton. done.
    + intros tid t' _ _. unfold recorded. simpl. destruct (isPhaseTimer t'); [done|].
      intros Hin. apply elem_of_app. by left.
  - unfold armedSince. simpl. intros tid t. rewrite lookup_insert_Some.
    intros [[<- _]|[_ Ht]] Ho; [done|]. by apply (Hsince tid t).
  - simpl. rewrite lookup_alter_eq, Hroom. simpl. eauto.
  - simpl. lia.
  - eapply older_trans; [apply older_setTimeout | apply older_updRoom].
  - intros tid t Ht. simpl. destruct Hok as [H1 _]. destruct (H1 tid t Ht) as [Hlt _].
    rewrite lookup_insert_ne by lia. done.
  - simpl. rewrite lookup_alter_eq, Hroom. done.
Qed.

Lemma armEvidenceTimers_ok r rc ph c n0 s :
  armInv n0 r s →
  let s' := armEvidenceTimers r rc ph c s in
  armInv n0 r s' ∧ older s s' ∧ keeps s s' ∧
  (phaseTimer ∘ timers <$> heap s' !! r) = (phaseTimer ∘ timers <$> heap s !! r).
Proof.
  intros Hinv. unfold armEvidenceTimers.
  assert (Hsame : armInv n0 r s ∧ older s s ∧ keeps s s ∧
    (phaseTimer ∘ timers <$> heap s !! r) = (phaseTimer ∘ timers <$> heap s !! r))
    by (split; [done|]; split; [apply older_refl|]; split; [by intros ? ? ?|done]).
  destruct ph; try exact Hsame. destruct c as [c|]; [|exact Hsame].
  apply (foldl_preserve (fun s' => armInv n0 r s' ∧ older s s' ∧ keeps s s' ∧
    (phaseTimer ∘ timers <$> heap s' !! r) = (phaseTimer ∘ timers <$> heap s !! r)));
    [|exact Hsame].
  intros a ev (Ha & Hold & Hkeep & Hpt).
  destruct (armEvidence_ok r rc n0 a ev Ha) as (Ha' & Hold' & Hkeep' & Hpt').
  split; [done|]. split; [by eapply older_trans|]. split; [|congruence].
  intros tid t Ht. by apply Hkeep', Hkeep.
Qed.

Lemma armedSince_tview n0 r s s' : tview s' = tview s → armedSince n0 r s → armedSince n0 r s'.
Proof.
  unfold tview. intros H Hs tid t. replace (pending s') with (pending s) by congruence. apply Hs.
Qed.

Lemma noneArmed_tview r s s' : tview s' = tview s → noneArmed r s → noneArmed r s'.
Proof.
  unfold tview. intros H Hs tid t. replace (pending s') with (pending s) by congruence. apply Hs.
Qed.

(** [startPhase] and the timers: the discipline is kept, every timer of
    the room that is pending afterwards was armed by this call, and the phase
    timer it arms carries the given duration. *)
Lemma startPhase_timers rc ph d now s r room :
  timersOk s → getRoom s rc = Some (r, room) →
  let s' := startPhase rc ph d now s in
  timersOk s' ∧ armedSince (nextTimer s) r s' ∧ older s s' ∧
  ∀ d', truthyDuration d = Some d' →
    pending s' !! nextTimer s = Some (mkTimer r d' (CbAdvancePhase rc)) ∧
    (phaseTimer ∘ timers <$> heap s' !! r) = Some (Some (nextTimer s)).
Proof.
  intros Hok Hg. unfold startPhase. rewrite Hg.
  apply getRoom_Some in Hg as [Hr Hh].
  set (f := upd_gameState (fun g => set_phaseStartTime (Some now) (set_phase ph g))).
  set (s1 := updRoom r f s).
  assert (Hok1 : timersOk s1) by (apply (timersOk_tview s); [by apply tview_updRoom | done]).
  assert (Hh1 : heap s1 !! r = Some (f room)) by (subst s1; simpl; by rewrite lookup_alter_eq, Hh).
  destruct (clearTimers_noneArmed r (f room) s1 Hok1 Hh1) as (Hok2 & Hnone2 & Hn2 & Hold2 & Hsome2).
  change (timers (f room)) with (timers room) in *.
  set (s2 := clearTimers r (timers room) s1) in *.
  set (s3 := broadcastPhaseUpdate rc s2).
  assert (Htv3 : tview s3 = tview s2) by apply core_tview, broadcastPhaseUpdate_core.
  assert (Hok3 : timersOk s3) by (by apply (timersOk_tview s2)).
  assert (Hnone3 : noneArmed r s3) by (by apply (noneArmed_tview r s2)).
  assert (Hh3 : heap s3 = heap s2 ∧ nextTimer s3 = nextTimer s2)
    by (pose proof (broadcastPhaseUpdate_core rc s2) as Hc; fold s3 in Hc;
        unfold core in Hc; split; congruence).
  destruct Hh3 as [Hh3 Hn3].
  assert (Hsome3 : is_Some (heap s3 !! r)) by (by rewrite Hh3).
  destruct (armPhaseTimer_ok r rc d s3 Hok3 Hnone3 Hsome3) as (Hinv4 & Hold4 & Hkeep4 & Hpt4).
  set (s4 := armPhaseTimer r rc d s3) in *.
  destruct (armEvidenceTimers_ok r rc ph (crime (gameState room)) (nextTimer s3) s4 Hinv4)
    as ((Hok5 & Hsince5 & _ & _) & Hold5 & Hkeep5 & Hpt5).
  assert (Hn : nextTimer s3 = nextTimer s) by (rewrite Hn3, Hn2; done).
  rewrite Hn in *.
  split; [done|]. split; [done|]. split.
  - eapply older_trans; [apply (older_updRoom r f s)|].
    eapply older_trans; [exact Hold2|].
    eapply older_trans; [apply older_tview, Htv3|].
    eapply older_trans; [exact Hold4 | exact Hold5].
  - intros d' Hd. destruct (Hpt4 d' Hd) as [Hp Hslot]. split; [by apply Hkeep5|].
    by rewrite Hpt5.
Qed.

Lemma startPhase_timersOk rc ph d now s :
  timersOk s → timersOk (startPhase rc ph d now s) ∧ older s (startPhase rc ph d now s).
Proof.
  intros Hok. destruct (getRoom s rc) as [[r room]|] eqn:Hg.
  - destruct (startPhase_timers rc ph d now s r room Hok Hg) as (? & _ & ? & _). done.
  - unfold startPhase. rewrite Hg. split; [done | apply older_refl].
Qed.

Lemma advancePhase_timersOk rc now s :
  timersOk s → timersOk (advancePhase rc now s) ∧ older s (advancePhase rc now s).
Proof.
  intros Hok. unfold advancePhase.
  destruct (getRoom s rc) as [[r room]|]; [|split; [done | apply older_refl]].
  destruct (indexOf _ _) as [i|]; [|split; [done | apply older_refl]].
  set (s1 := if decide (Some i = indexOf ACCUSATIONS phaseSequence)
             then calculateResults rc now s else s).
  assert (Htv : tview s1 = tview s)
    by (subst s1; destruct (decide _); [apply tview_calculateResults | done]).
  assert (Hok1 : timersOk s1) by (by apply (timersOk_tview s)).
  destruct (i <? length phaseSequence - 1)%nat.
  - destruct (phaseSequence !! S i) as [nextPh|].
    + destruct (startPhase_timersOk rc nextPh (PHASE_DURATIONS nextPh) now s1 Hok1) as [? ?].
      split; [done|]. eapply older_trans; [by apply older_tview | done].
    + split; [done | by apply older_tview].
  - match goal with |- timersOk ?x ∧ _ =>
      assert (Htv' : tview x = tview s)
        by (rewrite (core_tview _ _ (broadcastPhaseUpdate_core _ _)), tview_updRoom by done;
            exact Htv)
    end.
    split; [by apply (timersOk_tview s) | by apply older_tview].
Qed.

Lemma startGame_timersOk rc o s :
  timersOk s → timersOk (startGame rc o s) ∧ older s (startGame rc o s).
Proof.
  intros Hok. unfold startGame.
  destruct (getRoom s rc) as [[r room]|]; [|split; [done | apply older_refl]].
  destruct (length (players room) <? 4)%nat; [split; [done | apply older_refl]|].
  match goal with |- context [startPhase rc SETUP ?d ?t (updRoom r ?f s)] =>
    assert (Hok1 : timersOk (updRoom r f s))
      by (apply (timersOk_tview s); [by apply tview_updRoom | done]);
    destruct (startPhase_timersOk rc SETUP d t _ Hok1) as [? ?]
  end.
  split; [done|]. eapply older_trans; [apply older_updRoom | done].
Qed.

Lemma createRoom_timersOk ws cd rnd s :
  timersOk s → timersOk (createRoom ws cd rnd s) ∧ older s (createRoom ws cd rnd s).
Proof.
  intros [H1 H2]. split; [split|split; [done | simpl; auto]].
  - simpl. intros tid t Ht. destruct (H1 tid t Ht) as (Hlt & room & Hroom & Hrec).
    split; [done|]. exists room. split; [|done].
    rewrite lookup_insert_ne; [done|]. apply H2 in Hroom. lia.
  - simpl. intros r room. rewrite lookup_insert_Some.
    intros [[<- _]|[_ Hroom]]; [lia|]. apply H2 in Hroom. lia.
Qed.

Lemma handleMessage_timersOk ws m o s :
  timersOk s → timersOk (handleMessage ws m o s) ∧ older s (handleMessage ws m o s).
Proof.
  intros Hok. unfold handleMessage.
  destruct (map_get ws (clients s)) as [cd|]; [|split; [done | apply older_refl]].
  destruct m.
  - by apply createRoom_timersOk.
  - split; [apply (timersOk_tview s); [apply tview_joinRoom | done]
           | apply older_tview, tview_joinRoom].
  - destruct (roomCode cd); [by apply startGame_timersOk | split; [done | apply older_refl]].
  - split; [apply (timersOk_tview s); [apply tview_submitAlibi | done]
           | apply older_tview, tview_submitAlibi].
  - split; [apply (timersOk_tview s); [apply tview_askQuestion | done]
           | apply older_tview, tview_askQuestion].
  - split; [apply (timersOk_tview s); [apply tview_answerQuestion | done]
           | apply older_tview, tview_answerQuestion].
  - split; [apply (timersOk_tview s); [apply tview_submitVote | done]
           | apply older_tview, tview_submitVote].
  - split; [done | apply older_refl].
Qed.

Lemma runCallback_timersOk cb o s :
  timersOk s → timersOk (runCallback cb o s) ∧ older s (runCallback cb o s).
Proof.
  intros Hok. destruct cb as [rc|r rc ev]; simpl.
  - by apply advancePhase_timersOk.
  - split; [apply (timersOk_tview s); [apply tview_revealEvidence | done]
           | apply older_tview, tview_revealEvidence].
Qed.

Lemma step_timersOk s e : timersOk s → timersOk (step s e) ∧ older s (step s e).
Proof.
  intros Hok. destruct e as [rnd|ws m o|ws|tid o|ws]; simpl;
    [| | | |destruct (map_get ws (clients s));
            (split; [exact Hok | by apply older_tview])].
  - split; [by apply (timersOk_tview s) | by apply older_tview].
  - by apply handleMessage_timersOk.
  - pose proof (tview_handleDisconnect ws (leaveOpen ws s)) as Htv.
    change (tview (leaveOpen ws s)) with (tview s) in Htv.
    split; [by apply (timersOk_tview s) | by apply older_tview].
  - destruct (pending s !! tid) as [t|]; [|split; [done | apply older_refl]].
    destruct (runCallback_timersOk (callback t) o (clearTimeout tid s)) as [? ?];
      [by apply timersOk_clearTimeout|].
    split; [done|]. eapply older_trans; [apply older_clearTimeout | done].
Qed.

Lemma run_timersOk evs s : timersOk s → timersOk (run evs s) ∧ older s (run evs s).
Proof.
  revert s. induction evs as [|e evs IH]; intros s Hok; simpl.
  - split; [done | apply older_refl].
  - destruct (step_timersOk s e Hok) as [Hok' Hold'].
    destruct (IH (step s e) Hok') as [? ?].
    split; [done|]. by eapply older_trans.
Qed.

Lemma initial_timersOk lb : timersOk (initial lb).
Proof. split; simpl; intros ? ?; by rewrite lookup_empty. Qed.

(** ** C4: timers of earlier phases *)

(** C4 (as stated, refuted).  The room code "AB12" is drawn a second time
    while the first room under it is in SETUP, and the new room starts a round
    too.  Before that START_GAME the room registered as "AB12" is in WAITING
    and timer 0, armed for the SETUP phase of the replaced room object, is
    pending.  The START_GAME begins SETUP in the registered room and arms
    timer 1, but does not cancel timer 0, which is not recorded in the new
    room object: two phase timers that call advancePhase with "AB12" are
    armed at the same instant, and when timer 0 fires, after the later phase
    has begun, it moves the registered room on to ALIBI_CONSTRUCTION. *)
Lemma reused_code_keeps_stale_phase_timer :
  let s0 := run (take 15 reusedCodeEvents) (initial []) in
  let s := step s0 (Message 1 START_GAME (sampleOracle 1010 0)) in
  let s' := step s (Timeout 0 (sampleOracle 5010 0)) in
  s = reusedCode ∧
  phaseOf s0 "AB12" = Some WAITING ∧
  pending s0 !! 0%nat = Some (mkTimer 0 5000 (CbAdvancePhase "AB12")) ∧
  phaseOf s "AB12" = Some SETUP ∧
  pending s !! 0%nat = Some (mkTimer 0 5000 (CbAdvancePhase "AB12")) ∧
  pending s !! 1%nat = Some (mkTimer 1 5000 (CbAdvancePhase "AB12")) ∧
  phaseOf s' "AB12" = Some ALIBI_CONSTRUCTION.
Proof. vm_compute. repeat split; reflexivity. Qed.

(** C4 (as amended).  In every state the server can reach, every pending
    timer is recorded in the [timers] of the room object it was armed for:
    the phase timer in the single [phaseTimer] slot, the evidence timers in
    the [evidenceTimers] list.  In a state with that discipline a room object
    never has two phase timers pending; and [startPhase] for a room keeps the
    discipline and cancels every timer armed for that room object: whatever
    happens afterwards, a timer armed for it that is pending (so that it may
    fire) has a handle given out by that [startPhase] or later.  Nothing is
    said of the timers armed for another room object. *)
Theorem stale_timers_are_cancelled :
  (∀ lb evs, timersOk (run evs (initial lb))) ∧
  ∀ s, timersOk s →
    (∀ tid1 t1 tid2 t2,
       pending s !! tid1 = Some t1 → pending s !! tid2 = Some t2 →
       owner t1 = owner t2 → isPhaseTimer t1 = true → isPhaseTimer t2 = true →
       tid1 = tid2) ∧
    (∀ rc ph d now r room, getRoom s rc = Some (r, room) →
       let s' := startPhase rc ph d now s in
       timersOk s' ∧
       (∀ tid t, pending s' !! tid = Some t → owner t = r → (nextTimer s ≤ tid)%nat) ∧
       (∀ evs tid t, pending (run evs s') !! tid = Some t → owner t = r →
          (nextTimer s ≤ tid)%nat)).
Proof.
  split; [intros lb evs; apply run_timersOk, initial_timersOk|].
  intros s Hok. split.
  - intros tid1 t1 tid2 t2 H1 H2 Ho Hp1 Hp2. destruct Hok as [Hrec _].
    destruct (Hrec tid1 t1 H1) as (_ & room1 & Hroom1 & Hr1).
    destruct (Hrec tid2 t2 H2) as (_ & room2 & Hroom2 & Hr2).
    unfold recorded in Hr1, Hr2. rewrite Hp1 in Hr1. rewrite Hp2 in Hr2.
    rewrite Ho in Hroom1. congruence.
  - intros rc ph d now r room Hg s'.
    destruct (startPhase_timers rc ph d now s r room Hok Hg) as (Hok' & Hsince & Hold & _).
    split; [done|]. split; [exact Hsince|].
    intros evs tid t Ht Ho.
    destruct (run_timersOk evs s' Hok') as [_ [Hn Hback]].
    destruct (decide (tid < nextTimer s')%nat) as [Hlt|Hge].
    + apply (Hsince tid t); [|done]. by apply Hback.
    + destruct Hold as [Hle _]. fold s' in Hle. lia.
Qed.

Lemma stale_timers_are_cancelled_witness :
  let s := interrogating in
  let s' := startPhase "AB12" ACCUSATIONS (PHASE_DURATIONS ACCUSATIONS) 65010 s in
  size (pending s) = 3%nat ∧ nextTimer s = 5%nat ∧
  (map_to_list (pending s')).*1 = [5%nat] ∧
  ∀ evs tid t, pending (run evs s') !! tid = Some t → owner t = 0%nat → (5 ≤ tid)%nat.
Proof.
  split; [vm_compute; reflexivity|]. split; [vm_compute; reflexivity|].
  split; [vm_compute; reflexivity|].
  destruct stale_timers_are_cancelled as [Hreach Hprop].
  destruct (Hprop interrogating (Hreach [] interrogatingEvents)) as [_ Hstart].
  destruct (Hstart "AB12" ACCUSATIONS (PHASE_DURATIONS ACCUSATIONS) 65010 0%nat
              (default (mkRoom "" "" [] emptyGameState (mkTimers None []))
                 (heap interrogating !! 0%nat))) as (_ & _ & H).
  - vm_compute. reflexivity.
  - replace (nextTimer interrogating) with 5%nat in H by (vm_compute; reflexivity).
    exact H.
Defined.

(** ** What the phase broadcast shows *)

Lemma getPublicGameState_data room room' pid :
  dataOf room' = dataOf room → getPublicGameState room' pid = getPublicGameState room pid.
Proof.
  intros H. apply dataOf_fields in H as (_ & _ & Hp & Hg).
  unfold getPublicGameState. by rewrite Hp, Hg.
Qed.

Lemma clearTimers_frame r tm s :
  let s' := clearTimers r tm s in
  outbox s' = outbox s ∧ rooms s' = rooms s ∧ clients s' = clients s ∧
  heap s' = alter (set_evidenceTimers []) r (heap s).
Proof.
  unfold clearTimers. simpl.
  set (s1 := match phaseTimer tm with Some t => clearTimeout t s | None => s end).
  assert (H1 : outbox s1 = outbox s ∧ rooms s1 = rooms s ∧ clients s1 = clients s ∧
               heap s1 = heap s) by (subst s1; by destruct (phaseTimer tm)).
  destruct H1 as (Ho & Hr & Hc & Hh). rewrite <- Ho, <- Hr, <- Hc, <- Hh.
  apply (foldl_preserve (fun s' => outbox s' = outbox s1 ∧ rooms s' = rooms s1 ∧
           clients s' = clients s1 ∧
           alter (set_evidenceTimers []) r (heap s') = alter (set_evidenceTimers []) r (heap s1)));
    [|done].
  intros a b Ha. exact Ha.
Qed.

Lemma clearTimers_notOpen r tm s : notOpen (clearTimers r tm s) = notOpen s.
Proof.
  unfold clearTimers. simpl.
  set (s1 := match phaseTimer tm with Some t => clearTimeout t s | None => s end).
  assert (H1 : notOpen s1 = notOpen s) by (subst s1; by destruct (phaseTimer tm)).
  rewrite <- H1.
  apply (foldl_preserve (fun s' => notOpen s' = notOpen s1)); [|done].
  intros a b Ha. exact Ha.
Qed.

Lemma armPhaseTimer_outbox r rc d s : outbox (armPhaseTimer r rc d s) = outbox s.
Proof. unfold armPhaseTimer. by destruct (truthyDuration d). Qed.

Lemma armEvidenceTimers_outbox r rc ph c s : outbox (armEvidenceTimers r rc ph c s) = outbox s.
Proof.
  unfold armEvidenceTimers. destruct ph; try done. destruct c as [c|]; [|done].
  apply (foldl_preserve (fun s' => outbox s' = outbox s)); [|done].
  intros a b Ha. exact Ha.
Qed.

Lemma startPhase_outbox rc ph d now s r room :
  getRoom s rc = Some (r, room) →
  outbox (startPhase rc ph d now s) =
  outbox s ++ deliveries s (map_keys (players room))
    (fun pid => PHASE_CHANGE (getPublicGameState
       (upd_gameState (fun g => set_phaseStartTime (Some now) (set_phase ph g)) room) pid)).
Proof.
  intros Hg. unfold startPhase. rewrite Hg.
  rewrite armEvidenceTimers_outbox, armPhaseTimer_outbox.
  set (f := upd_gameState (fun g => set_phaseStartTime (Some now) (set_phase ph g))).
  destruct (clearTimers_frame r (timers room) (updRoom r f s)) as (Ho & Hr & Hc & Hh).
  pose proof (clearTimers_notOpen r (timers room) (updRoom r f s)) as Hn.
  apply getRoom_Some in Hg as [Hrc Hroom].
  rewrite (broadcastPhaseUpdate_outbox rc _ r (set_evidenceTimers [] (f room))).
  - rewrite Ho. simpl. f_equal. by apply deliveries_eq.
  - apply getRoom_Some. rewrite Hr, Hh. simpl. split; [done|].
    by rewrite !lookup_alter_eq, Hroom.
Qed.

Lemma broadcastLeaderboard_outbox s :
  ∃ sent, outbox (broadcastLeaderboard s) = outbox s ++ sent ∧
    Forall (fun x => ∃ top, x.2 = LEADERBOARD_UPDATE top) sent.
Proof.
  unfold broadcastLeaderboard.
  apply (foldl_preserve (fun s' => ∃ sent, outbox s' = outbox s ++ sent ∧
           Forall (fun x => ∃ top, x.2 = LEADERBOARD_UPDATE top) sent)).
  - intros a ws (sent & Ha & Hs).
    exists (sent ++ if bool_decide (ws ∈ notOpen a) then []
                    else [(ws, LEADERBOARD_UPDATE (take 10 (leaderboard s)))]).
    simpl. rewrite Ha, app_assoc. split; [done|].
    apply Forall_app. split; [done|]. destruct (bool_decide _); [done|].
    constructor; [|done]. simpl. eauto.
  - exists []. by rewrite app_nil_r.
Qed.

Lemma calculateResults_outbox rc now s :
  ∃ sent, outbox (calculateResults rc now s) = outbox s ++ sent ∧
    Forall (fun x => ∃ top, x.2 = LEADERBOARD_UPDATE top) sent.
Proof.
  unfold calculateResults. destruct (getRoom s rc) as [[r room]|];
    [|exists []; by rewrite app_nil_r].
  change (outbox s) with (outbox (storeRoom r (scoreRoom room) s)).
  generalize (storeRoom r (scoreRoom room) s). intros s0.
  apply (foldl_preserve (fun s' => ∃ sent, outbox s' = outbox s0 ++ sent ∧
           Forall (fun x => ∃ top, x.2 = LEADERBOARD_UPDATE top) sent)).
  - intros a p (sent & Ha & Hs). unfold submitScore. destruct (0 <? score p)%Z; [|eauto].
    unfold addToLeaderboard.
    destruct (broadcastLeaderboard_outbox
                (set_leaderboard (take 100 (sortByScore (leaderboard a ++
                   [mkEntry (player_name p) (score p) now]))) a)) as (sent' & Hb & Hs').
    exists (sent ++ sent'). rewrite Hb. simpl. rewrite Ha, app_assoc. split; [done|].
    by apply Forall_app.
  - exists []. by rewrite app_nil_r.
Qed.

(** Everything [startPhase] does to a registered room, in one place. *)
Lemma startPhase_effect rc ph d now s r room :
  timersOk s → getRoom s rc = Some (r, room) →
  let s' := startPhase rc ph d now s in
  ∃ room', getRoom s' rc = Some (r, room') ∧
    players room' = players room ∧
    gameState room' = set_phaseStartTime (Some now) (set_phase ph (gameState room)) ∧
    leaderboard s' = leaderboard s ∧
    (∀ d', truthyDuration d = Some d' →
       pending s' !! nextTimer s = Some (mkTimer r d' (CbAdvancePhase rc))) ∧
    ∃ sent, outbox s' = outbox s ++ sent ∧
      ∀ ws gs, (ws, PHASE_CHANGE gs) ∈ sent → ∃ pid, gs = getPublicGameState room' pid.
Proof.
  intros Hok Hg s'.
  destruct (startPhase_room rc ph d now s r room Hg) as (room' & Hroom' & Hrooms & Hc & Hh & Hp & Hgs).
  destruct (startPhase_timers rc ph d now s r room Hok Hg) as (_ & _ & _ & Hpt).
  exists room'. split; [|split; [done|split; [done|split; [|split]]]].
  - apply getRoom_Some. split; [|done]. fold s'. subst s'. rewrite Hrooms.
    by apply getRoom_Some in Hg as [? ?].
  - pose proof (startPhase_dcore rc ph d now s r room Hg) as Hd. unfold dcore in Hd.
    injection Hd as _ _ _ Hlb _ _. exact Hlb.
  - intros d' Hd. by destruct (Hpt d' Hd).
  - eexists. split; [by apply startPhase_outbox with (r := r)|].
    intros ws gs Hin. apply elem_of_deliveries in Hin as (pid & _ & _ & Heq).
    injection Heq as ->. exists pid. symmetry. apply getPublicGameState_data.
    unfold dataOf, set_timers, upd_gameState, set_gameState. simpl.
    by rewrite Hc, Hh, Hp, Hgs.
Qed.

Lemma truthy_PHASE_DURATIONS ph d :
  PHASE_DURATIONS ph = Some d → truthyDuration (PHASE_DURATIONS ph) = Some d.
Proof. destruct ph; simpl; intros [= <-]; done. Qed.

(** ** C3: the order of the phases *)

(** C3.  In a reachable state, [advancePhase] on a registered room moves
    it to the next phase of SETUP, ALIBI_CONSTRUCTION, INTERROGATION,
    ACCUSATIONS, RESULTS, and from RESULTS to WAITING; a room in WAITING is
    left alone.  The scoring runs in the step from ACCUSATIONS to RESULTS and
    in no other: there the players and the [results] are those of the scored
    room, and they are what the RESULTS broadcast shows; in every other step
    players, [results] and leaderboard are untouched.  The step out of RESULTS
    clears [guiltyPlayerId] and arms no timer; every other step keeps it and
    arms the phase timer with the duration of the phase entered. *)
Theorem advancePhase_follows_sequence lb evs rc now r room :
  let s := run evs (initial lb) in
  getRoom s rc = Some (r, room) →
  let s' := advancePhase rc now s in
  let ph := phase (gameState room) in
  ∃ room', getRoom s' rc = Some (r, room') ∧
    phase (gameState room') = nextPhase ph ∧
    (ph = ACCUSATIONS →
       players room' = players (scoreRoom room) ∧
       results (gameState room') = results (gameState (scoreRoom room))) ∧
    (ph ≠ ACCUSATIONS →
       players room' = players room ∧
       results (gameState room') = results (gameState room) ∧
       leaderboard s' = leaderboard s) ∧
    guiltyPlayerId (gameState room') =
      (if decide (ph = RESULTS) then None else guiltyPlayerId (gameState room)) ∧
    (ph = RESULTS → pending s' = pending s) ∧
    (ph = WAITING → s' = s) ∧
    (∀ d, ph ≠ WAITING → PHASE_DURATIONS (nextPhase ph) = Some d →
       pending s' !! nextTimer s = Some (mkTimer r d (CbAdvancePhase rc))) ∧
    (ph ≠ WAITING →
       ∃ sent, outbox s' = outbox s ++ sent ∧
         ∀ ws gs, (ws, PHASE_CHANGE gs) ∈ sent → ∃ pid, gs = getPublicGameState room' pid).
Proof.
  intros s Hg s' ph.
  assert (Hok : timersOk s) by apply run_timersOk, initial_timersOk.
  assert (Hstart : ∀ s1 room1, timersOk s1 → getRoom s1 rc = Some (r, room1) →
            nextTimer s1 = nextTimer s →
            ∃ room', getRoom (startPhase rc (nextPhase ph) (PHASE_DURATIONS (nextPhase ph)) now s1) rc
                       = Some (r, room') ∧
              players room' = players room1 ∧
              gameState room' = set_phaseStartTime (Some now)
                                  (set_phase (nextPhase ph) (gameState room1)) ∧
              leaderboard (startPhase rc (nextPhase ph) (PHASE_DURATIONS (nextPhase ph)) now s1)
                = leaderboard s1 ∧
              (∀ d, PHASE_DURATIONS (nextPhase ph) = Some d →
                 pending (startPhase rc (nextPhase ph) (PHASE_DURATIONS (nextPhase ph)) now s1)
                   !! nextTimer s = Some (mkTimer r d (CbAdvancePhase rc))) ∧
              ∃ sent, outbox (startPhase rc (nextPhase ph) (PHASE_DURATIONS (nextPhase ph)) now s1)
                        = outbox s1 ++ sent ∧
                ∀ ws gs, (ws, PHASE_CHANGE gs) ∈ sent → ∃ pid, gs = getPublicGameState room' pid).
  { intros s1 room1 Hok1 Hg1 Hn1.
    destruct (startPhase_effect rc (nextPhase ph) (PHASE_DURATIONS (nextPhase ph)) now s1 r room1
                Hok1 Hg1) as (room' & H1 & H2 & H3 & H4 & H5 & H6).
    exists room'. repeat (split; [done|]). split; [|done].
    intros d Hd. rewrite <- Hn1. by apply H5, truthy_PHASE_DURATIONS. }
  assert (Hunfold : s' = advancePhase rc now s) by done.
  clearbody s'. unfold advancePhase in Hunfold. rewrite Hg in Hunfold. subst ph.
  destruct (phase (gameState room)) eqn:Hph; simpl in Hunfold.
  - (* WAITING *)
    exists room. rewrite Hunfold. repeat split; try done.
  - (* SETUP *)
    destruct (Hstart s room Hok Hg eq_refl) as (room' & H1 & H2 & H3 & H4 & H5 & H6).
    simpl in H1, H3, H4, H5, H6. rewrite <- Hunfold in H1, H4, H5, H6.
    exists room'. rewrite H3. simpl.
    split; [done|]. split; [done|]. split; [done|]. split; [done|].
    split; [done|]. split; [done|]. split; [done|].
    split; [intros d _ Hd; by apply H5|]. intros _. exact H6.
  - (* ALIBI_CONSTRUCTION *)
    destruct (Hstart s room Hok Hg eq_refl) as (room' & H1 & H2 & H3 & H4 & H5 & H6).
    simpl in H1, H3, H4, H5, H6. rewrite <- Hunfold in H1, H4, H5, H6.
    exists room'. rewrite H3. simpl.
    split; [done|]. split; [done|]. split; [done|]. split; [done|].
    split; [done|]. split; [done|]. split; [done|].
    split; [intros d _ Hd; by apply H5|]. intros _. exact H6.
  - (* INTERROGATION *)
    destruct (Hstart s room Hok Hg eq_refl) as (room' & H1 & H2 & H3 & H4 & H5 & H6).
    simpl in H1, H3, H4, H5, H6. rewrite <- Hunfold in H1, H4, H5, H6.
    exists room'. rewrite H3. simpl.
    split; [done|]. split; [done|]. split; [done|]. split; [done|].
    split; [done|]. split; [done|]. split; [done|].
    split; [intros d _ Hd; by apply H5|]. intros _. exact H6.
  - (* ACCUSATIONS *)
    pose proof (tview_calculateResults rc now s) as Htv.
    assert (Hok1 : timersOk (calculateResults rc now s)) by (by apply (timersOk_tview s)).
    assert (Hn1 : nextTimer (calculateResults rc now s) = nextTimer s)
      by (unfold tview in Htv; congruence).
    destruct (Hstart _ _ Hok1 (calculateResults_getRoom rc now s r room Hg) Hn1)
      as (room' & H1 & H2 & H3 & H4 & H5 & sent & H6 & H7).
    simpl in H1, H3, H4, H5, H6. rewrite <- Hunfold in H1, H4, H5, H6.
    exists room'. rewrite H3. simpl.
    split; [done|]. split; [done|]. split; [done|]. split; [done|].
    split; [done|]. split; [done|]. split; [done|].
    split; [intros d _ Hd; by apply H5|].
    intros _. destruct (calculateResults_outbox rc now s) as (sent0 & Hs0 & Hlb).
    exists (sent0 ++ sent). rewrite H6, Hs0, app_assoc. split; [done|].
    intros ws gs Hin. apply elem_of_app in Hin as [Hin|Hin]; [|by eapply H7].
    rewrite Forall_forall in Hlb. destruct (Hlb _ Hin) as [top Htop]. done.
  - (* RESULTS *)
    set (f := upd_gameState (fun g => set_guiltyPlayerId None (set_phase WAITING g))) in Hunfold.
    pose proof (getRoom_updRoom s rc r room f Hg) as Hg1.
    pose proof (broadcastPhaseUpdate_core rc (updRoom r f s)) as Hcore.
    rewrite <- Hunfold in Hcore.
    exists (f room). split; [by rewrite (core_getRoom _ _ _ Hcore)|].
    core_eqs Hcore. simpl.
    split; [done|]. split; [done|].
    split; [intros _; split; [done|]; split; [done|]; exact Hlb|].
    split; [done|]. split; [intros _; exact Hpending|].
    split; [done|]. split; [done|].
    intros _. eexists. split.
    + rewrite Hunfold, (broadcastPhaseUpdate_outbox rc _ r (f room) Hg1). simpl. reflexivity.
    + intros ws gs Hin. apply elem_of_deliveries in Hin as (pid & _ & _ & Heq).
      injection Heq as ->. eauto.
Qed.

Lemma advancePhase_follows_sequence_witness :
  phaseOf accusing "AB12" = Some ACCUSATIONS ∧
  phaseOf (advancePhase "AB12" 85010 accusing) "AB12" = Some RESULTS ∧
  scoresOf (advancePhase "AB12" 85010 accusing) "AB12" =
    Some [("p1xxxxxxx", 300); ("p2xxxxxxx", 200); ("p3xxxxxxx", 0); ("p4xxxxxxx", 0)] ∧
  ∃ room room', getRoom accusing "AB12" = Some (0%nat, room) ∧
    getRoom (advancePhase "AB12" 85010 accusing) "AB12" = Some (0%nat, room') ∧
    phase (gameState room') = nextPhase (phase (gameState room)) ∧
    (phase (gameState room) = ACCUSATIONS → players room' = players (scoreRoom room)).
Proof.
  split; [vm_compute; reflexivity|]. split; [vm_compute; reflexivity|].
  split; [vm_compute; reflexivity|].
  destruct (advancePhase_follows_sequence [] accusingEvents "AB12" 85010 0%nat
              (default (mkRoom "" "" [] emptyGameState (mkTimers None []))
                 (heap accusing !! 0%nat))) as (room' & H1 & H2 & H3 & _).
  - vm_compute. reflexivity.
  - eexists _, room'. split; [vm_compute; reflexivity|]. split; [exact H1|].
    split; [exact H2|]. intros H. by destruct (H3 H).
Defined.

(** ** Player records and vote maps: an invariant of the server state *)

Lemma Inv_send ws m s : msgClean m → Inv s → Inv (send ws m s).
Proof.
  intros Hm [H1 H2]. split; [exact H1|]. simpl. apply Forall_app. split; [done|].
  destruct (bool_decide _); [done|]. by constructor.
Qed.

Lemma Inv_sendToPlayer pid m s : msgClean m → Inv s → Inv (sendToPlayer pid m s).
Proof.
  intros Hm Hs. unfold sendToPlayer. destruct (findClient pid (clients s)); [|done].
  by apply Inv_send.
Qed.

Lemma Inv_broadcastToRoom rc m s : msgClean m → Inv s → Inv (broadcastToRoom rc m s).
Proof.
  intros Hm Hs. unfold broadcastToRoom. destruct (getRoom s rc) as [[r room]|]; [|done].
  apply (foldl_preserve Inv); [|done]. intros a b Ha. by apply Inv_sendToPlayer.
Qed.

Lemma Inv_broadcastPhaseUpdate rc s : Inv s → Inv (broadcastPhaseUpdate rc s).
Proof.
  intros Hs. unfold broadcastPhaseUpdate. destruct (getRoom s rc) as [[r room]|] eqn:Hg; [|done].
  apply getRoom_Some in Hg as [_ Hroom]. destruct Hs as [H1 H2].
  destruct (H1 r room Hroom) as [Hclean _].
  apply (foldl_preserve Inv); [|done]. intros a b Ha. by apply Inv_sendToPlayer.
Qed.

Lemma Inv_updRoom r f s :
  (∀ room, roomInv room → roomInv (f room)) → Inv s → Inv (updRoom r f s).
Proof.
  intros Hf [H1 H2]. split; [|exact H2]. simpl. intros r' room'.
  rewrite lookup_alter_Some. intros [(-> & x & Hx & ->)|(_ & Hx)]; eauto.
Qed.

Lemma Inv_updRoom_players r f s :
  (∀ room, players (f room) = players room ∧
           votes (gameState (f room)) = votes (gameState room)) →
  Inv s → Inv (updRoom r f s).
Proof.
  intros Hf. apply Inv_updRoom. intros room. unfold roomInv.
  destruct (Hf room) as [-> ->]. done.
Qed.

Lemma Inv_storeRoom r room s : roomInv room → Inv s → Inv (storeRoom r room s).
Proof.
  intros Hr [H1 H2]. split; [|exact H2]. simpl. intros r' room'.
  rewrite lookup_insert_Some. intros [[_ <-]|[_ Hx]]; eauto.
Qed.

Lemma Inv_broadcastLeaderboard s : Inv s → Inv (broadcastLeaderboard s).
Proof.
  intros Hs. unfold broadcastLeaderboard. apply (foldl_preserve Inv); [|done].
  intros a b Ha. by apply Inv_send.
Qed.

Lemma innocent_set_score n p : innocent p → innocent (set_score n p).
Proof. done. Qed.

Lemma countVote_clean guilty t e :
  Forall innocent (map_values (t_players t)) →
  Forall innocent (map_values (t_players (countVote guilty t e))).
Proof.
  intros Ht. unfold countVote. destruct (map_get e.1 (t_players t)) as [p|] eqn:Hp; [|done].
  destruct (decide _); [|done]. simpl.
  apply map_values_set_Forall; [|done]. apply innocent_set_score.
  by eapply map_get_Forall.
Qed.

Lemma scoreRoom_inv room : roomInv room → roomInv (scoreRoom room).
Proof.
  intros [Hr Hv]. unfold roomInv, scoreRoom. simpl. split; [|exact Hv].
  assert (Hc : Forall innocent (map_values (t_players (countVotes room)))).
  { unfold countVotes.
    apply (foldl_preserve (fun t => Forall innocent (map_values (t_players t)))); [|done].
    intros a b Ha. by apply countVote_clean. }
  unfold awardGuilty. destruct (guiltyPlayerId (gameState room)) as [gid|]; [|done].
  destruct (map_get gid (t_players (countVotes room))) as [gp|] eqn:Hgp; [|done]. simpl.
  apply map_values_set_Forall; [|done]. apply innocent_set_score.
  by eapply map_get_Forall.
Qed.

Lemma Inv_calculateResults rc now s : Inv s → Inv (calculateResults rc now s).
Proof.
  intros Hs. unfold calculateResults. destruct (getRoom s rc) as [[r room]|] eqn:Hg; [|done].
  apply getRoom_Some in Hg as [_ Hroom].
  apply (foldl_preserve Inv).
  - intros a p Ha. unfold submitScore. destruct (0 <? score p)%Z; [|done].
    unfold addToLeaderboard. by apply Inv_broadcastLeaderboard.
  - apply Inv_storeRoom; [|done]. apply scoreRoom_inv. destruct Hs as [H1 _]. eauto.
Qed.

Lemma Inv_clearTimers r tm s : Inv s → Inv (clearTimers r tm s).
Proof.
  intros Hs. unfold clearTimers. apply Inv_updRoom_players; [done|].
  apply (foldl_preserve Inv); [intros a b Ha; exact Ha|].
  by destruct (phaseTimer tm).
Qed.

Lemma Inv_armPhaseTimer r rc d s : Inv s → Inv (armPhaseTimer r rc d s).
Proof.
  intros Hs. unfold armPhaseTimer. destruct (truthyDuration d); [|done].
  simpl. by apply Inv_updRoom_players.
Qed.

Lemma Inv_armEvidenceTimers r rc ph c s : Inv s → Inv (armEvidenceTimers r rc ph c s).
Proof.
  intros Hs. unfold armEvidenceTimers. destruct ph; try done. destruct c as [c|]; [|done].
  apply (foldl_preserve Inv); [|done]. intros a ev Ha. unfold armEvidence. simpl.
  by apply Inv_updRoom_players.
Qed.

Lemma Inv_startPhase rc ph d now s : Inv s → Inv (startPhase rc ph d now s).
Proof.
  intros Hs. unfold startPhase. destruct (getRoom s rc) as [[r room]|]; [|done].
  apply Inv_armEvidenceTimers, Inv_armPhaseTimer, Inv_broadcastPhaseUpdate,
    Inv_clearTimers.
  by apply Inv_updRoom_players.
Qed.

Lemma Inv_advancePhase rc now s : Inv s → Inv (advancePhase rc now s).
Proof.
  intros Hs. unfold advancePhase. destruct (getRoom s rc) as [[r room]|]; [|done].
  destruct (indexOf _ _) as [i|]; [|done].
  assert (Hs1 : Inv (if decide (Some i = indexOf ACCUSATIONS phaseSequence)
                       then calculateResults rc now s else s))
    by (destruct (decide _); [by apply Inv_calculateResults | done]).
  destruct (i <? length phaseSequence - 1)%nat.
  - destruct (phaseSequence !! S i); [by apply Inv_startPhase | done].
  - apply Inv_broadcastPhaseUpdate. by apply Inv_updRoom_players.
Qed.

Lemma Inv_startGame rc o s : Inv s → Inv (startGame rc o s).
Proof.
  intros Hs. unfold startGame. destruct (getRoom s rc) as [[r room]|]; [|done].
  destruct (length (players room) <? 4)%nat; [done|].
  apply Inv_startPhase. apply Inv_updRoom; [|done].
  intros room0 [Hp _]. split; [exact Hp | constructor].
Qed.

Lemma Inv_createRoom ws cd rnd s : Inv s → Inv (createRoom ws cd rnd s).
Proof.
  intros [H1 H2]. unfold createRoom. apply Inv_send; [done|].
  split; [|exact H2]. simpl. intros r room. rewrite lookup_insert_Some.
  intros [[_ <-]|[_ Hx]]; [|eauto]. unfold roomInv. simpl. split; constructor.
Qed.

Lemma Inv_joinRoom ws cd rc name s : Inv s → Inv (joinRoom ws cd rc name s).
Proof.
  intros Hs. unfold joinRoom. destruct (getRoom s rc) as [[r room]|]; [|by apply Inv_send].
  destruct (8 <=? length (players room))%nat; [by apply Inv_send|].
  destruct (negb _); [by apply Inv_send|].
  match goal with |- context [heap ?x !! r] =>
    assert (Hx : Inv x); [|destruct (heap x !! r) as [room'|] eqn:Hroom'; [|exact Hx]]
  end.
  - apply Inv_broadcastToRoom; [done|].
    apply Inv_updRoom.
    + intros room0 [H0 Hv]. unfold roomInv. simpl. split; [|exact Hv].
      by apply map_values_set_Forall.
    + destruct Hs as [H1 H2]. by split.
  - destruct Hx as [H1 H2]. destruct (H1 r room' Hroom') as [Hc _].
    apply Inv_send; [|by split]. simpl. done.
Qed.

Lemma Inv_handleDisconnect ws s : Inv s → Inv (handleDisconnect ws s).
Proof.
  intros Hs. unfold handleDisconnect. destruct (map_get ws (clients s)) as [cd|]; [|done].
  match goal with |- Inv (set_clients ?c ?x) =>
    assert (Hx : Inv x); [|destruct Hx as [H1 H2]; by split]
  end.
  destruct (if bool_decide _ then None else clientRoom s cd) as [[[rc r] room]|] eqn:Hcr;
    [|done].
  assert (Hr : roomInv room).
  { destruct (bool_decide _); [done|].
    apply clientRoom_Some in Hcr as [_ Hg]. apply getRoom_Some in Hg as [_ Hroom].
    destruct Hs as [H1 _]. eauto. }
  match goal with |- Inv (if _ then set_rooms ?c ?x else ?x) =>
    assert (Hx : Inv x); [|destruct (_ =? _)%nat; [destruct Hx as [H1 H2]; by split | done]]
  end.
  apply Inv_broadcastToRoom; [done|]. apply Inv_updRoom; [|done].
  intros room0 [H0 Hv]. unfold roomInv. simpl. split; [|exact Hv].
  destruct Hr as [Hr _]. by apply map_values_delete_Forall.
Qed.

Lemma Inv_submitAlibi cd alibi s : Inv s → Inv (submitAlibi cd alibi s).
Proof.
  intros Hs. unfold submitAlibi. destruct (clientRoom s cd) as [[[rc r] room]|]; [|done].
  destruct (negb _); [done|].
  apply Inv_broadcastToRoom; [done|]. by apply Inv_updRoom_players.
Qed.

Lemma Inv_askQuestion cd toId text o s : Inv s → Inv (askQuestion cd toId text o s).
Proof.
  intros Hs. unfold askQuestion. destruct (clientRoom s cd) as [[[rc r] room]|]; [|done].
  destruct (negb _); [done|]. destruct (3 <=? _)%nat; [done|].
  apply Inv_broadcastToRoom; [done|]. by apply Inv_updRoom_players.
Qed.

Lemma Inv_answerQuestion cd qid ans s : Inv s → Inv (answerQuestion cd qid ans s).
Proof.
  intros Hs. unfold answerQuestion. destruct (clientRoom s cd) as [[[rc r] room]|]; [|done].
  destruct (findQuestion _ _); [|done]. destruct (_ || _); [done|].
  apply Inv_broadcastToRoom; [done|]. by apply Inv_updRoom_players.
Qed.

Lemma Inv_submitVote cd suspect conf s : Inv s → Inv (submitVote cd suspect conf s).
Proof.
  intros Hs. unfold submitVote. destruct (clientRoom s cd) as [[[rc r] room]|]; [|done].
  destruct (negb _); [done|].
  apply Inv_broadcastToRoom; [done|]. apply Inv_updRoom; [|done].
  intros room0 [Hp Hv]. split; [exact Hp|]. simpl. by apply map_set_NoDup.
Qed.

Lemma Inv_connection rnd s : Inv s → Inv (connection rnd s).
Proof. intros [H1 H2]. unfold connection. apply Inv_send; [done|]. by split. Qed.

Lemma Inv_handleMessage ws m o s : Inv s → Inv (handleMessage ws m o s).
Proof.
  intros Hs. unfold handleMessage. destruct (map_get ws (clients s)) as [cd|]; [|done].
  destruct m.
  - by apply Inv_createRoom.
  - by apply Inv_joinRoom.
  - destruct (roomCode cd); [by apply Inv_startGame | done].
  - by apply Inv_submitAlibi.
  - by apply Inv_askQuestion.
  - by apply Inv_answerQuestion.
  - by apply Inv_submitVote.
  - done.
Qed.

Lemma Inv_step s e : Inv s → Inv (step s e).
Proof.
  intros Hs. destruct e as [rnd|ws m o|ws|tid o|ws]; simpl;
    [| | | |destruct (map_get ws (clients s)); exact Hs].
  - by apply Inv_connection.
  - by apply Inv_handleMessage.
  - by apply Inv_handleDisconnect.
  - destruct (pending s !! tid) as [t|]; [|done].
    assert (Hc : Inv (clearTimeout tid s)) by (destruct Hs; by split).
    destruct (callback t) as [rc|r rc ev]; simpl.
    + by apply Inv_advancePhase.
    + apply Inv_broadcastToRoom; [done|]. by apply Inv_updRoom_players.
Qed.

Lemma Inv_run evs s : Inv s → Inv (run evs s).
Proof. revert s. induction evs as [|e evs IH]; intros s Hs; simpl; [done|]. by apply IH, Inv_step. Qed.

Lemma Inv_initial lb : Inv (initial lb).
Proof. split; simpl; [intros ? ?; by rewrite lookup_empty | constructor]. Qed.

(** ** C2: scoring *)

(** C2.  In every reachable state, after the scoring of a room the score of
    every player of the room has grown by exactly the award for the vote they
    cast (100 times the wager if the vote names the guilty player, nothing
    for a wrong vote and nothing for no vote) plus, for the guilty player
    only, 150 times [fooledCount]; and [fooledCount] is the number of votes,
    cast by players of the room, that name someone else: a player who cast no
    vote does not count.  No player is added or removed. *)
Theorem scoring_awards lb evs rc now r room :
  let s := run evs (initial lb) in
  getRoom s rc = Some (r, room) →
  ∃ room', getRoom (calculateResults rc now s) rc = Some (r, room') ∧
    map_keys (players room') = map_keys (players room) ∧
    fooledCount (countVotes room) = wrongVotes room ∧
    ∀ pid p, map_get pid (players room) = Some p →
      ∃ p', map_get pid (players room') = Some p' ∧
        score p' = score p + voteAward room pid + guiltyBonus room pid.
Proof.
  intros s Hg. exists (scoreRoom room).
  assert (Hnd : NoDup (map_keys (votes (gameState room)))).
  { destruct (Inv_run evs (initial lb) (Inv_initial lb)) as [H1 _].
    apply getRoom_Some in Hg as [_ Hroom]. by destruct (H1 r room Hroom). }
  destruct (scoreRoom_scores room Hnd) as (Hkeys & Hf & Hp).
  split; [by apply calculateResults_getRoom|]. split; [done|]. split; [done|].
  intros pid p Hpid. eexists. split; [by apply Hp|]. done.
Qed.

Lemma scoring_awards_witness :
  scoresOf accusing "AB12" =
    Some [("p1xxxxxxx", 0); ("p2xxxxxxx", 0); ("p3xxxxxxx", 0); ("p4xxxxxxx", 0)] ∧
  scoresOf (calculateResults "AB12" 85010 accusing) "AB12" =
    Some [("p1xxxxxxx", 300); ("p2xxxxxxx", 200); ("p3xxxxxxx", 0); ("p4xxxxxxx", 0)] ∧
  ∃ room room', getRoom accusing "AB12" = Some (0%nat, room) ∧
    getRoom (calculateResults "AB12" 85010 accusing) "AB12" = Some (0%nat, room') ∧
    fooledCount (countVotes room) = 2 ∧
    ∀ pid p, map_get pid (players room) = Some p →
      ∃ p', map_get pid (players room') = Some p' ∧
        score p' = score p + voteAward room pid + guiltyBonus room pid.
Proof.
  split; [vm_compute; reflexivity|]. split; [vm_compute; reflexivity|].
  destruct (scoring_awards [] accusingEvents "AB12" 85010 0%nat
              (default (mkRoom "" "" [] emptyGameState (mkTimers None []))
                 (heap accusing !! 0%nat))) as (room' & H1 & _ & H2 & H3).
  - vm_compute. reflexivity.
  - eexists _, room'. split; [vm_compute; reflexivity|]. split; [exact H1|].
    split; [vm_compute; reflexivity|]. exact H3.
Defined.

(** ** C10: the isGuilty field of player records *)

Lemma guiltySnapshot_found (l : list (nat * ServerMessage)) :
  existsb guiltySnapshot l = true →
  ∃ ws gs, (ws, PHASE_CHANGE gs) ∈ l ∧
    pub_isGuilty gs = true ∧ pub_players gs ≠ [] ∧
    Forall (fun p => isGuilty p = false) (pub_players gs).
Proof.
  induction l as [|[ws m] l IH]; simpl; [done|].
  destruct (guiltySnapshot (ws, m)) eqn:Hm; simpl.
  - intros _. unfold guiltySnapshot in Hm. simpl in Hm. destruct m; try discriminate.
    apply andb_prop in Hm as [Hm Hall]. apply andb_prop in Hm as [Hg Hne].
    exists ws, gs. split; [left|]. split; [done|]. split.
    + intros Hnil. rewrite Hnil in Hne. discriminate.
    + apply Forall_forall. intros p Hp. rewrite forallb_forall in Hall.
      apply list_elem_of_In in Hp. specialize (Hall p Hp). by destruct (isGuilty p).
  - intros H. destruct (IH H) as (ws' & gs & Hin & Hrest).
    exists ws', gs. split; [by right | done].
Qed.

(** C10.  In every state the server can reach, every player record of
    every room object has [isGuilty] false, and so has every player record in
    every message sent so far: the players of a PLAYER_JOINED, of a
    ROOM_JOINED and of the snapshots in ROOM_JOINED and PHASE_CHANGE.  That
    holds also of a snapshot whose own [isGuilty] flag is raised: the run
    that leads to the sample interrogation has sent one. *)
Theorem isGuilty_field_stays_false :
  (∀ lb evs,
     let s := run evs (initial lb) in
     (∀ r room pid p, heap s !! r = Some room → map_get pid (players room) = Some p →
        isGuilty p = false) ∧
     (∀ ws m, (ws, m) ∈ outbox s → msgClean m) ∧
     (∀ ws gs p, (ws, PHASE_CHANGE gs) ∈ outbox s → p ∈ pub_players gs → isGuilty p = false)) ∧
  ∃ ws gs, (ws, PHASE_CHANGE gs) ∈ outbox interrogating ∧
    pub_isGuilty gs = true ∧ pub_players gs ≠ [] ∧
    Forall (fun p => isGuilty p = false) (pub_players gs).
Proof.
  split.
  - intros lb evs s.
    assert (Hc : Inv s) by apply Inv_run, Inv_initial.
    destruct Hc as [H1 H2]. rewrite Forall_forall in H2.
    split; [|split].
    + intros r room pid p Hroom Hp. apply (map_get_Forall innocent pid p (players room)); [|done].
      by destruct (H1 r room Hroom).
    + intros ws m Hin. apply (H2 _ Hin).
    + intros ws gs p Hin Hp. pose proof (H2 _ Hin) as Hm. simpl in Hm.
      rewrite Forall_forall in Hm. by apply Hm.
  - apply guiltySnapshot_found. vm_compute. reflexivity.
Qed.

(** ** C6: creating a room *)

(** C6 (as stated, refuted).  A second CREATE_ROOM whose random draw renders
    like the first one gets the code "AB12" again, although a room with four
    players is registered under it: the code is not unique among the
    registered rooms, nothing is retried, the registry still has one entry
    and it now leads to the new, empty room. *)
Lemma createRoom_reuses_code :
  let s' := step lobby (Message 1 CREATE_ROOM (sampleOracle 50 0)) in
  rooms lobby !! "AB12" = Some 0%nat ∧
  (length ∘ players <$> heap lobby !! 0%nat) = Some 4%nat ∧
  generateRoomCode (random1 (sampleOracle 50 0)) = "AB12" ∧
  rooms s' !! "AB12" = Some 1%nat ∧ size (rooms s') = 1%nat ∧
  (players <$> heap s' !! 1%nat) = Some [].
Proof. vm_compute. repeat split; reflexivity. Qed.

(** C6 (as amended).  In a reachable state, [createRoom] takes the code from
    one random draw, without looking at the registry and without a retry.  It
    allocates a new room object (phase WAITING, no players, empty round
    state, no timers), stores it in the registry under that code, whatever
    was registered there, and replies ROOM_CREATED to the creator if its
    socket is open; clients, leaderboard, timers, socket states and all
    other room objects and registry entries stay as they were. *)
Theorem createRoom_registers_new_room lb evs ws clientData rnd :
  let s := run evs (initial lb) in
  let s' := createRoom ws clientData rnd s in
  let rc := generateRoomCode rnd in
  let room := mkRoom rc (playerId clientData) []
                (mkGameState WAITING None None [] [] [] [] None 0 None) (mkTimers None []) in
  heap s !! nextRoom s = None ∧
  rooms s' = <[rc := nextRoom s]> (rooms s) ∧
  heap s' = <[nextRoom s := room]> (heap s) ∧
  clients s' = clients s ∧ leaderboard s' = leaderboard s ∧
  pending s' = pending s ∧ nextTimer s' = nextTimer s ∧
  notOpen s' = notOpen s ∧
  outbox s' = outbox s ++ (if bool_decide (ws ∈ notOpen s) then []
                           else [(ws, ROOM_CREATED rc)]).
Proof.
  intros s s' rc room.
  split.
  - destruct (run_timersOk evs (initial lb) (initial_timersOk lb)) as [[_ Hheap] _].
    fold s in Hheap. destruct (heap s !! nextRoom s) as [x|] eqn:E; [|done].
    apply Hheap in E. lia.
  - repeat split.
Qed.

(** A consequence of reusing a code.  The first room object (reference 0)
    is no longer registered but its SETUP timer, handle 0, is still pending,
    next to timer 1 of the new room (reference 1).  Each room object has its
    one phase timer; when timer 0 fires, its callback looks the code up and
    advances the new room, four seconds before that room's own timer was
    due. *)
Lemma timer_of_replaced_room_advances_new_room :
  let s := reusedCode in
  let s' := step s (Timeout 0 (sampleOracle 5010 0)) in
  rooms s !! "AB12" = Some 1%nat ∧
  (owner <$> pending s !! 0%nat) = Some 0%nat ∧
  (owner <$> pending s !! 1%nat) = Some 1%nat ∧
  size (pending s) = 2%nat ∧
  phaseOf s "AB12" = Some SETUP ∧
  phaseOf s' "AB12" = Some ALIBI_CONSTRUCTION ∧
  (phase ∘ gameState <$> heap s' !! 0%nat) = Some SETUP ∧
  (owner <$> pending s' !! 2%nat) = Some 1%nat ∧
  size (pending s') = 1%nat.
Proof. vm_compute. repeat split; reflexivity. Qed.

(** ** C9, the working case: a non-empty answer is final *)

Lemma findQuestion_answerFound qid ans qs q :
  findQuestion qid qs = Some q →
  findQuestion qid (answerFound qid ans qs) = Some (set_answer (Some ans) q).
Proof.
  induction qs as [|q0 qs IH]; simpl; [done|].
  destruct (decide (q_id q0 = qid)) as [Hq|Hq]; simpl.
  - intros [= <-]. by rewrite decide_True.
  - intros H. rewrite decide_False by done. by apply IH.
Qed.

(** Once a call of [answerQuestion] has stored a non-empty answer, a second
    call by the same client for the same question changes nothing. *)
Lemma answerQuestion_nonempty_once cd qid a1 a2 s rc r room q :
  clientRoom s cd = Some (rc, r, room) →
  findQuestion qid (questions (gameState room)) = Some q →
  q_to q = playerId cd → truthyAnswer (answer q) = false → a1 ≠ "" →
  let s1 := answerQuestion cd qid a1 s in
  (answersOf s1 rc = Some (map (fun q => (q_id q, answer q))
                         (answerFound qid a1 (questions (gameState room))))) ∧
  answerQuestion cd qid a2 s1 = s1.
Proof.
  intros Hcr Hq Hto Hans Ha1 s1.
  assert (Hs1 : s1 = broadcastToRoom rc (QUESTION_ANSWERED qid a1)
                       (updRoom r (upd_gameState (fun g =>
                          set_questions (answerFound qid a1 (questions g)) g)) s)).
  { subst s1. unfold answerQuestion. rewrite Hcr, Hq.
    rewrite (bool_decide_eq_true_2 _ Hto), Hans. done. }
  clearbody s1.
  apply clientRoom_Some in Hcr as [Hrc Hg].
  set (f := upd_gameState (fun g => set_questions (answerFound qid a1 (questions g)) g)) in Hs1.
  assert (Hg1 : getRoom s1 rc = Some (r, f room)).
  { rewrite Hs1, (core_getRoom _ _ _ (broadcastToRoom_core _ _ _)). by apply getRoom_updRoom. }
  split.
  - unfold answersOf. by rewrite Hg1.
  - unfold answerQuestion, clientRoom. rewrite Hrc. simpl. rewrite Hg1. simpl.
    rewrite (findQuestion_answerFound qid a1 _ q Hq). simpl.
    rewrite (bool_decide_eq_true_2 _ Hto), (bool_decide_eq_false_2 _ Ha1). done.
Qed.

(** * Further properties of the server *)

(** ** Well-formed rooms are kept well-formed *)

Lemma roomOk_data room room' : dataOf room' = dataOf room → roomOk room → roomOk room'.
Proof.
  intros H [H1 H2 H3 H4 H5 H6 H7 H8 H9]. apply dataOf_fields in H as (_ & _ & Hp & Hg).
  split; rewrite ?Hp, ?Hg; done.
Qed.

Lemma Ok_dview s s' : dview s' = dview s → Ok s → Ok s'.
Proof.
  intros Hd Hok r room' Hroom'.
  pose proof (dview_lookup s' r room' Hroom') as Hl. rewrite Hd in Hl.
  apply dview_lookup_inv in Hl as (room & Hroom & Hdata).
  apply (roomOk_data room); [done|]. by apply (Hok r).
Qed.

Lemma core_dview s s' : core s' = core s → dview s' = dview s.
Proof. unfold core, dview. intros H. congruence. Qed.

Lemma ncore_dview s s' : ncore s' = ncore s → dview s' = dview s.
Proof. unfold ncore, dview. intros H. congruence. Qed.

Lemma Ok_updRoom r f s :
  (∀ room, heap s !! r = Some room → roomOk room → roomOk (f room)) → Ok s → Ok (updRoom r f s).
Proof.
  intros Hf Hok r' room'. simpl. rewrite lookup_alter_Some.
  intros [(-> & x & Hx & ->)|(_ & Hx)]; [|by apply (Hok r')].
  apply Hf; [done|]. by apply (Hok r').
Qed.

Lemma Ok_storeRoom r room s : roomOk room → Ok s → Ok (storeRoom r room s).
Proof.
  intros Hr Hok r' room'. simpl. rewrite lookup_insert_Some.
  intros [[_ <-]|[_ Hx]]; [done|]. by apply (Hok r').
Qed.

Section JsMapMore.
Context {K : Type} `{EqDecision K} {V : Type}.
Implicit Types (m : list (K * V)) (k : K) (v : V).

Lemma map_set_Forall (Q : K * V → Prop) k v m :
  Q (k, v) → Forall Q m → Forall Q (map_set k v m).
Proof.
  intros Hv. induction m as [|[k0 v0] m IH]; simpl; intros Hm.
  - by constructor.
  - inversion Hm; subst. destruct (decide (k0 = k)); constructor; auto.
Qed.

Lemma map_get_Forall_pair (Q : K * V → Prop) k v m :
  Forall Q m → map_get k m = Some v → Q (k, v).
Proof.
  intros Hm Hk. apply map_get_Some_elem in Hk. rewrite Forall_forall in Hm. by apply Hm.
Qed.

Lemma length_map_set k v m : (length (map_set k v m) ≤ S (length m))%nat.
Proof.
  induction m as [|[k0 v0] m IH]; simpl; [lia|].
  destruct (decide (k0 = k)); simpl; lia.
Qed.

Lemma map_set_absent k v m : map_get k m = None → map_set k v m = m ++ [(k, v)].
Proof.
  induction m as [|[k0 v0] m IH]; simpl; [done|].
  destruct (decide (k0 = k)); [done|]. intros Hm. by rewrite IH.
Qed.

Lemma map_set_set k v1 v2 m : map_set k v2 (map_set k v1 m) = map_set k v2 m.
Proof.
  induction m as [|[k0 v0] m IH]; simpl.
  - by rewrite decide_True.
  - destruct (decide (k0 = k)) as [->|Hk]; simpl.
    + by rewrite decide_True.
    + rewrite decide_False by done. by rewrite IH.
Qed.

Lemma length_map_delete k m : (length (map_delete k m) ≤ length m)%nat.
Proof.
  induction m as [|[k0 v0] m IH]; simpl; [lia|].
  destruct (decide (k0 = k)); simpl; lia.
Qed.

Lemma map_delete_Forall (Q : K * V → Prop) k m : Forall Q m → Forall Q (map_delete k m).
Proof.
  induction m as [|[k0 v0] m IH]; simpl; intros Hm; [done|].
  inversion Hm; subst. destruct (decide (k0 = k)); [done|]. constructor; auto.
Qed.

Lemma elem_of_map_keys_delete x k m : x ∈ map_keys (map_delete k m) → x ∈ map_keys m.
Proof.
  unfold map_keys. induction m as [|[k0 v0] m IH]; simpl; [done|].
  destruct (decide (k0 = k)); simpl; rewrite ?elem_of_cons; [by right|].
  intros [?|?]; [by left | right; by apply IH].
Qed.

Lemma map_delete_NoDup k m : NoDup (map_keys m) → NoDup (map_keys (map_delete k m)).
Proof.
  induction m as [|[k0 v0] m IH]; simpl; [done|].
  intros Hnd. change (NoDup (k0 :: map_keys m)) in Hnd.
  apply NoDup_cons in Hnd as [Hk0 Hnd].
  destruct (decide (k0 = k)); [done|].
  change (NoDup (k0 :: map_keys (map_delete k m))). apply NoDup_cons. split; [|by apply IH].
  intros Hin. by apply elem_of_map_keys_delete in Hin.
Qed.

Lemma map_get_delete_eq k m : NoDup (map_keys m) → map_get k (map_delete k m) = None.
Proof.
  induction m as [|[k0 v0] m IH]; simpl; [done|].
  intros Hnd. change (NoDup (k0 :: map_keys m)) in Hnd.
  apply NoDup_cons in Hnd as [Hk0 Hnd].
  destruct (decide (k0 = k)) as [->|Hk]; simpl.
  - by apply map_get_None.
  - rewrite decide_False by done. by apply IH.
Qed.

Lemma map_get_delete_ne k k' m : k ≠ k' → map_get k' (map_delete k m) = map_get k' m.
Proof.
  intros Hne. induction m as [|[k0 v0] m IH]; simpl; [done|].
  destruct (decide (k0 = k)) as [->|Hk]; simpl.
  - by rewrite decide_False.
  - by rewrite IH.
Qed.
End JsMapMore.

Lemma length_map_keys {V} (m : list (string * V)) : length (map_keys m) = length m.
Proof. unfold map_keys. apply length_fmap. Qed.

(** *** The scoring keeps a room well-formed *)

Lemma countVote_ok guilty t e :
  (1 ≤ confidence e.2 ≤ 3)%Z →
  Forall (fun kv : string * Player => player_id kv.2 = kv.1) (t_players t) →
  Forall (fun kv : string * Player => (0 ≤ score kv.2)%Z) (t_players t) →
  (0 ≤ fooledCount t)%Z →
  let t' := countVote guilty t e in
  map_keys (t_players t') = map_keys (t_players t) ∧
  Forall (fun kv : string * Player => player_id kv.2 = kv.1) (t_players t') ∧
  Forall (fun kv : string * Player => (0 ≤ score kv.2)%Z) (t_players t') ∧
  (0 ≤ fooledCount t')%Z.
Proof.
  intros Hc Hk Hs Hf. destruct e as [k v]. simpl in Hc.
  destruct (countVote_step guilty t k v) as (Hkeys & _ & _). simpl.
  split; [exact Hkeys|]. unfold countVote. simpl.
  destruct (map_get k (t_players t)) as [p|] eqn:Hp; [|done].
  pose proof (map_get_Forall_pair _ k p _ Hk Hp) as Hid.
  pose proof (map_get_Forall_pair _ k p _ Hs Hp) as Hsc. simpl in Hid, Hsc.
  destruct (decide _); simpl.
  - split; [|split; [|done]]; apply map_set_Forall; simpl; try done. lia.
  - split; [done|]. split; [done|]. lia.
Qed.

Lemma scoreRoom_ok room : roomOk room → roomOk (scoreRoom room).
Proof.
  intros [H1 H2 H3 H4 H5 H6 H7 H8 H9].
  assert (Hloop : ∀ vs t,
            Forall (fun kv : string * Vote => (1 ≤ confidence kv.2 ≤ 3)%Z) vs →
            Forall (fun kv : string * Player => player_id kv.2 = kv.1) (t_players t) →
            Forall (fun kv : string * Player => (0 ≤ score kv.2)%Z) (t_players t) →
            (0 ≤ fooledCount t)%Z →
            let t' := foldl (countVote (guiltyPlayerId (gameState room))) t vs in
            map_keys (t_players t') = map_keys (t_players t) ∧
            Forall (fun kv : string * Player => player_id kv.2 = kv.1) (t_players t') ∧
            Forall (fun kv : string * Player => (0 ≤ score kv.2)%Z) (t_players t') ∧
            (0 ≤ fooledCount t')%Z).
  { induction vs as [|e vs IH]; intros t Hv Hk Hs Hf; simpl; [done|].
    inversion Hv; subst.
    destruct (countVote_ok (guiltyPlayerId (gameState room)) t e) as (Ha & Hb & Hc & Hd);
      try done.
    destruct (IH (countVote (guiltyPlayerId (gameState room)) t e)) as (Ha' & Hb' & Hc' & Hd');
      try done.
    split; [congruence | done]. }
  destruct (Hloop (votes (gameState room)) (mkTally (players room) 0 ∅ ∅))
    as (Hkeys & Hk & Hs & Hf); try done.
  fold (countVotes room) in Hkeys, Hk, Hs, Hf. simpl in Hkeys.
  assert (Hfin : map_keys (players (scoreRoom room)) = map_keys (players room) ∧
                 Forall (fun kv : string * Player => player_id kv.2 = kv.1)
                   (players (scoreRoom room)) ∧
                 Forall (fun kv : string * Player => (0 ≤ score kv.2)%Z)
                   (players (scoreRoom room))).
  { unfold scoreRoom. simpl. rewrite awardGuilty_keys. split; [done|].
    unfold awardGuilty. destruct (guiltyPlayerId (gameState room)) as [gid|]; [|done].
    destruct (map_get gid (t_players (countVotes room))) as [gp|] eqn:Hgp; [|done]. simpl.
    pose proof (map_get_Forall_pair _ gid gp _ Hk Hgp) as Hid.
    pose proof (map_get_Forall_pair _ gid gp _ Hs Hgp) as Hsc. simpl in Hid, Hsc.
    split; apply map_set_Forall; simpl; try done. lia. }
  destruct Hfin as (Hkeys' & Hk' & Hs').
  split; try done.
  - rewrite <- (length_map_keys (players (scoreRoom room))), Hkeys', length_map_keys. done.
  - by rewrite Hkeys'.
Qed.

Lemma Ok_calculateResults rc now s : Ok s → Ok (calculateResults rc now s).
Proof.
  intros Hok. destruct (getRoom s rc) as [[r room]|] eqn:Hg.
  - pose proof (calculateResults_ncore rc now s r room Hg) as Hn.
    apply getRoom_Some in Hg as [_ Hroom].
    assert (Hh : heap (calculateResults rc now s) = heap (storeRoom r (scoreRoom room) s))
      by (unfold ncore in Hn; congruence).
    intros r' room'. rewrite Hh. apply Ok_storeRoom; [|done].
    apply scoreRoom_ok. by apply (Hok r).
  - unfold calculateResults. by rewrite Hg.
Qed.

Lemma roomOk_phase room ph now :
  roomOk room → phase (gameState room) ≠ WAITING →
  roomOk (upd_gameState (fun g => set_phaseStartTime (Some now) (set_phase ph g)) room).
Proof. intros [H1 H2 H3 H4 H5 H6 H7 H8 H9] Hph. split; try done. intros _. by apply H8. Qed.

Lemma Ok_startPhase rc ph d now s :
  Ok s → (∀ r room, getRoom s rc = Some (r, room) → phase (gameState room) ≠ WAITING) →
  Ok (startPhase rc ph d now s).
Proof.
  intros Hok Hph. destruct (getRoom s rc) as [[r room]|] eqn:Hg.
  - pose proof (startPhase_dcore rc ph d now s r room Hg) as Hd.
    apply (Ok_dview (updRoom r (upd_gameState (fun g =>
             set_phaseStartTime (Some now) (set_phase ph g))) s)).
    + unfold dcore in Hd. congruence.
    + apply Ok_updRoom; [|done]. intros room0 Hroom0 Hr0.
      apply getRoom_Some in Hg as [_ Hroom]. rewrite Hroom in Hroom0. injection Hroom0 as <-.
      apply roomOk_phase; [done|]. by apply (Hph r room).
  - unfold startPhase. by rewrite Hg.
Qed.

Lemma indexOf_not_WAITING ph i : indexOf ph phaseSequence = Some i → ph ≠ WAITING.
Proof. by intros H ->. Qed.

Lemma Ok_advancePhase rc now s : Ok s → Ok (advancePhase rc now s).
Proof.
  intros Hok. unfold advancePhase. destruct (getRoom s rc) as [[r room]|] eqn:Hg; [|done].
  destruct (indexOf _ _) as [i|] eqn:Hi; [|done].
  apply indexOf_not_WAITING in Hi.
  set (s1 := if decide (Some i = indexOf ACCUSATIONS phaseSequence)
             then calculateResults rc now s else s).
  assert (Hok1 : Ok s1) by (subst s1; destruct (decide _); [by apply Ok_calculateResults | done]).
  assert (Hg1 : ∀ r1 room1, getRoom s1 rc = Some (r1, room1) →
                  phase (gameState room1) ≠ WAITING).
  { subst s1. intros r1 room1. destruct (decide _).
    - rewrite (calculateResults_getRoom rc now s r room Hg). by intros [= <- <-].
    - rewrite Hg. by intros [= <- <-]. }
  destruct (i <? length phaseSequence - 1)%nat.
  - destruct (phaseSequence !! S i); [by apply Ok_startPhase | done].
  - apply (Ok_dview (updRoom r (upd_gameState (fun g =>
             set_guiltyPlayerId None (set_phase WAITING g))) s1)).
    + apply core_dview, broadcastPhaseUpdate_core.
    + apply Ok_updRoom; [|done]. intros room0 _ [H1 H2 H3 H4 H5 H6 H7 H8 H9].
      split; done.
Qed.

Lemma Ok_startGame rc o s : Ok s → Ok (startGame rc o s).
Proof.
  intros Hok. unfold startGame. destruct (getRoom s rc) as [[r room]|] eqn:Hg; [|done].
  destruct (length (players room) <? 4)%nat eqn:Hlen; [done|].
  apply Nat.ltb_ge in Hlen.
  apply Ok_startPhase.
  - apply Ok_updRoom; [|done]. intros room0 Hroom0 [H1 H2 H3 H4 H5 H6 H7 H8 H9].
    apply getRoom_Some in Hg as [_ Hroom]. rewrite Hroom in Hroom0. injection Hroom0 as <-.
    split; simpl; [done | done | done | done | constructor | intros pid; simpl; lia | | | lia].
    + intros c Hc. apply list_elem_of_lookup. eauto.
    + intros _. split; [|split].
      * apply lookup_lt_is_Some. rewrite length_map_keys.
        pose proof (randomIndex_lt (random2 o) (length (players room))). lia.
      * apply lookup_lt_is_Some. apply randomIndex_lt. simpl. lia.
      * lia.
  - intros r1 room1 Hg1.
    match type of Hg1 with getRoom (updRoom r ?f s) rc = _ =>
      rewrite (getRoom_updRoom s rc r room f Hg) in Hg1 end.
    injection Hg1 as <- <-. done.
Qed.

Lemma roomOk_new rc hostId : roomOk (mkRoom rc hostId [] emptyGameState (mkTimers None [])).
Proof.
  split; simpl;
    [lia | constructor | constructor | constructor | constructor
     | intros pid; simpl; lia | done | done | lia].
Qed.

Lemma Ok_createRoom ws cd rnd s : Ok s → Ok (createRoom ws cd rnd s).
Proof.
  intros Hok r room. simpl. rewrite lookup_insert_Some.
  intros [[_ <-]|[_ Hx]]; [apply roomOk_new | by apply (Hok r)].
Qed.

Lemma questionsFrom_answerFound pid qid ans qs :
  length (filter (fun q => q_from q = pid) (answerFound qid ans qs)) =
  length (filter (fun q => q_from q = pid) qs).
Proof.
  induction qs as [|q qs IH]; simpl; [done|].
  destruct (decide (q_id q = qid)).
  - rewrite !filter_cons. simpl. by destruct (decide (q_from q = pid)).
  - rewrite !filter_cons. destruct (decide (q_from q = pid)); simpl; by rewrite IH.
Qed.

Lemma clientRoom_heap s cd rc r room :
  clientRoom s cd = Some (rc, r, room) → heap s !! r = Some room.
Proof. intros H. apply clientRoom_Some in H as [_ Hg]. by apply getRoom_Some in Hg as [_ ?]. Qed.

Lemma Ok_joinRoom ws cd rc name s : Ok s → Ok (joinRoom ws cd rc name s).
Proof.
  intros Hok. unfold joinRoom. destruct (getRoom s rc) as [[r room]|] eqn:Hg; [|done].
  destruct (8 <=? length (players room))%nat eqn:Hlen; [done|].
  apply Nat.leb_gt in Hlen.
  destruct (negb _); [done|].
  set (player := mkPlayer (playerId cd) name _ _ 0 false).
  match goal with |- context [heap ?x !! r] =>
    assert (Hx : Ok x); [|destruct (heap x !! r); exact Hx]
  end.
  apply (Ok_dview (updRoom r (fun room => set_players
           (map_set (playerId cd) player (players room)) room) s)).
  { by rewrite (core_dview _ _ (broadcastToRoom_core _ _ _)). }
  apply Ok_updRoom; [|done]. intros room0 Hroom0 [H1 H2 H3 H4 H5 H6 H7 H8 H9].
  apply getRoom_Some in Hg as [_ Hroom]. rewrite Hroom in Hroom0. injection Hroom0 as <-.
  split; simpl; try done.
  - pose proof (length_map_set (playerId cd) player (players room)). lia.
  - by apply map_set_NoDup.
  - by apply map_set_Forall.
  - by apply map_set_Forall.
Qed.

Lemma Ok_submitAlibi cd alibi s : Ok s → Ok (submitAlibi cd alibi s).
Proof.
  intros Hok. unfold submitAlibi. destruct (clientRoom s cd) as [[[rc r] room]|]; [|done].
  destruct (negb _); [done|].
  eapply Ok_dview; [apply core_dview, broadcastToRoom_core|].
  apply Ok_updRoom; [|done]. intros room0 _ [H1 H2 H3 H4 H5 H6 H7 H8 H9]. split; done.
Qed.

Lemma Ok_askQuestion cd toId text o s : Ok s → Ok (askQuestion cd toId text o s).
Proof.
  intros Hok. unfold askQuestion.
  destruct (clientRoom s cd) as [[[rc r] room]|] eqn:Hcr; [|done].
  destruct (negb _); [done|].
  destruct (3 <=? _)%nat eqn:Hlim; [done|]. apply Nat.leb_gt in Hlim.
  eapply Ok_dview; [apply core_dview, broadcastToRoom_core|].
  apply Ok_updRoom; [|done]. intros room0 Hroom0 [H1 H2 H3 H4 H5 H6 H7 H8 H9].
  rewrite (clientRoom_heap _ _ _ _ _ Hcr) in Hroom0. injection Hroom0 as <-.
  split; simpl; try done.
  intros pid. rewrite filter_app, length_app, filter_cons, filter_nil. simpl.
  destruct (decide (playerId cd = pid)) as [<-|Hne]; simpl; [lia|].
  specialize (H6 pid). lia.
Qed.

Lemma Ok_answerQuestion cd qid ans s : Ok s → Ok (answerQuestion cd qid ans s).
Proof.
  intros Hok. unfold answerQuestion. destruct (clientRoom s cd) as [[[rc r] room]|]; [|done].
  destruct (findQuestion _ _); [|done]. destruct (_ || _); [done|].
  eapply Ok_dview; [apply core_dview, broadcastToRoom_core|].
  apply Ok_updRoom; [|done]. intros room0 _ [H1 H2 H3 H4 H5 H6 H7 H8 H9].
  split; simpl; try done. intros pid. by rewrite questionsFrom_answerFound.
Qed.

Lemma Ok_submitVote cd suspect conf s : Ok s → Ok (submitVote cd suspect conf s).
Proof.
  intros Hok. unfold submitVote. destruct (clientRoom s cd) as [[[rc r] room]|]; [|done].
  destruct (negb _); [done|].
  eapply Ok_dview; [apply core_dview, broadcastToRoom_core|].
  apply Ok_updRoom; [|done]. intros room0 _ [H1 H2 H3 H4 H5 H6 H7 H8 H9].
  split; simpl; try done. apply map_set_Forall; [|done]. simpl. lia.
Qed.

Lemma Ok_handleDisconnect ws s : Ok s → Ok (handleDisconnect ws s).
Proof.
  intros Hok. unfold handleDisconnect. destruct (map_get ws (clients s)) as [cd|]; [|done].
  match goal with |- Ok (set_clients ?c ?x) => assert (Hx : Ok x); [|exact Hx] end.
  destruct (if bool_decide _ then None else clientRoom s cd) as [[[rc r] room]|] eqn:Hcr;
    [|done].
  assert (Hroom : heap s !! r = Some room).
  { destruct (bool_decide _); [done|]. by apply clientRoom_heap in Hcr. }
  match goal with |- Ok (if _ then set_rooms ?c ?x else ?x) =>
    assert (Hx : Ok x); [|destruct (_ =? _)%nat; exact Hx]
  end.
  eapply Ok_dview; [apply core_dview, broadcastToRoom_core|].
  apply Ok_updRoom; [|done]. intros room0 Hroom0 [H1 H2 H3 H4 H5 H6 H7 H8 H9].
  rewrite Hroom in Hroom0. injection Hroom0 as <-.
  split; simpl; try done.
  - pose proof (length_map_delete (playerId cd) (players room)). lia.
  - by apply map_delete_NoDup.
  - by apply map_delete_Forall.
  - by apply map_delete_Forall.
Qed.

Lemma Ok_handleMessage ws m o s : Ok s → Ok (handleMessage ws m o s).
Proof.
  intros Hok. unfold handleMessage. destruct (map_get ws (clients s)) as [cd|]; [|done].
  destruct m.
  - by apply Ok_createRoom.
  - by apply Ok_joinRoom.
  - destruct (roomCode cd); [by apply Ok_startGame | done].
  - by apply Ok_submitAlibi.
  - by apply Ok_askQuestion.
  - by apply Ok_answerQuestion.
  - by apply Ok_submitVote.
  - done.
Qed.

Lemma Ok_step s e : Ok s → Ok (step s e).
Proof.
  intros Hok. destruct e as [rnd|ws m o|ws|tid o|ws]; simpl;
    [| | | |destruct (map_get ws (clients s)); exact Hok].
  - exact Hok.
  - by apply Ok_handleMessage.
  - by apply Ok_handleDisconnect.
  - destruct (pending s !! tid) as [t|]; [|done].
    assert (Hc : Ok (clearTimeout tid s)) by exact Hok.
    destruct (callback t) as [rc|r rc ev]; simpl.
    + by apply Ok_advancePhase.
    + eapply Ok_dview; [apply core_dview, broadcastToRoom_core|].
      apply Ok_updRoom; [|done]. intros room0 _ [H1 H2 H3 H4 H5 H6 H7 H8 H9]. split; done.
Qed.

Lemma Ok_run evs s : Ok s → Ok (run evs s).
Proof. revert s. induction evs as [|e evs IH]; intros s Hs; simpl; [done|]. by apply IH, Ok_step. Qed.

Lemma Ok_initial lb : Ok (initial lb).
Proof. intros r room. simpl. by rewrite lookup_empty. Qed.

(** ** X1-X5: what holds of every room of a running server *)

(** X1.  A room never has more than eight players, has one record per
    player id, and keeps each record under the id it carries. *)
Theorem rooms_hold_at_most_eight_players lb evs r room :
  heap (run evs (initial lb)) !! r = Some room →
  (length (players room) ≤ 8)%nat ∧
  NoDup (map_keys (players room)) ∧
  ∀ pid p, map_get pid (players room) = Some p → player_id p = pid.
Proof.
  intros Hroom. destruct (Ok_run evs (initial lb) (Ok_initial lb) r room Hroom)
    as [H1 H2 H3 _ _ _ _ _ _].
  split; [done|]. split; [done|].
  intros pid p Hp. apply (map_get_Forall_pair _ pid p _ H3 Hp).
Qed.

Lemma rooms_hold_at_most_eight_players_witness :
  let room := roomAt lobby 0 in
  length (players room) = 4%nat ∧ NoDup (map_keys (players room)).
Proof.
  destruct (rooms_hold_at_most_eight_players [] lobbyEvents 0%nat (roomAt lobby 0))
    as (_ & H & _).
  - vm_compute. reflexivity.
  - split; [vm_compute; reflexivity | exact H].
Defined.

(** X2.  No player ever has more than three questions of one round to
    their name. *)
Theorem at_most_three_questions_per_player lb evs r room pid :
  heap (run evs (initial lb)) !! r = Some room →
  (length (filter (fun q => q_from q = pid) (questions (gameState room))) ≤ 3)%nat.
Proof.
  intros Hroom. by destruct (Ok_run evs (initial lb) (Ok_initial lb) r room Hroom).
Qed.

Lemma at_most_three_questions_per_player_witness :
  (length (filter (fun q => q_from q = "p2xxxxxxx")
     (questions (gameState (roomAt interrogating 0)))) ≤ 3)%nat.
Proof.
  apply (at_most_three_questions_per_player [] interrogatingEvents 0%nat).
  vm_compute. reflexivity.
Defined.

Lemma stored_votes_clamped_aux lb evs r room :
  heap (run evs (initial lb)) !! r = Some room →
  NoDup (map_keys (votes (gameState room))) ∧ (∀ pid, (0 ≤ voteAward room pid ≤ 300)%Z).
Proof.
  intros Hroom. destruct (Ok_run evs (initial lb) (Ok_initial lb) r room Hroom)
    as [_ _ _ _ H5 _ _ _ _].
  destruct (Inv_run evs (initial lb) (Inv_initial lb)) as [Hinv _].
  destruct (Hinv r room Hroom) as [_ Hnd]. split; [done|].
  intros pid. unfold voteAward. destruct (map_get pid _) as [v|] eqn:Hv; [|lia].
  pose proof (map_get_Forall_pair _ pid v _ H5 Hv) as Hc. simpl in Hc.
  destruct (correctVote _ v); lia.
Qed.

(** X3.  Every stored vote carries a wager of 1, 2 or 3, there is at most
    one vote per voter, and so the award for a vote is between 0 and 300. *)
Theorem stored_votes_are_clamped lb evs r room :
  heap (run evs (initial lb)) !! r = Some room →
  NoDup (map_keys (votes (gameState room))) ∧
  (∀ voter v, map_get voter (votes (gameState room)) = Some v → (1 ≤ confidence v ≤ 3)%Z) ∧
  (∀ pid, (0 ≤ voteAward room pid ≤ 300)%Z).
Proof.
  intros Hroom. destruct (Ok_run evs (initial lb) (Ok_initial lb) r room Hroom)
    as [_ _ _ _ H5 _ _ _ _].
  destruct (Inv_run evs (initial lb) (Inv_initial lb)) as [Hinv _].
  destruct (Hinv r room Hroom) as [_ Hnd].
  assert (Hc : ∀ voter v, map_get voter (votes (gameState room)) = Some v →
                 (1 ≤ confidence v ≤ 3)%Z)
    by (intros voter v Hv; apply (map_get_Forall_pair _ voter v _ H5 Hv)).
  split; [done|]. split; [done|].
  intros pid. unfold voteAward. destruct (map_get pid _) as [v|] eqn:Hv; [|lia].
  specialize (Hc pid v Hv). destruct (correctVote _ v); lia.
Qed.

Lemma stored_votes_are_clamped_witness :
  let room := roomAt accusing 0 in
  length (votes (gameState room)) = 3%nat ∧
  (∀ voter v, map_get voter (votes (gameState room)) = Some v → (1 ≤ confidence v ≤ 3)%Z) ∧
  (∀ pid, (0 ≤ voteAward room pid ≤ 300)%Z).
Proof.
  destruct (stored_votes_are_clamped [] accusingEvents 0%nat (roomAt accusing 0))
    as (_ & H1 & H2).
  - vm_compute. reflexivity.
  - split; [vm_compute; reflexivity|]. split; [exact H1 | exact H2].
Defined.

Lemma countWrong_nonneg guilty ids vs : (0 ≤ countWrong guilty ids vs)%Z.
Proof.
  induction vs as [|[k v] vs IH]; simpl; [lia|].
  destruct (bool_decide _ && negb _); lia.
Qed.

(** X4.  Scores are never negative, and the scoring never lowers one. *)
Theorem scores_never_decrease lb evs rc now r room :
  let s := run evs (initial lb) in
  getRoom s rc = Some (r, room) →
  ∃ room', getRoom (calculateResults rc now s) rc = Some (r, room') ∧
    ∀ pid p, map_get pid (players room) = Some p →
      (0 ≤ score p)%Z ∧
      ∃ p', map_get pid (players room') = Some p' ∧ (score p ≤ score p')%Z.
Proof.
  intros s Hg. exists (scoreRoom room).
  split; [by apply calculateResults_getRoom|].
  pose proof Hg as Hg'. apply getRoom_Some in Hg' as [_ Hroom].
  destruct (stored_votes_clamped_aux lb evs r room Hroom) as (Hnd & Hb).
  destruct (Ok_run evs (initial lb) (Ok_initial lb) r room Hroom)
    as [_ _ _ H4 _ _ _ _ _].
  destruct (scoreRoom_scores room Hnd) as (_ & _ & Hp).
  intros pid p Hpid. split; [apply (map_get_Forall_pair _ pid p _ H4 Hpid)|].
  eexists. split; [by apply Hp|]. simpl.
  specialize (Hb pid).
  assert (0 ≤ guiltyBonus room pid)%Z.
  { unfold guiltyBonus, wrongVotes. destruct (decide _); [|lia].
    pose proof (countWrong_nonneg (guiltyPlayerId (gameState room))
                  (map_keys (players room)) (votes (gameState room))). lia. }
  lia.
Qed.

Lemma scores_never_decrease_witness :
  scoresOf (calculateResults "AB12" 85010 accusing) "AB12" =
    Some [("p1xxxxxxx", 300); ("p2xxxxxxx", 200); ("p3xxxxxxx", 0); ("p4xxxxxxx", 0)]%Z ∧
  ∃ room', getRoom (calculateResults "AB12" 85010 accusing) "AB12" = Some (0%nat, room') ∧
    ∀ pid p, map_get pid (players (roomAt accusing 0)) = Some p →
      (0 ≤ score p)%Z ∧
      ∃ p', map_get pid (players room') = Some p' ∧ (score p ≤ score p')%Z.
Proof.
  split; [vm_compute; reflexivity|].
  apply (scores_never_decrease [] accusingEvents "AB12" 85010 0%nat (roomAt accusing 0)).
  vm_compute. reflexivity.
Defined.

(** X5.  While a room is in any phase but WAITING, its round has a crime
    of the server's catalogue, a guilty player id and a round number of at
    least 1.  (The guilty id need not be a current player: the guilty player
    may have left.) *)
Theorem running_round_is_set_up lb evs r room :
  heap (run evs (initial lb)) !! r = Some room →
  phase (gameState room) ≠ WAITING →
  ∃ c g, crime (gameState room) = Some c ∧ c ∈ getCrimes ∧
    guiltyPlayerId (gameState room) = Some g ∧ (1 ≤ roundNumber (gameState room))%Z.
Proof.
  intros Hroom Hph.
  destruct (Ok_run evs (initial lb) (Ok_initial lb) r room Hroom)
    as [_ _ _ _ _ _ H7 H8 _].
  destruct (H8 Hph) as ([g Hg] & [c Hc] & Hr).
  exists c, g. auto.
Qed.

Lemma running_round_is_set_up_witness :
  phase (gameState (roomAt interrogating 0)) = INTERROGATION ∧
  ∃ c g, crime (gameState (roomAt interrogating 0)) = Some c ∧ c ∈ getCrimes ∧
    guiltyPlayerId (gameState (roomAt interrogating 0)) = Some g ∧
    (1 ≤ roundNumber (gameState (roomAt interrogating 0)))%Z.
Proof.
  split; [vm_compute; reflexivity|].
  apply (running_round_is_set_up [] interrogatingEvents 0%nat).
  - vm_compute. reflexivity.
  - vm_compute. discriminate.
Defined.

(** ** X6-X7: joining a room *)

Lemma core_fields s s' :
  core s' = core s →
  rooms s' = rooms s ∧ heap s' = heap s ∧ clients s' = clients s ∧
  leaderboard s' = leaderboard s ∧ pending s' = pending s ∧
  nextTimer s' = nextTimer s ∧ nextRoom s' = nextRoom s ∧ nextWs s' = nextWs s ∧
  notOpen s' = notOpen s.
Proof. unfold core. intros H. by simplify_eq. Qed.

Lemma heap_updRoom r f s room :
  heap s !! r = Some room → heap (updRoom r f s) = <[r := f room]> (heap s).
Proof.
  intros H. unfold updRoom. simpl. apply map_eq. intros i.
  destruct (decide (i = r)) as [->|Hne].
  - by rewrite lookup_alter_eq, lookup_insert_eq, H.
  - by rewrite lookup_alter_ne, lookup_insert_ne.
Qed.

(* what an accepted joinRoom does, whether or not the id is in the room *)
Lemma joinRoom_accepted ws cd rc name s r room :
  getRoom s rc = Some (r, room) →
  (length (players room) < 8)%nat →
  phase (gameState room) = WAITING →
  let pid := playerId cd in
  let n := length (players room) in
  let player := mkPlayer pid name (nth n COLORS "") (nth n AVATARS "") 0 false in
  let room' := set_players (map_set pid player (players room)) room in
  let s' := joinRoom ws cd rc name s in
  rooms s' = rooms s ∧ heap s' = <[r := room']> (heap s) ∧
  clients s' = map_set ws (mkClientData pid (Some rc) (Some name)) (clients s) ∧
  pending s' = pending s ∧ leaderboard s' = leaderboard s ∧
  notOpen s' = notOpen s ∧
  outbox s' = outbox s ++
    deliveries s' (map_keys (players room'))
      (fun _ => PLAYER_JOINED player (length (players room'))) ++
    (if bool_decide (ws ∈ notOpen s) then []
     else [(ws, ROOM_JOINED rc (map_values (players room')) (getPublicGameState room' pid))]).
Proof.
  intros Hg Hn Hph pid n player room' s'.
  pose proof Hg as Hg0. apply getRoom_Some in Hg0 as [Hrc Hr].
  subst s'. unfold joinRoom. rewrite Hg.
  destruct (8 <=? length (players room))%nat eqn:Hfull;
    [apply Nat.leb_le in Hfull; lia|].
  rewrite bool_decide_true by done. cbn [negb].
  rewrite (Nat.mod_small (length (players room)) 8) by done.
  fold pid n player.
  set (s1 := set_clients _ s).
  set (f := fun room0 : Room => set_players (map_set pid player (players room0)) room0).
  set (s2 := updRoom r f s1).
  assert (Hg2 : getRoom s2 rc = Some (r, room'))
    by (apply (getRoom_updRoom s1 rc r room f); apply getRoom_Some; done).
  set (s3 := broadcastToRoom rc _ s2).
  destruct (core_fields s2 s3 (broadcastToRoom_core _ _ _))
    as (Hrooms & Hheap & Hcl & Hlb & Hpe & _ & _ & _ & Hno).
  assert (Hh2 : heap s2 = <[r := room']> (heap s)) by (apply (heap_updRoom r f s1 room Hr)).
  rewrite Hheap, Hh2, lookup_insert_eq. simpl.
  rewrite Hrooms, Hheap, Hcl, Hlb, Hpe, Hno.
  repeat split; try done.
  unfold s3. rewrite (broadcastToRoom_outbox rc _ s2 r room' Hg2). simpl.
  rewrite <- app_assoc. f_equal. f_equal.
  apply deliveries_eq; [exact (eq_sym Hcl) | exact (eq_sym Hno)].
Qed.

(** X6.  An accepted JOIN_ROOM of a player who is not yet in the room puts
    the new record last in the room's player list, with the colour and the
    avatar of its position, score 0; it notifies every player of the room who
    has a connection whose socket is open (the joiner included) with the new
    head count and then, if the joiner's socket is open, sends the joiner the
    room's state.  A socket that is not open is sent nothing.  No other
    room, no timer and no registry entry changes. *)
Theorem joinRoom_appends_player ws cd rc name s r room :
  getRoom s rc = Some (r, room) →
  (length (players room) < 8)%nat →
  phase (gameState room) = WAITING →
  map_get (playerId cd) (players room) = None →
  let pid := playerId cd in
  let n := length (players room) in
  let player := mkPlayer pid name (nth n COLORS "") (nth n AVATARS "") 0 false in
  let room' := set_players (players room ++ [(pid, player)]) room in
  let s' := joinRoom ws cd rc name s in
  getRoom s' rc = Some (r, room') ∧
  (∀ r', r' ≠ r → heap s' !! r' = heap s !! r') ∧
  rooms s' = rooms s ∧ pending s' = pending s ∧
  clients s' = map_set ws (mkClientData pid (Some rc) (Some name)) (clients s) ∧
  notOpen s' = notOpen s ∧
  outbox s' = outbox s ++
    deliveries s' (map_keys (players room'))
      (fun _ => PLAYER_JOINED player (S n)) ++
    (if bool_decide (ws ∈ notOpen s) then []
     else [(ws, ROOM_JOINED rc (map_values (players room')) (getPublicGameState room' pid))]) ∧
  ∀ w m, (w, m) ∈ drop (length (outbox s)) (outbox s') → w ∉ notOpen s.
Proof.
  intros Hg Hn Hph Hnew pid n player room' s'.
  destruct (joinRoom_accepted ws cd rc name s r room Hg Hn Hph)
    as (Hrooms & Hheap & Hcl & Hpe & _ & Hno & Hout).
  fold pid n player s' in Hrooms, Hheap, Hcl, Hpe, Hno, Hout.
  rewrite (map_set_absent pid player (players room) Hnew) in Hheap, Hout.
  fold room' in Hheap, Hout.
  apply getRoom_Some in Hg as [Hrc Hr].
  split; [apply getRoom_Some; by rewrite Hrooms, Hheap, lookup_insert_eq|].
  split; [by intros r' Hne; rewrite Hheap, lookup_insert_ne|].
  do 4 (split; [done|]).
  split.
  - rewrite Hout. replace (length (players room')) with (S n); [done|].
    unfold room', n. simpl. rewrite length_app. simpl. lia.
  - intros w m. rewrite Hout, drop_app_length. intros Hin.
    apply elem_of_app in Hin as [Hin|Hin].
    + rewrite <- Hno. by apply (deliveries_open _ _ _ _ _ Hin).
    + destruct (bool_decide (ws ∈ notOpen s)) eqn:E; [by apply elem_of_nil in Hin|].
      apply list_elem_of_singleton in Hin. injection Hin as -> _.
      by apply bool_decide_eq_false in E.
Qed.

Lemma joinRoom_appends_player_witness :
  let s := run (take 6 lobbyEvents) (initial []) in
  (map player_name ∘ map_values ∘ players ∘ snd <$> getRoom s "AB12") = Some ["Ada"] ∧
  ∃ room', getRoom (joinRoom 1 (mkClientData "p2xxxxxxx" None None) "AB12" "Bob" s) "AB12"
      = Some (0%nat, room') ∧
    map (fun p => (player_name p, color p, avatar p)) (map_values (players room')) =
      [("Ada", "#E63946", "detective"); ("Bob", "#457B9D", "businessman")].
Proof.
  intros s. split; [vm_compute; reflexivity|].
  destruct (joinRoom_appends_player 1 (mkClientData "p2xxxxxxx" None None) "AB12" "Bob" s
              0%nat (roomAt s 0)) as (H & _).
  - vm_compute. reflexivity.
  - vm_compute. lia.
  - vm_compute. reflexivity.
  - vm_compute. reflexivity.
  - eexists. split; [exact H|]. vm_compute. reflexivity.
Defined.

Lemma map_get_elem_keys {V} (k : string) (m : list (string * V)) :
  is_Some (map_get k m) ↔ k ∈ map_keys m.
Proof.
  unfold map_keys. induction m as [|[k0 v0] m IH]; simpl.
  - split; [by intros [? ?] | by intros ?%elem_of_nil].
  - destruct (decide (k0 = k)) as [->|Hne].
    + split; [intros _; apply list_elem_of_here | eauto].
    + rewrite IH. split; [apply list_elem_of_further|].
      intros [?|?]%elem_of_cons; [congruence | done].
Qed.

(** X7.  An accepted JOIN_ROOM of a player who is already in the room
    replaces that player's record where it stands: the room keeps its players
    and their order, the other records are untouched, and the joiner's record
    starts again from score 0 under the new name, with the colour and avatar
    of index (number of players) mod 8 rather than of the record's position. *)
Theorem joinRoom_again_resets_record ws cd rc name s r room p :
  getRoom s rc = Some (r, room) →
  (length (players room) < 8)%nat →
  phase (gameState room) = WAITING →
  map_get (playerId cd) (players room) = Some p →
  let pid := playerId cd in
  let n := length (players room) in
  ∃ room', getRoom (joinRoom ws cd rc name s) rc = Some (r, room') ∧
    map_keys (players room') = map_keys (players room) ∧
    map_get pid (players room') =
      Some (mkPlayer pid name (nth n COLORS "") (nth n AVATARS "") 0 false) ∧
    (∀ pid', pid' ≠ pid → map_get pid' (players room') = map_get pid' (players room)) ∧
    gameState room' = gameState room.
Proof.
  intros Hg Hn Hph Hold pid n.
  destruct (joinRoom_accepted ws cd rc name s r room Hg Hn Hph)
    as (Hrooms & Hheap & _).
  fold pid n in Hrooms, Hheap.
  apply getRoom_Some in Hg as [Hrc Hr].
  eexists. split; [apply getRoom_Some; by rewrite Hrooms, Hheap, lookup_insert_eq|].
  simpl. split; [apply map_keys_set_present; eauto|].
  split; [apply map_get_set_eq|]. split; [|done].
  intros pid' Hne. by apply map_get_set_ne.
Qed.

Lemma joinRoom_again_resets_record_witness :
  let s := scoredRound in
  phaseOf s "AB12" = Some WAITING ∧
  scoresOf s "AB12" =
    Some [("p1xxxxxxx", 300); ("p2xxxxxxx", 200); ("p3xxxxxxx", 0); ("p4xxxxxxx", 0)]%Z ∧
  ∃ room', getRoom (joinRoom 0 (mkClientData "p1xxxxxxx" (Some "AB12") (Some "Ada"))
                      "AB12" "Ada" s) "AB12" = Some (0%nat, room') ∧
    map_keys (players room') = ["p1xxxxxxx"; "p2xxxxxxx"; "p3xxxxxxx"; "p4xxxxxxx"] ∧
    map_get "p1xxxxxxx" (players room') =
      Some (mkPlayer "p1xxxxxxx" "Ada" "#F4A261" "chef" 0 false).
Proof.
  intros s. split; [vm_compute; reflexivity|]. split; [vm_compute; reflexivity|].
  destruct (joinRoom_again_resets_record 0 (mkClientData "p1xxxxxxx" (Some "AB12") (Some "Ada"))
              "AB12" "Ada" s 0%nat (roomAt s 0)
              (default (mkPlayer "" "" "" "" 0 false)
                 (map_get "p1xxxxxxx" (players (roomAt s 0)))))
    as (room' & H1 & H2 & H3 & _).
  - vm_compute. reflexivity.
  - vm_compute. lia.
  - vm_compute. reflexivity.
  - vm_compute. reflexivity.
  - exists room'. split; [exact H1|]. split; [rewrite H2; vm_compute; reflexivity | exact H3].
Defined.

(** ** X8-X10: a connection closes *)

Lemma clientRoom_intro s cd rc r room :
  roomCode cd = Some rc → getRoom s rc = Some (r, room) →
  clientRoom s cd = Some (rc, r, room).
Proof. intros Hrc Hg. unfold clientRoom. rewrite Hrc. simpl. by rewrite Hg. Qed.

(* what handleDisconnect does for a client whose room is registered *)
Lemma handleDisconnect_in_room ws cd rc r room s :
  map_get ws (clients s) = Some cd →
  roomCode cd = Some rc → rc ≠ "" →
  getRoom s rc = Some (r, room) →
  let ps := map_delete (playerId cd) (players room) in
  let s' := handleDisconnect ws s in
  heap s' = <[r := set_players ps room]> (heap s) ∧
  rooms s' = (if (length ps =? 0)%nat then delete rc (rooms s) else rooms s) ∧
  clients s' = map_delete ws (clients s) ∧
  pending s' = pending s ∧ leaderboard s' = leaderboard s ∧
  outbox s' = outbox s ++
    deliveries s (map_keys ps) (fun _ => PLAYER_LEFT (playerId cd) (length ps)).
Proof.
  intros Hws Hrc Hne Hg ps s'. subst s'. unfold handleDisconnect. rewrite Hws.
  rewrite bool_decide_false by (rewrite Hrc; congruence).
  rewrite (clientRoom_intro s cd rc r room Hrc Hg). fold ps.
  pose proof Hg as Hg0. apply getRoom_Some in Hg0 as [Hreg Hr].
  set (s2 := updRoom r (set_players ps) s).
  assert (Hg2 : getRoom s2 rc = Some (r, set_players ps room))
    by (apply (getRoom_updRoom s rc r room (set_players ps) Hg)).
  set (s3 := broadcastToRoom rc _ s2).
  destruct (core_fields s2 s3 (broadcastToRoom_core _ _ _))
    as (Hrooms & Hheap & Hcl & Hlb & Hpe & _).
  assert (Hh2 : heap s2 = <[r := set_players ps room]> (heap s))
    by (apply (heap_updRoom r (set_players ps) s room Hr)).
  assert (Hout : outbox s3 = outbox s ++
            deliveries s (map_keys ps)
              (fun _ => PLAYER_LEFT (playerId cd) (length ps)))
    by (unfold s3; by rewrite (broadcastToRoom_outbox rc _ s2 r _ Hg2)).
  destruct (length ps =? 0)%nat; simpl;
    rewrite ?Hrooms, Hheap, Hh2, Hcl, Hlb, Hpe, Hout; done.
Qed.

(** X9.  When a player of a room with other players disconnects, only
    their record leaves the room: the round state (phase, guilty player,
    votes, questions) and the timers stay as they are, whoever leaves and
    however few remain, and each remaining player who has a connection whose
    socket is open is told the new head count; a socket that is not open is
    sent nothing. *)
Theorem player_leaving_keeps_round ws cd rc r room s :
  map_get ws (clients s) = Some cd →
  roomCode cd = Some rc → rc ≠ "" →
  getRoom s rc = Some (r, room) →
  let ps := map_delete (playerId cd) (players room) in
  ps ≠ [] →
  let s' := handleDisconnect ws s in
  getRoom s' rc = Some (r, set_players ps room) ∧
  (∀ r', r' ≠ r → heap s' !! r' = heap s !! r') ∧
  rooms s' = rooms s ∧ pending s' = pending s ∧
  clients s' = map_delete ws (clients s) ∧
  outbox s' = outbox s ++
    deliveries s (map_keys ps) (fun _ => PLAYER_LEFT (playerId cd) (length ps)) ∧
  ∀ w m, (w, m) ∈ drop (length (outbox s)) (outbox s') → w ∉ notOpen s.
Proof.
  intros Hws Hrc Hne Hg ps Hps s'.
  destruct (handleDisconnect_in_room ws cd rc r room s Hws Hrc Hne Hg)
    as (Hheap & Hrooms & Hcl & Hpe & _ & Hout).
  fold ps s' in Hheap, Hrooms, Hcl, Hpe, Hout.
  destruct (length ps =? 0)%nat eqn:Hlen.
  { apply Nat.eqb_eq in Hlen. by destruct ps. }
  apply getRoom_Some in Hg as [Hreg Hr].
  split; [apply getRoom_Some; by rewrite Hrooms, Hheap, lookup_insert_eq|].
  split; [by intros r' Hr'; rewrite Hheap, lookup_insert_ne|].
  do 4 (split; [done|]).
  intros w m. rewrite Hout, drop_app_length. apply deliveries_open.
Qed.

Lemma player_leaving_keeps_round_witness :
  let s := step interrogating (Closing 1) in
  let s' := handleDisconnect 0 s in
  guiltyOf s "AB12" = Some (Some "p1xxxxxxx") ∧
  guiltyOf s' "AB12" = Some (Some "p1xxxxxxx") ∧
  phaseOf s' "AB12" = Some INTERROGATION ∧
  (map_keys ∘ players ∘ snd <$> getRoom s' "AB12") =
    Some ["p2xxxxxxx"; "p3xxxxxxx"; "p4xxxxxxx"] ∧
  pending s' = pending s ∧
  drop (length (outbox s)) (outbox s') =
    [(2%nat, PLAYER_LEFT "p1xxxxxxx" 3); (3%nat, PLAYER_LEFT "p1xxxxxxx" 3)].
Proof.
  intros s s'.
  destruct (player_leaving_keeps_round 0
              (mkClientData "p1xxxxxxx" (Some "AB12") (Some "Ada")) "AB12" 0%nat
              (roomAt s 0) s)
    as (_ & _ & _ & H2 & _ & H3 & _).
  - vm_compute. reflexivity.
  - reflexivity.
  - discriminate.
  - vm_compute. reflexivity.
  - vm_compute. discriminate.
  - split; [vm_compute; reflexivity|].
    split; [vm_compute; reflexivity|]. split; [vm_compute; reflexivity|].
    split; [vm_compute; reflexivity|]. split; [exact H2|].
    fold s' in H3. rewrite H3, drop_app_length. vm_compute. reflexivity.
Defined.

(* closing a connection whose room code is the empty string *)
Lemma handleDisconnect_empty_code ws cd s :
  map_get ws (clients s) = Some cd →
  roomCode cd = Some "" →
  handleDisconnect ws s = set_clients (map_delete ws (clients s)) s.
Proof.
  intros Hws Hrc. unfold handleDisconnect. rewrite Hws.
  by rewrite bool_decide_true.
Qed.

(** X10.  A room created while the random draw leaves the empty room code
    keeps its players for good: when a client creates such a room, joins it
    and then closes its connection, the player record stays in the room and
    the room stays registered, because the close handler tests the client's
    room code for truthiness. *)
Theorem empty_room_code_survives_close ws cd o o' name s :
  map_get ws (clients s) = Some cd →
  generateRoomCode (random1 o) = "" →
  let s1 := step s (Message ws CREATE_ROOM o) in
  let s2 := step s1 (Message ws (JOIN_ROOM "" name) o') in
  let s3 := step s2 (Close ws) in
  ∃ r room, getRoom s3 "" = Some (r, room) ∧
    map_keys (players room) = [playerId cd] ∧
    clients s3 = map_delete ws (clients s2).
Proof.
  intros Hws Hrc s1 s2 s3.
  assert (Hs1 : s1 = createRoom ws cd (random1 o) s)
    by (unfold s1; simpl; unfold handleMessage; by rewrite Hws).
  set (room0 := mkRoom "" (playerId cd) [] emptyGameState (mkTimers None [])).
  assert (Hg1 : getRoom s1 "" = Some (nextRoom s, room0)).
  { rewrite Hs1. unfold getRoom, createRoom. simpl. rewrite Hrc.
    rewrite lookup_insert_eq. simpl. by rewrite lookup_insert_eq. }
  assert (Hws1 : map_get ws (clients s1) = Some cd) by (by rewrite Hs1).
  assert (Hs2 : s2 = joinRoom ws cd "" name s1)
    by (unfold s2; simpl; unfold handleMessage; by rewrite Hws1).
  destruct (joinRoom_accepted ws cd "" name s1 (nextRoom s) room0 Hg1)
    as (Hrooms & Hheap & Hcl & _); [simpl; lia | done |].
  rewrite <- Hs2 in Hrooms, Hheap, Hcl.
  assert (Hws2 : map_get ws (clients s2) = Some (mkClientData (playerId cd) (Some "") (Some name)))
    by (rewrite Hcl; apply map_get_set_eq).
  assert (Hs3 : s3 = set_clients (map_delete ws (clients s2)) (leaveOpen ws s2))
    by (unfold s3; simpl; by apply (handleDisconnect_empty_code ws _ (leaveOpen ws s2) Hws2)).
  apply getRoom_Some in Hg1 as [Hr1 _].
  eexists _, _. split; [|split].
  - apply getRoom_Some. rewrite Hs3. simpl. rewrite Hrooms, Hheap.
    split; [exact Hr1 | apply lookup_insert_eq].
  - done.
  - by rewrite Hs3.
Qed.

Lemma empty_room_code_survives_close_witness :
  let s := run [Connection (sampleRandom 0 "0.p1xxxxxxxxx")] (initial []) in
  let o := mkOracle 0 (mkRandom 0 9 "0" "0") (mkRandom 0 9 "0" "0") in
  run [Message 0 CREATE_ROOM o; Message 0 (JOIN_ROOM "" "Ada") (sampleOracle 1 0)] s
    = emptyCode ∧
  clients (step emptyCode (Close 0)) = [] ∧
  ∃ r room, getRoom (step emptyCode (Close 0)) "" = Some (r, room) ∧
    map_keys (players room) = ["p1xxxxxxx"].
Proof.
  intros s o. split; [reflexivity|]. split; [vm_compute; reflexivity|].
  destruct (empty_room_code_survives_close 0 (mkClientData "p1xxxxxxx" None None) o
              (sampleOracle 1 0) "Ada" s) as (r & room & H1 & H2 & _).
  - vm_compute. reflexivity.
  - vm_compute. reflexivity.
  - exists r, room. split; [exact H1 | exact H2].
Defined.

(** ** X11-X12: votes and messages out of turn *)

Lemma submitVote_accepted cd suspect conf s rc r room :
  clientRoom s cd = Some (rc, r, room) →
  phase (gameState room) = ACCUSATIONS →
  let vote := mkVote suspect (Z.min 3 (Z.max 1 conf)) in
  let room' := upd_gameState (fun g =>
                 set_votes (map_set (playerId cd) vote (votes g)) g) room in
  let s' := submitVote cd suspect conf s in
  getRoom s' rc = Some (r, room') ∧
  outbox s' = outbox s ++
    deliveries s (map_keys (players room)) (fun _ => VOTE_SUBMITTED (playerId cd)).
Proof.
  intros Hc Hph vote room' s'. subst s'. unfold submitVote. rewrite Hc.
  rewrite bool_decide_true by done. cbn [negb]. fold vote.
  apply clientRoom_Some in Hc as [Hrc Hg].
  set (f := upd_gameState _).
  pose proof (getRoom_updRoom s rc r room f Hg) as Hg2.
  set (s2 := updRoom r f s) in *.
  destruct (core_fields s2 (broadcastToRoom rc (VOTE_SUBMITTED (playerId cd)) s2)
              (broadcastToRoom_core _ _ _)) as (Hrooms & Hheap & _).
  split.
  - apply getRoom_Some in Hg2 as [? ?]. apply getRoom_Some. by rewrite Hrooms, Hheap.
  - by rewrite (broadcastToRoom_outbox rc _ s2 r _ Hg2).
Qed.

(** X11.  In ACCUSATIONS a player may vote again: the later vote replaces
    the earlier one, so the room ends up exactly as if only the last vote had
    been cast, with one vote for the voter. *)
Theorem submitVote_last_vote_counts cd suspect1 conf1 suspect2 conf2 s rc r room :
  clientRoom s cd = Some (rc, r, room) →
  phase (gameState room) = ACCUSATIONS →
  ∃ room', getRoom (submitVote cd suspect2 conf2 (submitVote cd suspect1 conf1 s)) rc
             = Some (r, room') ∧
    getRoom (submitVote cd suspect2 conf2 s) rc = Some (r, room') ∧
    map_get (playerId cd) (votes (gameState room')) =
      Some (mkVote suspect2 (Z.min 3 (Z.max 1 conf2))) ∧
    (∀ pid, pid ≠ playerId cd →
       map_get pid (votes (gameState room')) = map_get pid (votes (gameState room))) ∧
    (length (votes (gameState room')) ≤ S (length (votes (gameState room))))%nat.
Proof.
  intros Hc Hph.
  destruct (submitVote_accepted cd suspect1 conf1 s rc r room Hc Hph) as [Hg1 _].
  destruct (submitVote_accepted cd suspect2 conf2 s rc r room Hc Hph) as [Hg2 _].
  pose proof (clientRoom_Some _ _ _ _ _ Hc) as [Hrc _].
  destruct (submitVote_accepted cd suspect2 conf2 _ rc r _
              (clientRoom_intro _ cd rc r _ Hrc Hg1) Hph) as [Hg12 _].
  eexists. split; [|split; [exact Hg2|]].
  - rewrite Hg12. unfold upd_gameState, set_gameState, set_votes. simpl.
    by rewrite map_set_set.
  - simpl. split; [apply map_get_set_eq|].
    split; [|apply length_map_set].
    intros pid Hne. by apply map_get_set_ne.
Qed.

Lemma submitVote_last_vote_counts_witness :
  let cd := mkClientData "p2xxxxxxx" (Some "AB12") (Some "Bob") in
  ∃ room', getRoom (submitVote cd "p3xxxxxxx" 7 accusing) "AB12" = Some (0%nat, room') ∧
    map_get "p2xxxxxxx" (votes (gameState (roomAt accusing 0))) = Some (mkVote "p1xxxxxxx" 2) ∧
    map_get "p2xxxxxxx" (votes (gameState room')) = Some (mkVote "p3xxxxxxx" 3).
Proof.
  intros cd.
  destruct (submitVote_last_vote_counts cd "p1xxxxxxx" 2 "p3xxxxxxx" 7 accusing "AB12" 0%nat
              (roomAt accusing 0)) as (room' & _ & H1 & H2 & _).
  - vm_compute. reflexivity.
  - vm_compute. reflexivity.
  - exists room'. split; [exact H1|]. split; [vm_compute; reflexivity|].
    exact H2.
Defined.

(** X12.  Messages out of turn are dropped without a reply and without any
    change of state: an alibi outside ALIBI_CONSTRUCTION, a question outside
    INTERROGATION or from a player who has asked three already, a vote
    outside ACCUSATIONS. *)
Theorem out_of_turn_messages_are_dropped ws cd s rc r room o :
  map_get ws (clients s) = Some cd →
  clientRoom s cd = Some (rc, r, room) →
  (phase (gameState room) ≠ ALIBI_CONSTRUCTION →
     ∀ alibi, step s (Message ws (SUBMIT_ALIBI alibi) o) = s) ∧
  (phase (gameState room) ≠ INTERROGATION ∨
   (3 ≤ length (filter (fun q => q_from q = playerId cd) (questions (gameState room))))%nat →
     ∀ toId text, step s (Message ws (ASK_QUESTION toId text) o) = s) ∧
  (phase (gameState room) ≠ ACCUSATIONS →
     ∀ suspect conf, step s (Message ws (SUBMIT_VOTE suspect conf) o) = s).
Proof.
  intros Hws Hc. simpl. unfold handleMessage. rewrite Hws.
  split; [|split].
  - intros Hph alibi. unfold submitAlibi. rewrite Hc. by rewrite bool_decide_false.
  - intros Hq toId text. unfold askQuestion. rewrite Hc.
    destruct (decide (phase (gameState room) = INTERROGATION)) as [Hph|Hph].
    + rewrite bool_decide_true by done. cbn [negb].
      destruct Hq as [?|Hq]; [done|]. apply Nat.leb_le in Hq. by rewrite Hq.
    + by rewrite bool_decide_false.
  - intros Hph suspect conf. unfold submitVote. rewrite Hc. by rewrite bool_decide_false.
Qed.

Lemma out_of_turn_messages_are_dropped_witness :
  let o := sampleOracle 35030 0 in
  step interrogating (Message 0 (SUBMIT_ALIBI "At home.") o) = interrogating ∧
  step interrogating (Message 0 (SUBMIT_VOTE "p2xxxxxxx" 3) o) = interrogating.
Proof.
  intros o.
  destruct (out_of_turn_messages_are_dropped 0
              (mkClientData "p1xxxxxxx" (Some "AB12") (Some "Ada")) interrogating "AB12" 0%nat
              (roomAt interrogating 0) o) as (H1 & _ & H2).
  - vm_compute. reflexivity.
  - vm_compute. reflexivity.
  - split; [apply H1 | apply H2]; vm_compute; discriminate.
Defined.

(** ** X13-X15: the leaderboard *)

Lemma insertByScore_perm e l : insertByScore e l ≡ₚ e :: l.
Proof.
  induction l as [|y l IH]; simpl; [done|].
  destruct (entry_score e <? entry_score y)%Z; [|done].
  rewrite IH. apply Permutation_swap.
Qed.

Lemma sortByScore_perm l : sortByScore l ≡ₚ l.
Proof.
  unfold sortByScore. induction l as [|x l IH]; simpl; [done|].
  by rewrite insertByScore_perm, IH.
Qed.

Lemma insertByScore_ranked e l : ranked l → ranked (insertByScore e l).
Proof.
  unfold ranked. induction 1 as [|y l Hl IH Hy]; simpl.
  - repeat constructor.
  - destruct (entry_score e <? entry_score y)%Z eqn:Hlt.
    + apply Z.ltb_lt in Hlt. constructor; [done|].
      rewrite insertByScore_perm. constructor; [unfold byScore; lia | done].
    + apply Z.ltb_ge in Hlt. constructor; [by constructor|].
      constructor; [done|].
      eapply Forall_impl; [exact Hy|]. unfold byScore. intros z Hz. simpl in Hz. lia.
Qed.

Lemma sortByScore_ranked l : ranked (sortByScore l).
Proof.
  unfold sortByScore. induction l as [|x l IH]; simpl; [constructor|].
  by apply insertByScore_ranked.
Qed.

Lemma ranked_app l1 l2 :
  ranked (l1 ++ l2) → ranked l1 ∧ ranked l2 ∧ ∀ a b, a ∈ l1 → b ∈ l2 → byScore a b.
Proof.
  unfold ranked. induction l1 as [|x l1 IH]; simpl; intros H.
  - split; [constructor|]. split; [done|]. by intros a b ?%elem_of_nil.
  - apply StronglySorted_inv in H as [H Hx]. destruct (IH H) as (H1 & H2 & H3).
    apply Forall_app in Hx as [Hx1 Hx2]. split; [by constructor|]. split; [done|].
    intros a b [->|Ha]%elem_of_cons Hb; [|by apply H3].
    by apply (proj1 (Forall_forall _ _) Hx2).
Qed.

Lemma foldl_send_outbox m l s :
  outbox (foldl (fun s ws => send ws m s) s l) =
  outbox s ++ map (fun ws => (ws, m)) (filter (fun ws => ws ∉ notOpen s) l) ∧
  notOpen (foldl (fun s ws => send ws m s) s l) = notOpen s.
Proof.
  revert s. induction l as [|ws l IH]; intros s; simpl; [by rewrite app_nil_r|].
  destruct (IH (send ws m s)) as [-> ->]. split; [|done].
  change (notOpen (send ws m s)) with (notOpen s). simpl.
  rewrite <- app_assoc. f_equal.
  destruct (decide (ws ∈ notOpen s)) as [Hin|Hin].
  - rewrite bool_decide_true by done. by rewrite filter_cons_False by (by intros ?).
  - rewrite bool_decide_false by done. by rewrite filter_cons_True by done.
Qed.

Lemma broadcastLeaderboard_sends s :
  outbox (broadcastLeaderboard s) =
  outbox s ++ map (fun ws => (ws, LEADERBOARD_UPDATE (take 10 (leaderboard s))))
                (openClients s).
Proof. unfold broadcastLeaderboard. apply foldl_send_outbox. Qed.

(** X13.  addToLeaderboard keeps the hundred best entries, best first: the
    new leaderboard is the front of a ranked rearrangement of the old entries
    and the new one, so no entry that is dropped has a better score than one
    that is kept.  Every connection whose socket is open, in a room or not,
    is then sent the first ten entries, in the order of the client table; a
    connection whose socket is not open is sent nothing; and nothing else of
    the server changes. *)
Theorem addToLeaderboard_keeps_the_best name sc now s :
  let s' := addToLeaderboard name sc now s in
  let lb' := leaderboard s' in
  ranked lb' ∧
  length lb' = Nat.min 100 (S (length (leaderboard s))) ∧
  (∃ dropped, lb' ++ dropped ≡ₚ leaderboard s ++ [mkEntry name sc now] ∧
     ∀ a b, a ∈ lb' → b ∈ dropped → (entry_score b ≤ entry_score a)%Z) ∧
  ncore s' = ncore s ∧
  outbox s' = outbox s ++
    map (fun ws => (ws, LEADERBOARD_UPDATE (take 10 lb')))
      (openClients s).
Proof.
  intros s' lb'.
  assert (Hlb : lb' = take 100 (sortByScore (leaderboard s ++ [mkEntry name sc now]))).
  { unfold lb', s', addToLeaderboard.
    by destruct (core_fields _ _ (broadcastLeaderboard_core
         (set_leaderboard (take 100 (sortByScore (leaderboard s ++ [mkEntry name sc now]))) s)))
      as (_ & _ & _ & -> & _). }
  set (sorted := sortByScore (leaderboard s ++ [mkEntry name sc now])) in *.
  assert (Hr : ranked (take 100 sorted ++ drop 100 sorted))
    by (rewrite take_drop; apply sortByScore_ranked).
  apply ranked_app in Hr as (Hr1 & _ & Hr3).
  split; [by rewrite Hlb|].
  split.
  { rewrite Hlb, length_take. unfold sorted.
    rewrite (Permutation_length (sortByScore_perm _)), length_app.
    change (length [mkEntry name sc now]) with 1%nat. lia. }
  split.
  { exists (drop 100 sorted). rewrite Hlb, take_drop. split; [apply sortByScore_perm|].
    intros a b Ha Hb. by apply Hr3. }
  split; [apply addToLeaderboard_ncore|].
  unfold s', addToLeaderboard. rewrite broadcastLeaderboard_sends. simpl.
  by rewrite Hlb.
Qed.

Lemma lb_core s s' : core s' = core s → leaderboard s' = leaderboard s.
Proof. unfold core. intros H. congruence. Qed.

Lemma lb_dcore s s' : dcore s' = dcore s → leaderboard s' = leaderboard s.
Proof. unfold dcore. intros H. congruence. Qed.

Lemma lb_startPhase rc ph d now s :
  leaderboard (startPhase rc ph d now s) = leaderboard s.
Proof.
  destruct (getRoom s rc) as [[r room]|] eqn:Hg.
  - by rewrite (lb_dcore _ _ (startPhase_dcore rc ph d now s r room Hg)).
  - unfold startPhase. by rewrite Hg.
Qed.

Lemma lb_startGame rc o s : leaderboard (startGame rc o s) = leaderboard s.
Proof.
  unfold startGame. destruct (getRoom s rc) as [[r room]|]; [|done].
  destruct (_ <? 4)%nat; [done|]. by rewrite lb_startPhase.
Qed.

Lemma lb_joinRoom ws cd rc name s : leaderboard (joinRoom ws cd rc name s) = leaderboard s.
Proof.
  unfold joinRoom. destruct (getRoom s rc) as [[r room]|]; [|done].
  destruct (8 <=? length (players room))%nat; [done|].
  destruct (negb _); [done|].
  match goal with |- context [heap ?x !! r] => destruct (heap x !! r) end.
  - change (leaderboard (send ?w ?m ?x)) with (leaderboard x).
    by rewrite (lb_core _ _ (broadcastToRoom_core _ _ _)).
  - by rewrite (lb_core _ _ (broadcastToRoom_core _ _ _)).
Qed.

Lemma lb_handleMessage ws m o s :
  leaderboard (handleMessage ws m o s) = leaderboard s.
Proof.
  unfold handleMessage. destruct (map_get ws (clients s)) as [cd|]; [|done].
  destruct m; try done.
  - apply lb_joinRoom.
  - destruct (roomCode cd); [apply lb_startGame | done].
  - unfold submitAlibi. destruct (clientRoom s cd) as [[[rc r] room]|]; [|done].
    destruct (negb _); [done|]. by rewrite (lb_core _ _ (broadcastToRoom_core _ _ _)).
  - unfold askQuestion. destruct (clientRoom s cd) as [[[rc r] room]|]; [|done].
    destruct (negb _); [done|]. destruct (3 <=? _)%nat; [done|].
    by rewrite (lb_core _ _ (broadcastToRoom_core _ _ _)).
  - unfold answerQuestion. destruct (clientRoom s cd) as [[[rc r] room]|]; [|done].
    destruct (findQuestion _ _); [|done]. destruct (_ || _); [done|].
    by rewrite (lb_core _ _ (broadcastToRoom_core _ _ _)).
  - unfold submitVote. destruct (clientRoom s cd) as [[[rc r] room]|]; [|done].
    destruct (negb _); [done|]. by rewrite (lb_core _ _ (broadcastToRoom_core _ _ _)).
Qed.

Lemma lb_handleDisconnect ws s : leaderboard (handleDisconnect ws s) = leaderboard s.
Proof.
  unfold handleDisconnect. destruct (map_get ws (clients s)) as [cd|]; [|done].
  change (leaderboard (set_clients ?c ?x)) with (leaderboard x).
  destruct (if bool_decide _ then None else clientRoom s cd) as [[[rc r] room]|]; [|done].
  destruct (_ =? 0)%nat.
  - change (leaderboard (set_rooms ?c ?x)) with (leaderboard x).
    by rewrite (lb_core _ _ (broadcastToRoom_core _ _ _)).
  - by rewrite (lb_core _ _ (broadcastToRoom_core _ _ _)).
Qed.

Section Leaderboard.
Variable P : list LeaderboardEntry → Prop.
Hypothesis P_add : ∀ lb name sc now,
  (0 < sc)%Z → P lb → P (take 100 (sortByScore (lb ++ [mkEntry name sc now]))).

Lemma lb_addToLeaderboard name sc now s :
  (0 < sc)%Z → P (leaderboard s) → P (leaderboard (addToLeaderboard name sc now s)).
Proof.
  intros Hsc HP. unfold addToLeaderboard.
  rewrite (lb_core _ _ (broadcastLeaderboard_core _)). simpl. by apply P_add.
Qed.

Lemma lb_calculateResults rc now s :
  P (leaderboard s) → P (leaderboard (calculateResults rc now s)).
Proof.
  intros HP. unfold calculateResults. destruct (getRoom s rc) as [[r room]|]; [|done].
  apply (foldl_preserve (fun s' => P (leaderboard s'))); [|done].
  intros a p Ha. unfold submitScore. destruct (0 <? score p)%Z eqn:Hs; [|done].
  apply Z.ltb_lt in Hs. by apply lb_addToLeaderboard.
Qed.

Lemma lb_advancePhase rc now s :
  P (leaderboard s) → P (leaderboard (advancePhase rc now s)).
Proof.
  intros HP. unfold advancePhase. destruct (getRoom s rc) as [[r room]|]; [|done].
  destruct (indexOf _ _) as [i|]; [|done].
  set (s1 := if decide (Some i = indexOf ACCUSATIONS phaseSequence)
             then calculateResults rc now s else s).
  assert (H1 : P (leaderboard s1))
    by (subst s1; destruct (decide _); [by apply lb_calculateResults | done]).
  destruct (i <? length phaseSequence - 1)%nat.
  - destruct (phaseSequence !! S i); [by rewrite lb_startPhase | done].
  - by rewrite (lb_core _ _ (broadcastPhaseUpdate_core _ _)).
Qed.

Lemma lb_step s e : P (leaderboard s) → P (leaderboard (step s e)).
Proof.
  intros HP. destruct e as [rnd|ws m o|ws|tid o|ws]; simpl;
    [| | | |destruct (map_get ws (clients s)); exact HP].
  - exact HP.
  - by rewrite lb_handleMessage.
  - by rewrite lb_handleDisconnect.
  - destruct (pending s !! tid) as [t|]; [|done].
    destruct (callback t) as [rc|r rc ev]; simpl.
    + by apply lb_advancePhase.
    + by rewrite (lb_core _ _ (broadcastToRoom_core _ _ _)).
Qed.

Lemma lb_run evs s : P (leaderboard s) → P (leaderboard (run evs s)).
Proof. revert s. induction evs as [|e evs IH]; intros s Hs; simpl; [done|]. by apply IH, lb_step. Qed.

End Leaderboard.

Lemma ranked_take n l : ranked l → ranked (take n l).
Proof.
  intros H. rewrite <- (take_drop n l) in H. by apply ranked_app in H as (? & _).
Qed.

(** X14.  Whatever happens, an entry of the leaderboard is either one that
    was read from the file at start-up or has a positive score: a player who
    ends a round at score 0 is not recorded.  And if the file was ranked and
    had at most 100 entries, so is the leaderboard at every moment. *)
Theorem leaderboard_stays_ranked lb evs :
  let l := leaderboard (run evs (initial lb)) in
  (∀ e, e ∈ l → e ∈ lb ∨ (0 < entry_score e)%Z) ∧
  (ranked lb → (length lb ≤ 100)%nat → ranked l ∧ (length l ≤ 100)%nat).
Proof.
  intros l. split.
  - apply (lb_run (fun l => ∀ e, e ∈ l → e ∈ lb ∨ (0 < entry_score e)%Z)); [|by left].
    intros lb0 name sc now Hsc IH e He.
    apply elem_of_take in He as (i & He & _). apply list_elem_of_lookup_2 in He.
    rewrite sortByScore_perm in He. apply elem_of_app in He as [He|He]; [by apply IH|].
    apply list_elem_of_singleton in He as ->. by right.
  - intros Hr Hlen.
    apply (lb_run (fun l => ranked l ∧ (length l ≤ 100)%nat)); [|done].
    intros lb0 name sc now _ _. split.
    + apply ranked_take, sortByScore_ranked.
    + rewrite length_take. lia.
Qed.

Lemma leaderboard_stays_ranked_witness :
  let lb := [mkEntry "Zoe" 450 0; mkEntry "Yan" 250 0] in
  let l := leaderboard (run (accusingEvents ++ [Timeout 5 (sampleOracle 85010 0)]) (initial lb)) in
  map (fun e => (entry_name e, entry_score e)) l =
    [("Zoe", 450); ("Ada", 300); ("Yan", 250); ("Bob", 200)]%Z ∧
  ranked l ∧ (length l ≤ 100)%nat.
Proof.
  intros lb l. split; [vm_compute; reflexivity|].
  apply (leaderboard_stays_ranked lb
           (accusingEvents ++ [Timeout 5 (sampleOracle 85010 0)])).
  - repeat constructor; unfold byScore; simpl; lia.
  - simpl. lia.
Defined.

Lemma insertByScore_front y l :
  Forall (byScore y) l → insertByScore y l = y :: l.
Proof.
  destruct 1 as [|z l Hz _]; simpl; [done|].
  unfold byScore in Hz. by rewrite (proj2 (Z.ltb_ge _ _) Hz).
Qed.

Lemma filter_all {A} (Q : A → Prop) `{∀ x, Decision (Q x)} (l : list A) :
  Forall Q l → filter Q l = l.
Proof.
  induction 1 as [|x l Hx _ IH]; [done|]. by rewrite filter_cons_True, IH.
Qed.

Lemma filter_none {A} (Q : A → Prop) `{∀ x, Decision (Q x)} (l : list A) :
  Forall (fun x => ¬ Q x) l → filter Q l = [].
Proof.
  induction 1 as [|x l Hx _ IH]; [done|]. by rewrite filter_cons_False, IH.
Qed.

(* the stable sort puts a pushed entry behind the entries it does not beat *)
Lemma sortByScore_push e l :
  ranked l →
  sortByScore (l ++ [e]) =
    filter (fun x => (entry_score e ≤ entry_score x)%Z) l ++
    e :: filter (fun x => (entry_score x < entry_score e)%Z) l.
Proof.
  unfold sortByScore. rewrite foldr_app. simpl.
  induction 1 as [|y l Hl IH Hy]; [done|]. simpl. rewrite IH.
  destruct (decide (entry_score e ≤ entry_score y)%Z) as [Hle|Hlt].
  - rewrite filter_cons_True by done. rewrite filter_cons_False by lia.
    apply insertByScore_front. apply Forall_app. split.
    + apply Forall_forall. intros z [_ Hz]%list_elem_of_filter.
      by apply (proj1 (Forall_forall _ _) Hy).
    + constructor; [exact Hle|].
      apply Forall_forall. intros z [_ Hz]%list_elem_of_filter.
      by apply (proj1 (Forall_forall _ _) Hy).
  - rewrite filter_cons_False by done. rewrite filter_cons_True by lia.
    assert (Hall : Forall (fun x => (entry_score x < entry_score e)%Z) l).
    { eapply Forall_impl; [exact Hy|]. unfold byScore. intros z Hz. simpl in Hz. lia. }
    rewrite (filter_none (fun x => (entry_score e ≤ entry_score x)%Z) l).
    2:{ eapply Forall_impl; [exact Hall|]. intros z Hz. simpl in Hz. lia. }
    rewrite (filter_all _ l Hall). simpl.
    rewrite (proj2 (Z.ltb_lt (entry_score y) (entry_score e))) by lia.
    by rewrite insertByScore_front.
Qed.

(** X15.  On a ranked leaderboard a new entry is placed behind every entry
    with the same or a better score and before the entries it beats; the
    first hundred are kept.  So a score has to beat the hundredth entry to get
    onto a full board: with a tie the board stays as it is. *)
Theorem new_entry_goes_behind_equal_scores name sc now s :
  ranked (leaderboard s) →
  let old := leaderboard s in
  let lb' := leaderboard (addToLeaderboard name sc now s) in
  lb' = take 100 (filter (fun x => (sc ≤ entry_score x)%Z) old ++
                  mkEntry name sc now :: filter (fun x => (entry_score x < sc)%Z) old) ∧
  ((100 ≤ length old)%nat → Forall (fun x => (sc ≤ entry_score x)%Z) (take 100 old) →
   lb' = take 100 old).
Proof.
  intros Hr old lb'.
  assert (Hlb : lb' = take 100 (sortByScore (old ++ [mkEntry name sc now]))).
  { unfold lb', addToLeaderboard.
    by rewrite (lb_core _ _ (broadcastLeaderboard_core _)). }
  rewrite (sortByScore_push (mkEntry name sc now) old Hr) in Hlb. simpl in Hlb.
  split; [exact Hlb|].
  intros Hlen Hall. rewrite Hlb.
  rewrite <- (take_drop 100 old) at 1. rewrite filter_app.
  rewrite (filter_all _ (take 100 old) Hall), <- app_assoc.
  rewrite take_app_le by (rewrite length_take; lia).
  rewrite take_ge by (rewrite length_take; lia). done.
Qed.

Lemma new_entry_goes_behind_equal_scores_witness :
  let s := set_leaderboard [mkEntry "Zoe" 300 0; mkEntry "Yan" 200 0] accusing in
  map entry_name (leaderboard (addToLeaderboard "Ada" 300 85010 s)) = ["Zoe"; "Ada"; "Yan"].
Proof.
  intros s.
  destruct (new_entry_goes_behind_equal_scores "Ada" 300 85010 s) as [H _].
  - repeat constructor; unfold byScore; simpl; lia.
  - rewrite H. vm_compute. reflexivity.
Defined.

(** ** X16: evidence *)

Lemma eview_lookup s r room :
  heap s !! r = Some room → eview s !! r = Some (evidenceFields room).
Proof. intros H. unfold eview. by rewrite lookup_fmap, H. Qed.

Lemma eview_lookup_inv s r x :
  eview s !! r = Some x → ∃ room, heap s !! r = Some room ∧ evidenceFields room = x.
Proof.
  unfold eview. rewrite lookup_fmap. destruct (heap s !! r) as [room|]; simpl; [|done].
  intros [= <-]. eauto.
Qed.

Lemma eview_updRoom_ne r r' f s : r' ≠ r → eview (updRoom r f s) !! r' = eview s !! r'.
Proof. intros Hne. unfold eview, updRoom. simpl. by rewrite !lookup_fmap, lookup_alter_ne. Qed.

Lemma eview_updRoom_eq r f s :
  eview (updRoom r f s) !! r = evidenceFields ∘ f <$> heap s !! r.
Proof.
  unfold eview, updRoom. simpl. rewrite !lookup_fmap, lookup_alter_eq.
  by destruct (heap s !! r).
Qed.

Lemma eview_updRoom r f s :
  (∀ room, evidenceFields (f room) = evidenceFields room) → eview (updRoom r f s) = eview s.
Proof.
  intros Hf. apply map_eq. intros i. destruct (decide (i = r)) as [->|Hne].
  - rewrite eview_updRoom_eq. unfold eview. rewrite lookup_fmap.
    destruct (heap s !! r); simpl; [|done]. by rewrite Hf.
  - by apply eview_updRoom_ne.
Qed.

Lemma core_eview s s' : core s' = core s → eview s' = eview s.
Proof. intros H. apply core_fields in H as (_ & H & _). unfold eview. by rewrite H. Qed.

Lemma dview_eview s s' : dview s' = dview s → eview s' = eview s.
Proof.
  intros H. apply map_eq. intros i.
  assert (Hi : dview s' !! i = dview s !! i) by (by rewrite H).
  unfold dview, eview in *. rewrite !lookup_fmap in *.
  destruct (heap s' !! i) as [room'|], (heap s !! i) as [room|]; simpl in *; try done.
  assert (Hd : dataOf room' = dataOf room) by congruence.
  apply dataOf_fields in Hd as (_ & _ & _ & Hg).
  unfold evidenceFields. by rewrite Hg.
Qed.

Lemma tview_pending s s' : tview s' = tview s → pending s' = pending s.
Proof. unfold tview. intros H. congruence. Qed.

Lemma evidenceInv_view s s' :
  eview s' = eview s → pending s' = pending s → evidenceInv s → evidenceInv s'.
Proof.
  intros He Hp [H1 H2]. split.
  - intros tid t. rewrite Hp. intros Ht. specialize (H1 tid t Ht).
    unfold revealOk in *. by rewrite He.
  - unfold shownOk. by rewrite He.
Qed.

Lemma eview_calculateResults rc now s : eview (calculateResults rc now s) = eview s.
Proof.
  destruct (getRoom s rc) as [[r room]|] eqn:Hg.
  - rewrite (dview_eview _ _ (ncore_dview _ _ (calculateResults_ncore rc now s r room Hg))).
    apply getRoom_Some in Hg as [_ Hh]. apply map_eq. intros i.
    unfold eview, storeRoom. simpl. rewrite !lookup_fmap.
    destruct (decide (i = r)) as [->|Hne].
    + by rewrite lookup_insert_eq, Hh.
    + by rewrite lookup_insert_ne.
  - unfold calculateResults. by rewrite Hg.
Qed.

Lemma eview_joinRoom ws cd rc name s : eview (joinRoom ws cd rc name s) = eview s.
Proof.
  unfold joinRoom. destruct (getRoom s rc) as [[r room]|]; [|done].
  destruct (8 <=? length (players room))%nat; [done|].
  destruct (negb _); [done|].
  match goal with |- context [heap ?x !! r] => destruct (heap x !! r) end.
  - change (eview (send ?w ?m ?x)) with (eview x).
    rewrite (core_eview _ _ (broadcastToRoom_core _ _ _)).
    by rewrite eview_updRoom.
  - rewrite (core_eview _ _ (broadcastToRoom_core _ _ _)).
    by rewrite eview_updRoom.
Qed.

Lemma eview_handleDisconnect ws s : eview (handleDisconnect ws s) = eview s.
Proof.
  unfold handleDisconnect. destruct (map_get ws (clients s)) as [cd|]; [|done].
  change (eview (set_clients ?c ?x)) with (eview x).
  destruct (if bool_decide _ then None else clientRoom s cd) as [[[rc r] room]|]; [|done].
  destruct (_ =? 0)%nat.
  - change (eview (set_rooms ?c ?x)) with (eview x).
    rewrite (core_eview _ _ (broadcastToRoom_core _ _ _)). by rewrite eview_updRoom.
  - rewrite (core_eview _ _ (broadcastToRoom_core _ _ _)). by rewrite eview_updRoom.
Qed.

Lemma clearTimers_pending r tm s tid t :
  pending (clearTimers r tm s) !! tid = Some t → pending s !! tid = Some t.
Proof.
  unfold clearTimers. simpl. intros [Ht _]%foldl_clearTimeout_pending.
  destruct (phaseTimer tm); [|done]. simpl in Ht.
  by apply lookup_delete_Some in Ht as [_ ?].
Qed.

Lemma armPhaseTimer_pending r rc d s tid t :
  pending (armPhaseTimer r rc d s) !! tid = Some t →
  pending s !! tid = Some t ∨ callback t = CbAdvancePhase rc.
Proof.
  unfold armPhaseTimer. destruct (truthyDuration d) as [d'|]; [|by left]. simpl.
  intros [[_ <-]|[_ ?]]%lookup_insert_Some; [by right | by left].
Qed.

Lemma foldl_armEvidence_pending r rc l s tid t :
  pending (foldl (armEvidence r rc) s l) !! tid = Some t →
  pending s !! tid = Some t ∨
  ∃ ev, ev ∈ l ∧ t = mkTimer r (revealTime ev * 1000) (CbRevealEvidence r rc ev).
Proof.
  revert s. induction l as [|ev l IH]; intros s; simpl; [by left|].
  intros [Ht|(ev' & Hev & ->)]%IH.
  - unfold armEvidence in Ht. simpl in Ht.
    apply lookup_insert_Some in Ht as [[_ <-]|[_ ?]]; [|by left].
    right. exists ev. split; [apply list_elem_of_here | done].
  - right. exists ev'. split; [by apply list_elem_of_further | done].
Qed.

Lemma armEvidenceTimers_pending r rc ph c s tid t :
  pending (armEvidenceTimers r rc ph c s) !! tid = Some t →
  pending s !! tid = Some t ∨
  ph = INTERROGATION ∧
  ∃ c0 ev, c = Some c0 ∧ ev ∈ evidence c0 ∧
    t = mkTimer r (revealTime ev * 1000) (CbRevealEvidence r rc ev).
Proof.
  unfold armEvidenceTimers. destruct ph; try (by left). destruct c as [c0|]; [|by left].
  intros [?|(ev & ? & ?)]%foldl_armEvidence_pending; [by left|].
  right. split; [done|]. by exists c0, ev.
Qed.

Lemma evidenceInv_startPhase rc ph d now s r room :
  timersOk s → getRoom s rc = Some (r, room) → evidenceInvBut r s →
  evidenceInv (startPhase rc ph d now s).
Proof.
  intros Hok Hg [Ha Hb].
  pose proof (startPhase_dcore rc ph d now s r room Hg) as Hd.
  assert (Hev : eview (startPhase rc ph d now s) =
                eview (updRoom r (upd_gameState (fun g =>
                         set_phaseStartTime (Some now) (set_phase ph g))) s))
    by (apply dview_eview; unfold dcore in Hd; congruence).
  pose proof Hg as Hg0. apply getRoom_Some in Hg0 as [_ Hroom].
  assert (Hr : eview (startPhase rc ph d now s) !! r =
               Some (ph, crime (gameState room), currentEvidence (gameState room)))
    by (rewrite Hev, eview_updRoom_eq, Hroom; done).
  assert (Hne : ∀ r', r' ≠ r → eview (startPhase rc ph d now s) !! r' = eview s !! r')
    by (intros r' Hr'; rewrite Hev; by apply eview_updRoom_ne).
  assert (Hpend : ∀ tid t, pending (startPhase rc ph d now s) !! tid = Some t →
            (pending s !! tid = Some t ∧ owner t ≠ r) ∨
            callback t = CbAdvancePhase rc ∨
            (ph = INTERROGATION ∧ ∃ c0 ev, crime (gameState room) = Some c0 ∧
               ev ∈ evidence c0 ∧
               t = mkTimer r (revealTime ev * 1000) (CbRevealEvidence r rc ev))).
  { intros tid t. unfold startPhase. rewrite Hg.
    set (f := upd_gameState _). set (s1 := updRoom r f s).
    assert (Hok1 : timersOk s1) by (apply (timersOk_tview s); [by apply tview_updRoom | done]).
    assert (Hroom1 : heap s1 !! r = Some (f room))
      by (unfold s1, updRoom; simpl; by rewrite lookup_alter_eq, Hroom).
    destruct (clearTimers_noneArmed r (f room) s1 Hok1 Hroom1) as (_ & Hnone & _).
    change (timers (f room)) with (timers room) in Hnone.
    set (s2 := clearTimers r (timers room) s1) in *.
    intros [Ht|Ht]%armEvidenceTimers_pending; [|by right; right].
    apply armPhaseTimer_pending in Ht as [Ht|Ht]; [|by right; left].
    destruct (core_fields _ _ (broadcastPhaseUpdate_core rc s2)) as (_ & _ & _ & _ & Hp & _).
    rewrite Hp in Ht. pose proof (Hnone tid t Ht) as Ho.
    apply clearTimers_pending in Ht. by left. }
  split.
  - intros tid t Hp. destruct (Hpend tid t Hp) as [[Ht Ho]|[Ht|(-> & c0 & ev & Hc & Hin & ->)]].
    + specialize (Ha tid t Ht Ho). unfold revealOk in *.
      destruct (callback t) as [|r' rc' ev]; [done|].
      destruct Ha as (-> & Ha). split; [done|]. by rewrite Hne.
    + unfold revealOk. by rewrite Ht.
    + unfold revealOk. simpl. split; [done|].
      exists c0, (currentEvidence (gameState room)). split; [|done]. by rewrite Hr, Hc.
  - intros r' ph' c shown Hl ev Hin. destruct (decide (r' = r)) as [->|Hr'].
    + rewrite Hr in Hl. injection Hl as <- <- <-.
      apply (Hb r (phase (gameState room)) (crime (gameState room))
               (currentEvidence (gameState room))); [|done].
      by apply eview_lookup.
    + rewrite (Hne r' Hr') in Hl. by apply (Hb r' ph' c shown).
Qed.

Lemma evidenceInv_But r s : evidenceInv s → evidenceInvBut r s.
Proof. intros [Ha Hb]. split; [|done]. intros tid t Ht _. by apply (Ha tid). Qed.

Lemma evidenceInv_startGame rc o s : timersOk s → evidenceInv s → evidenceInv (startGame rc o s).
Proof.
  intros Hok [Ha Hb]. unfold startGame.
  destruct (getRoom s rc) as [[r room]|] eqn:Hg; [|done].
  destruct (_ <? 4)%nat; [done|].
  set (f := upd_gameState _).
  apply (evidenceInv_startPhase rc SETUP _ _ _ r (f room)).
  - apply (timersOk_tview s); [by apply tview_updRoom | done].
  - by apply getRoom_updRoom.
  - pose proof Hg as Hg0. apply getRoom_Some in Hg0 as [_ Hroom]. split.
    + intros tid t Ht Ho. change (pending (updRoom r f s)) with (pending s) in Ht.
      specialize (Ha tid t Ht). unfold revealOk in *.
      destruct (callback t) as [|r' rc' ev]; [done|].
      destruct Ha as (-> & Ha). split; [done|]. by rewrite eview_updRoom_ne.
    + intros r' ph c shown Hl ev Hin. destruct (decide (r' = r)) as [->|Hr'].
      * rewrite eview_updRoom_eq, Hroom in Hl. simpl in Hl. injection Hl as <- <- <-.
        by apply elem_of_nil in Hin.
      * rewrite eview_updRoom_ne in Hl by done. by apply (Hb r' ph c shown).
Qed.

Lemma evidenceInv_advancePhase rc now s :
  timersOk s → evidenceInv s → evidenceInv (advancePhase rc now s).
Proof.
  intros Hok Hinv. unfold advancePhase.
  destruct (getRoom s rc) as [[r room]|] eqn:Hg; [|done].
  destruct (indexOf _ _) as [i|] eqn:Hi; [|done].
  set (s1 := if decide (Some i = indexOf ACCUSATIONS phaseSequence)
             then calculateResults rc now s else s).
  assert (Htv : tview s1 = tview s)
    by (subst s1; destruct (decide _); [apply tview_calculateResults | done]).
  assert (Hev : eview s1 = eview s)
    by (subst s1; destruct (decide _); [apply eview_calculateResults | done]).
  assert (Hok1 : timersOk s1) by (by apply (timersOk_tview s)).
  assert (Hinv1 : evidenceInv s1)
    by (apply (evidenceInv_view s); [done | by apply tview_pending | done]).
  destruct (i <? length phaseSequence - 1)%nat eqn:Hlt.
  - destruct (phaseSequence !! S i) as [nextPh|]; [|done].
    destruct (getRoom s1 rc) as [[r1 room1]|] eqn:Hg1.
    + apply (evidenceInv_startPhase rc nextPh _ _ _ r1 room1); [done | done|].
      by apply evidenceInv_But.
    + unfold startPhase. by rewrite Hg1.
  - assert (Hph : phase (gameState room) = RESULTS).
    { destruct (phase (gameState room)); simpl in Hi; try done;
        injection Hi as <-; done. }
    apply getRoom_Some in Hg as [_ Hroom].
    assert (Hr1 : ∃ shown c, eview s1 !! r = Some (RESULTS, c, shown)).
    { rewrite Hev, (eview_lookup s r room Hroom). unfold evidenceFields. rewrite Hph. eauto. }
    destruct Hr1 as (shown1 & c1 & Hr1).
    destruct Hinv1 as [Ha Hb].
    set (f := upd_gameState _).
    apply (evidenceInv_view (updRoom r f s1));
      [apply core_eview, broadcastPhaseUpdate_core
      | by destruct (core_fields _ _ (broadcastPhaseUpdate_core rc (updRoom r f s1)))
          as (_ & _ & _ & _ & ? & _) |].
    split.
    + intros tid t Ht. change (pending (updRoom r f s1)) with (pending s1) in Ht.
      specialize (Ha tid t Ht). unfold revealOk in *.
      destruct (callback t) as [|r' rc' ev]; [done|].
      destruct Ha as (-> & c & shown & Hl & Hin). split; [done|].
      destruct (decide (owner t = r)) as [Heq|Hne].
      * rewrite Heq, Hr1 in Hl. done.
      * exists c, shown. by rewrite eview_updRoom_ne.
    + intros r' ph c shown Hl ev Hin. destruct (decide (r' = r)) as [->|Hr'].
      * rewrite eview_updRoom_eq in Hl.
        destruct (eview_lookup_inv s1 r _ Hr1) as (room1 & Hroom1 & Hf1).
        rewrite Hroom1 in Hl. simpl in Hl. injection Hl as <- <- <-.
        apply (Hb r (phase (gameState room1)) (crime (gameState room1))
                 (currentEvidence (gameState room1))); [by apply eview_lookup | done].
      * rewrite eview_updRoom_ne in Hl by done. by apply (Hb r' ph c shown).
Qed.

Lemma evidenceInv_handleMessage ws m o s :
  timersOk s → evidenceInv s → evidenceInv (handleMessage ws m o s).
Proof.
  intros Hok Hinv. unfold handleMessage. destruct (map_get ws (clients s)) as [cd|]; [|done].
  destruct m.
  - destruct Hok as [_ Hfresh]. destruct Hinv as [Ha Hb].
    assert (Hnew : heap s !! nextRoom s = None).
    { destruct (heap s !! nextRoom s) as [room|] eqn:Hh; [|done].
      apply Hfresh in Hh. lia. }
    assert (Hne : ∀ r x, eview s !! r = Some x →
              eview (createRoom ws cd (random1 o) s) !! r = Some x).
    { intros r x Hx. unfold eview, createRoom. simpl. rewrite lookup_fmap.
      rewrite lookup_insert_ne; [by rewrite <- lookup_fmap|].
      intros <-. unfold eview in Hx. by rewrite lookup_fmap, Hnew in Hx. }
    split.
    + intros tid t Ht. change (pending (createRoom ws cd (random1 o) s)) with (pending s) in Ht.
      specialize (Ha tid t Ht). unfold revealOk in *.
      destruct (callback t) as [|r' rc' ev]; [done|].
      destruct Ha as (-> & c & shown & Hl & Hin). split; [done|].
      exists c, shown. split; [by apply Hne | done].
    + intros r ph c shown Hl ev Hin. unfold eview, createRoom in Hl. simpl in Hl.
      rewrite lookup_fmap in Hl. apply fmap_Some in Hl as (room & Hroom & Hf).
      apply lookup_insert_Some in Hroom as [[_ <-]|[_ Hroom]].
      * injection Hf as _ _ ->. by apply elem_of_nil in Hin.
      * apply (Hb r ph c shown); [|done]. unfold eview. by rewrite lookup_fmap, Hroom, Hf.
  - apply (evidenceInv_view s); [apply eview_joinRoom | apply tview_pending, tview_joinRoom | done].
  - destruct (roomCode cd); [by apply evidenceInv_startGame | done].
  - apply (evidenceInv_view s); [|apply tview_pending, tview_submitAlibi | done].
    unfold submitAlibi. destruct (clientRoom s cd) as [[[rc r] room]|]; [|done].
    destruct (negb _); [done|].
    rewrite (core_eview _ _ (broadcastToRoom_core _ _ _)). by rewrite eview_updRoom.
  - apply (evidenceInv_view s); [|apply tview_pending, tview_askQuestion | done].
    unfold askQuestion. destruct (clientRoom s cd) as [[[rc r] room]|]; [|done].
    destruct (negb _); [done|]. destruct (3 <=? _)%nat; [done|].
    rewrite (core_eview _ _ (broadcastToRoom_core _ _ _)). by rewrite eview_updRoom.
  - apply (evidenceInv_view s); [|apply tview_pending, tview_answerQuestion | done].
    unfold answerQuestion. destruct (clientRoom s cd) as [[[rc r] room]|]; [|done].
    destruct (findQuestion _ _); [|done]. destruct (_ || _); [done|].
    rewrite (core_eview _ _ (broadcastToRoom_core _ _ _)). by rewrite eview_updRoom.
  - apply (evidenceInv_view s); [|apply tview_pending, tview_submitVote | done].
    unfold submitVote. destruct (clientRoom s cd) as [[[rc r] room]|]; [|done].
    destruct (negb _); [done|].
    rewrite (core_eview _ _ (broadcastToRoom_core _ _ _)). by rewrite eview_updRoom.
  - done.
Qed.

Lemma evidenceInv_step s e : timersOk s → evidenceInv s → evidenceInv (step s e).
Proof.
  intros Hok Hinv. destruct e as [rnd|ws m o|ws|tid o|ws]; simpl;
    [| | | |destruct (map_get ws (clients s)); exact Hinv].
  - by apply (evidenceInv_view s).
  - by apply evidenceInv_handleMessage.
  - apply (evidenceInv_view (leaveOpen ws s));
      [apply eview_handleDisconnect | apply tview_pending, tview_handleDisconnect
      | exact Hinv].
  - destruct (pending s !! tid) as [t|] eqn:Ht; [|done].
    assert (Hok1 : timersOk (clearTimeout tid s)) by (by apply timersOk_clearTimeout).
    assert (Hinv1 : evidenceInv (clearTimeout tid s)).
    { destruct Hinv as [Ha Hb]. split; [|done]. intros tid' t' Ht'. simpl in Ht'.
      apply lookup_delete_Some in Ht' as [_ Ht']. by apply (Ha tid' t'). }
    destruct Hinv as [Ha _]. specialize (Ha tid t Ht). unfold revealOk in Ha.
    destruct (callback t) as [rc|r rc ev]; simpl.
    + by apply evidenceInv_advancePhase.
    + destruct Ha as (_ & c & shown & Hl & Hin).
      change (eview s) with (eview (clearTimeout tid s)) in Hl.
      destruct Hinv1 as [Ha1 Hb1].
      set (f := upd_gameState _).
      apply (evidenceInv_view (updRoom r f (clearTimeout tid s)));
        [apply core_eview, broadcastToRoom_core
        | by destruct (core_fields _ _ (broadcastToRoom_core rc (EVIDENCE_REVEALED ev)
               (updRoom r f (clearTimeout tid s)))) as (_ & _ & _ & _ & ? & _) |].
      destruct (eview_lookup_inv _ r _ Hl) as (room & Hroom & Hf).
      injection Hf as Hph Hc Hsh.
      assert (Hr : eview (updRoom r f (clearTimeout tid s)) !! r =
                   Some (INTERROGATION, Some c, shown ++ [ev])).
      { rewrite eview_updRoom_eq, Hroom. simpl. unfold evidenceFields. simpl.
        by rewrite Hph, Hc, Hsh. }
      split.
      * intros tid' t' Ht'.
        change (pending (updRoom r f (clearTimeout tid s)))
          with (pending (clearTimeout tid s)) in Ht'.
        specialize (Ha1 tid' t' Ht'). unfold revealOk in *.
        destruct (callback t') as [|r' rc' ev']; [done|].
        destruct Ha1 as (-> & c' & shown' & Hl' & Hin'). split; [done|].
        destruct (decide (owner t' = r)) as [Heq|Hne].
        -- rewrite Heq in *. rewrite Hl in Hl'. injection Hl' as <- <-.
           exists c, (shown ++ [ev]). done.
        -- exists c', shown'. by rewrite eview_updRoom_ne.
      * intros r' ph c' shown' Hl' ev' Hin'. destruct (decide (r' = r)) as [->|Hr'].
        -- rewrite Hr in Hl'. injection Hl' as <- <- <-.
           apply elem_of_app in Hin' as [Hin'|Hin'].
           ++ by apply (Hb1 r INTERROGATION (Some c) shown).
           ++ apply list_elem_of_singleton in Hin' as ->. eauto.
        -- rewrite eview_updRoom_ne in Hl' by done. by apply (Hb1 r' ph c' shown').
Qed.

Lemma evidenceInv_run evs s :
  timersOk s → evidenceInv s → evidenceInv (run evs s).
Proof.
  revert s. induction evs as [|e evs IH]; intros s Hok Hinv; simpl; [done|].
  apply IH; [by apply step_timersOk | by apply evidenceInv_step].
Qed.

Lemma evidenceInv_initial lb : evidenceInv (initial lb).
Proof.
  split.
  - intros tid t. simpl. by rewrite lookup_empty.
  - intros r ph c shown. unfold eview. simpl. by rewrite fmap_empty, lookup_empty.
Qed.

(** X16.  What an evidence timer stores, and where.  In every reachable
    state a pending evidence timer was armed for a room object that is now in
    INTERROGATION, and its item is an item of that room object's crime; when
    it fires, the item is appended to the [currentEvidence] of that room
    object and nothing else in any room object changes.  So the
    [currentEvidence] stored in a room object holds only items of that
    object's crime.  This is about the room object the timer was armed for,
    registered or not, and about what is stored in it: who is sent the
    EVIDENCE_REVEALED message is decided by the registry entry of the
    timer's room code when the timer fires, and is not part of this
    statement. *)
Theorem evidence_only_during_interrogation lb evs :
  let s := run evs (initial lb) in
  (∀ tid t r rc ev, pending s !! tid = Some t → callback t = CbRevealEvidence r rc ev →
     ∃ room c, heap s !! r = Some room ∧ phase (gameState room) = INTERROGATION ∧
       crime (gameState room) = Some c ∧ ev ∈ evidence c ∧
       ∀ o, heap (step s (Timeout tid o)) =
            <[r := upd_gameState (fun g =>
                     set_currentEvidence (currentEvidence g ++ [ev]) g) room]> (heap s)) ∧
  (∀ r room ev, heap s !! r = Some room → ev ∈ currentEvidence (gameState room) →
     ∃ c, crime (gameState room) = Some c ∧ ev ∈ evidence c).
Proof.
  intros s.
  destruct (evidenceInv_run evs (initial lb) (initial_timersOk lb) (evidenceInv_initial lb))
    as [Ha Hb].
  fold s in Ha, Hb. split.
  - intros tid t r rc ev Ht Hcb. specialize (Ha tid t Ht). unfold revealOk in Ha.
    rewrite Hcb in Ha. destruct Ha as (_ & c & shown & Hl & Hin).
    apply eview_lookup_inv in Hl as (room & Hroom & Hf). injection Hf as Hph Hc _.
    exists room, c. do 4 (split; [done|]).
    intros o. simpl. rewrite Ht, Hcb. simpl.
    set (f := upd_gameState _).
    destruct (core_fields _ _ (broadcastToRoom_core rc (EVIDENCE_REVEALED ev)
                (updRoom r f (clearTimeout tid s)))) as (_ & -> & _).
    by apply (heap_updRoom r f (clearTimeout tid s) room).
  - intros r room ev Hroom Hin.
    apply (Hb r _ _ _ (eview_lookup s r room Hroom) ev Hin).
Qed.

Lemma evidence_only_during_interrogation_witness :
  let ev := mkEvidence "tattoo" "The thief had a tattoo on their left hand." 10 in
  pending interrogating !! 3%nat = Some (mkTimer 0 10000 (CbRevealEvidence 0 "AB12" ev)) ∧
  ∃ room c, heap interrogating !! 0%nat = Some room ∧
    phase (gameState room) = INTERROGATION ∧
    crime (gameState room) = Some c ∧ ev ∈ evidence c.
Proof.
  intros ev. split; [vm_compute; reflexivity|].
  destruct (evidence_only_during_interrogation [] interrogatingEvents) as [H _].
  destruct (H 3%nat (mkTimer 0 10000 (CbRevealEvidence 0 "AB12" ev)) 0%nat "AB12" ev)
    as (room & c & H1 & H2 & H3 & H4 & _).
  - vm_compute. reflexivity.
  - reflexivity.
  - exists room, c. split; [exact H1|]. split; [exact H2|]. split; [exact H3 | exact H4].
Defined.

(** * Who is in a room *)

Lemma pview_lookup s r :
  pview s !! r = (fun room => map_keys (players room)) <$> heap s !! r.
Proof. unfold pview. by rewrite lookup_fmap. Qed.

Lemma pview_updRoom r f s :
  (∀ room, map_keys (players (f room)) = map_keys (players room)) →
  pview (updRoom r f s) = pview s.
Proof.
  intros Hf. apply map_eq. intros i. unfold pview, updRoom. simpl.
  rewrite !lookup_fmap. destruct (decide (i = r)) as [->|Hne].
  - rewrite lookup_alter_eq. destruct (heap s !! r); simpl; [|done]. by rewrite Hf.
  - by rewrite lookup_alter_ne.
Qed.

Lemma core_pview s s' : core s' = core s → pview s' = pview s.
Proof. intros H. apply core_fields in H as (_ & H & _). unfold pview. by rewrite H. Qed.

Lemma dview_pview s s' : dview s' = dview s → pview s' = pview s.
Proof.
  intros H. apply map_eq. intros i.
  assert (Hi : dview s' !! i = dview s !! i) by (by rewrite H).
  unfold dview, pview in *. rewrite !lookup_fmap in *.
  destruct (heap s' !! i) as [room'|], (heap s !! i) as [room|]; simpl in *; try done.
  assert (Hd : dataOf room' = dataOf room) by congruence.
  apply dataOf_fields in Hd as (_ & _ & Hp & _). by rewrite Hp.
Qed.

Lemma pview_startPhase rc ph d now s : pview (startPhase rc ph d now s) = pview s.
Proof.
  destruct (getRoom s rc) as [[r room]|] eqn:Hg.
  - pose proof (startPhase_dcore rc ph d now s r room Hg) as Hd.
    rewrite (dview_pview _ _ (f_equal (fun x => x.1.1.1.1.1.2) Hd)).
    by apply pview_updRoom.
  - unfold startPhase. by rewrite Hg.
Qed.

Lemma pview_calculateResults rc now s : Inv s → pview (calculateResults rc now s) = pview s.
Proof.
  intros [Hinv _]. destruct (getRoom s rc) as [[r room]|] eqn:Hg.
  - rewrite (dview_pview _ _ (ncore_dview _ _ (calculateResults_ncore rc now s r room Hg))).
    apply getRoom_Some in Hg as [_ Hh]. destruct (Hinv r room Hh) as [_ Hnd].
    destruct (scoreRoom_scores room Hnd) as (Hk & _).
    apply map_eq. intros i. unfold pview, storeRoom. simpl. rewrite !lookup_fmap.
    destruct (decide (i = r)) as [->|Hne].
    + rewrite lookup_insert_eq, Hh. simpl. f_equal. exact Hk.
    + by rewrite lookup_insert_ne.
  - unfold calculateResults. by rewrite Hg.
Qed.

Lemma pview_advancePhase rc now s : Inv s → pview (advancePhase rc now s) = pview s.
Proof.
  intros Hinv. unfold advancePhase. destruct (getRoom s rc) as [[r room]|]; [|done].
  destruct (indexOf _ _) as [i|]; [|done].
  set (s1 := if decide (Some i = indexOf ACCUSATIONS phaseSequence)
             then calculateResults rc now s else s).
  assert (H1 : pview s1 = pview s)
    by (subst s1; destruct (decide _); [by apply pview_calculateResults | done]).
  destruct (i <? length phaseSequence - 1)%nat.
  - destruct (phaseSequence !! S i); [by rewrite pview_startPhase | done].
  - rewrite (core_pview _ _ (broadcastPhaseUpdate_core _ _)). by rewrite pview_updRoom.
Qed.

Lemma pview_startGame rc o s : pview (startGame rc o s) = pview s.
Proof.
  unfold startGame. destruct (getRoom s rc) as [[r room]|]; [|done].
  destruct (_ <? 4)%nat; [done|]. rewrite pview_startPhase. by apply pview_updRoom.
Qed.

Lemma handleDisconnect_players ws s r room :
  heap s !! r = Some room →
  ∃ room', heap (handleDisconnect ws s) !! r = Some room' ∧
    ∀ pid, pid ∈ map_keys (players room') → pid ∈ map_keys (players room).
Proof.
  intros Hroom.
  unfold handleDisconnect. destruct (map_get ws (clients s)) as [cd|]; [|by eauto].
  destruct (if bool_decide _ then None else clientRoom s cd) as [[[rc r0] room0]|] eqn:Hc;
    [|by eauto].
  assert (Hr0 : heap s !! r0 = Some room0).
  { destruct (bool_decide _); [done|]. by apply clientRoom_heap in Hc. }
  set (ps := map_delete (playerId cd) (players room0)).
  assert (Hheap : ∀ s', heap s' = heap (updRoom r0 (set_players ps) s) →
            ∃ room', heap s' !! r = Some room' ∧
              ∀ pid, pid ∈ map_keys (players room') → pid ∈ map_keys (players room)).
  { intros s' ->. rewrite (heap_updRoom r0 (set_players ps) s room0 Hr0).
    destruct (decide (r = r0)) as [->|Hne].
    - rewrite lookup_insert_eq. eexists. split; [done|]. simpl.
      intros pid Hin. apply elem_of_map_keys_delete in Hin. congruence.
    - rewrite lookup_insert_ne by done. eauto. }
  destruct (_ =? 0)%nat; apply Hheap; simpl;
    by destruct (core_fields _ _ (broadcastToRoom_core rc
         (PLAYER_LEFT (playerId cd) (length ps)) (updRoom r0 (set_players ps) s)))
      as (_ & -> & _).
Qed.

(** X21.  Nobody joins a round that is under way: while a room is in any
    phase but WAITING, no event adds a player to it; its player ids can only
    become fewer, by a disconnect. *)
Theorem nobody_joins_a_running_round lb evs e r room :
  let s := run evs (initial lb) in
  heap s !! r = Some room →
  phase (gameState room) ≠ WAITING →
  ∃ room', heap (step s e) !! r = Some room' ∧
    ∀ pid, pid ∈ map_keys (players room') → pid ∈ map_keys (players room).
Proof.
  intros s Hroom Hph.
  pose proof (Inv_run evs (initial lb) (Inv_initial lb)) as Hinv. fold s in Hinv.
  destruct (run_timersOk evs (initial lb) (initial_timersOk lb)) as [[_ Hfresh] _].
  fold s in Hfresh.
  assert (Hsame : ∀ s', pview s' = pview s →
            ∃ room', heap s' !! r = Some room' ∧
              ∀ pid, pid ∈ map_keys (players room') → pid ∈ map_keys (players room)).
  { intros s' Hp.
    assert (Hr : pview s' !! r = pview s !! r) by (by rewrite Hp).
    rewrite !pview_lookup, Hroom in Hr. simpl in Hr.
    destruct (heap s' !! r) as [room'|]; [|done]. simpl in Hr. injection Hr as Hr.
    exists room'. split; [done|]. by rewrite Hr. }
  destruct e as [rnd|ws m o|ws|tid o|ws]; simpl;
    [| | | |destruct (map_get ws (clients s)); by apply Hsame].
  - by apply Hsame.
  - unfold handleMessage. destruct (map_get ws (clients s)) as [cd|]; [|by apply Hsame].
    destruct m as [|rc0 name0| | | | | |].
    + exists room. split; [|done]. unfold createRoom. simpl.
      rewrite lookup_insert_ne; [done|]. apply Hfresh in Hroom. lia.
    + destruct (getRoom s rc0) as [[r0 room0]|] eqn:Hg;
        [|unfold joinRoom; rewrite Hg; by apply Hsame].
      destruct (decide (length (players room0) < 8)%nat) as [Hlen|Hlen].
      2:{ unfold joinRoom. rewrite Hg.
          destruct (8 <=? length (players room0))%nat eqn:Hb; [by apply Hsame|].
          apply Nat.leb_gt in Hb. lia. }
      destruct (decide (phase (gameState room0) = WAITING)) as [Hw|Hw].
      2:{ unfold joinRoom. rewrite Hg.
          destruct (8 <=? length (players room0))%nat; [by apply Hsame|].
          rewrite bool_decide_false by done. by apply Hsame. }
      destruct (joinRoom_accepted ws cd rc0 name0 s r0 room0 Hg Hlen Hw)
        as (_ & Hheap & _).
      exists room. split; [|done]. rewrite Hheap, lookup_insert_ne; [done|].
      intros ->. apply getRoom_Some in Hg as [_ Hg]. congruence.
    + destruct (roomCode cd); [|by apply Hsame]. apply Hsame, pview_startGame.
    + apply Hsame. unfold submitAlibi. destruct (clientRoom s cd) as [[[rc r0] room0]|]; [|done].
      destruct (negb _); [done|].
      rewrite (core_pview _ _ (broadcastToRoom_core _ _ _)). by rewrite pview_updRoom.
    + apply Hsame. unfold askQuestion. destruct (clientRoom s cd) as [[[rc r0] room0]|]; [|done].
      destruct (negb _); [done|]. destruct (3 <=? _)%nat; [done|].
      rewrite (core_pview _ _ (broadcastToRoom_core _ _ _)). by rewrite pview_updRoom.
    + apply Hsame. unfold answerQuestion.
      destruct (clientRoom s cd) as [[[rc r0] room0]|]; [|done].
      destruct (findQuestion _ _); [|done]. destruct (_ || _); [done|].
      rewrite (core_pview _ _ (broadcastToRoom_core _ _ _)). by rewrite pview_updRoom.
    + apply Hsame. unfold submitVote. destruct (clientRoom s cd) as [[[rc r0] room0]|]; [|done].
      destruct (negb _); [done|].
      rewrite (core_pview _ _ (broadcastToRoom_core _ _ _)). by rewrite pview_updRoom.
    + by apply Hsame.
  - exact (handleDisconnect_players ws (leaveOpen ws s) r room Hroom).
  - destruct (pending s !! tid) as [t|]; [|by apply Hsame].
    destruct (callback t) as [rc|r0 rc ev]; simpl.
    + apply Hsame. by rewrite pview_advancePhase.
    + apply Hsame. rewrite (core_pview _ _ (broadcastToRoom_core _ _ _)).
      by rewrite pview_updRoom.
Qed.

Lemma nobody_joins_a_running_round_witness :
  let e := Message 1 (JOIN_ROOM "AB12" "Eve") (sampleOracle 35030 0) in
  ∃ room', heap (step interrogating e) !! 0%nat = Some room' ∧
    ∀ pid, pid ∈ map_keys (players room') →
      pid ∈ ["p1xxxxxxx"; "p2xxxxxxx"; "p3xxxxxxx"; "p4xxxxxxx"].
Proof.
  intros e.
  destruct (nobody_joins_a_running_round [] interrogatingEvents e 0%nat
              (roomAt interrogating 0)) as (room' & H1 & H2).
  - vm_compute. reflexivity.
  - vm_compute. discriminate.
  - exists room'. split; [exact H1|]. intros pid Hin. apply H2 in Hin.
    replace (map_keys (players (roomAt interrogating 0)))
      with ["p1xxxxxxx"; "p2xxxxxxx"; "p3xxxxxxx"; "p4xxxxxxx"] in Hin
      by (vm_compute; reflexivity).
    exact Hin.
Defined.

(** * Connections *)

Lemma cview_core s s' : core s' = core s → cview s' = cview s.
Proof. unfold core, cview. intros H. congruence. Qed.

Lemma cview_dcore s s' : dcore s' = dcore s → cview s' = cview s.
Proof. unfold dcore, cview. intros H. congruence. Qed.

Lemma cview_ncore s s' : ncore s' = ncore s → cview s' = cview s.
Proof. unfold ncore, cview. intros H. congruence. Qed.

Lemma cview_startPhase rc ph d now s : cview (startPhase rc ph d now s) = cview s.
Proof.
  destruct (getRoom s rc) as [[r room]|] eqn:Hg.
  - by rewrite (cview_dcore _ _ (startPhase_dcore rc ph d now s r room Hg)).
  - unfold startPhase. by rewrite Hg.
Qed.

Lemma cview_calculateResults rc now s : cview (calculateResults rc now s) = cview s.
Proof.
  destruct (getRoom s rc) as [[r room]|] eqn:Hg.
  - by rewrite (cview_ncore _ _ (calculateResults_ncore rc now s r room Hg)).
  - unfold calculateResults. by rewrite Hg.
Qed.

Lemma cview_advancePhase rc now s : cview (advancePhase rc now s) = cview s.
Proof.
  unfold advancePhase. destruct (getRoom s rc) as [[r room]|]; [|done].
  destruct (indexOf _ _) as [i|]; [|done].
  set (s1 := if decide (Some i = indexOf ACCUSATIONS phaseSequence)
             then calculateResults rc now s else s).
  assert (H1 : cview s1 = cview s)
    by (subst s1; destruct (decide _); [apply cview_calculateResults | done]).
  destruct (i <? length phaseSequence - 1)%nat.
  - destruct (phaseSequence !! S i); [by rewrite cview_startPhase | done].
  - by rewrite (cview_core _ _ (broadcastPhaseUpdate_core _ _)).
Qed.

Lemma cview_startGame rc o s : cview (startGame rc o s) = cview s.
Proof.
  unfold startGame. destruct (getRoom s rc) as [[r room]|]; [|done].
  destruct (_ <? 4)%nat; [done|]. by rewrite cview_startPhase.
Qed.

Lemma cview_joinRoom ws cd rc name s :
  cview (joinRoom ws cd rc name s) = cview s ∨
  cview (joinRoom ws cd rc name s) =
    (map_set ws (mkClientData (playerId cd) (Some rc) (Some name)) (clients s), nextWs s).
Proof.
  unfold joinRoom. destruct (getRoom s rc) as [[r room]|]; [|by left].
  destruct (8 <=? length (players room))%nat; [by left|].
  destruct (negb _); [by left|]. right.
  match goal with |- context [heap ?x !! r] => destruct (heap x !! r) end.
  - change (cview (send ?w ?m ?x)) with (cview x).
    by rewrite (cview_core _ _ (broadcastToRoom_core _ _ _)).
  - by rewrite (cview_core _ _ (broadcastToRoom_core _ _ _)).
Qed.

Lemma map_delete_absent {V} (k : nat) (l : list (nat * V)) :
  map_get k l = None → map_delete k l = l.
Proof.
  induction l as [|[k0 v] l IH]; simpl; [done|].
  destruct (decide (k0 = k)); [done|]. intros H. by rewrite IH.
Qed.

Lemma cview_handleDisconnect ws s :
  cview (handleDisconnect ws s) = (map_delete ws (clients s), nextWs s).
Proof.
  unfold handleDisconnect. destruct (map_get ws (clients s)) as [cd|] eqn:Hws.
  - match goal with |- cview (set_clients _ ?x) = _ => set (inner := x) end.
    assert (Hin : cview inner = cview s).
    { subst inner.
      destruct (if bool_decide _ then None else clientRoom s cd) as [[[rc r] room]|]; [|done].
      destruct (_ =? 0)%nat; [change (cview (set_rooms ?c ?x)) with (cview x)|];
        by rewrite (cview_core _ _ (broadcastToRoom_core _ _ _)). }
    unfold cview in *. simpl. by injection Hin as -> ->.
  - unfold cview. by rewrite map_delete_absent.
Qed.

Lemma cview_handleMessage ws m o s cd :
  map_get ws (clients s) = Some cd →
  cview (handleMessage ws m o s) = cview s ∨
  ∃ rc name, m = JOIN_ROOM rc name ∧
    cview (handleMessage ws m o s) =
      (map_set ws (mkClientData (playerId cd) (Some rc) (Some name)) (clients s), nextWs s).
Proof.
  intros Hws. unfold handleMessage. rewrite Hws.
  destruct m as [|rc0 name0| | | | | |]; try (by left).
  - destruct (cview_joinRoom ws cd rc0 name0 s) as [H|H]; [by left|].
    right. by exists rc0, name0.
  - left. destruct (roomCode cd); [apply cview_startGame | done].
  - left. unfold submitAlibi. destruct (clientRoom s cd) as [[[rc r] room]|]; [|done].
    destruct (negb _); [done|]. by rewrite (cview_core _ _ (broadcastToRoom_core _ _ _)).
  - left. unfold askQuestion. destruct (clientRoom s cd) as [[[rc r] room]|]; [|done].
    destruct (negb _); [done|]. destruct (3 <=? _)%nat; [done|].
    by rewrite (cview_core _ _ (broadcastToRoom_core _ _ _)).
  - left. unfold answerQuestion. destruct (clientRoom s cd) as [[[rc r] room]|]; [|done].
    destruct (findQuestion _ _); [|done]. destruct (_ || _); [done|].
    by rewrite (cview_core _ _ (broadcastToRoom_core _ _ _)).
  - left. unfold submitVote. destruct (clientRoom s cd) as [[[rc r] room]|]; [|done].
    destruct (negb _); [done|]. by rewrite (cview_core _ _ (broadcastToRoom_core _ _ _)).
Qed.

(* what an event does to the table of connections *)
Lemma cview_step s e :
  match e with
  | Connection rnd =>
      cview (step s e) =
        (map_set (nextWs s) (mkClientData (generateId rnd) None None) (clients s),
         S (nextWs s))
  | Message ws m o =>
      cview (step s e) = cview s ∨
      ∃ cd rc name, map_get ws (clients s) = Some cd ∧ m = JOIN_ROOM rc name ∧
        cview (step s e) =
          (map_set ws (mkClientData (playerId cd) (Some rc) (Some name)) (clients s),
           nextWs s)
  | Close ws => cview (step s e) = (map_delete ws (clients s), nextWs s)
  | Timeout _ _ => cview (step s e) = cview s
  | Closing _ => cview (step s e) = cview s
  end.
Proof.
  destruct e as [rnd|ws m o|ws|tid o|ws]; simpl;
    [| | | |by destruct (map_get ws (clients s))].
  - done.
  - destruct (map_get ws (clients s)) as [cd|] eqn:Hws.
    + destruct (cview_handleMessage ws m o s cd Hws) as [H|(rc & name & -> & H)];
        [by left|]. right. by exists cd, rc, name.
    + left. unfold handleMessage. by rewrite Hws.
  - apply (cview_handleDisconnect ws (leaveOpen ws s)).
  - destruct (pending s !! tid) as [t|]; [|done].
    destruct (callback t) as [rc|r rc ev]; simpl.
    + by rewrite cview_advancePhase.
    + by rewrite (cview_core _ _ (broadcastToRoom_core _ _ _)).
Qed.

Lemma clientsOk_step s e :
  NoDup (map_keys (clients s)) ∧ (∀ ws, ws ∈ map_keys (clients s) → (ws < nextWs s)%nat) →
  NoDup (map_keys (clients (step s e))) ∧
  (∀ ws, ws ∈ map_keys (clients (step s e)) → (ws < nextWs (step s e))%nat).
Proof.
  intros [Hnd Hlt]. pose proof (cview_step s e) as H.
  change (clients (step s e)) with (cview (step s e)).1.
  change (nextWs (step s e)) with (cview (step s e)).2.
  destruct e as [rnd|ws m o|ws|tid o|ws]; [| | | |by rewrite H].
  - rewrite H. simpl. split; [by apply map_set_NoDup|].
    intros ws [->|Hin]%elem_of_map_keys_set; [lia|]. apply Hlt in Hin. lia.
  - destruct H as [->|(cd & rc & name & Hws & _ & ->)]; [done|]. simpl.
    split; [by apply map_set_NoDup|].
    intros ws' [->|Hin]%elem_of_map_keys_set; [|by apply Hlt].
    apply Hlt. apply map_get_Some_elem in Hws.
    unfold map_keys. apply list_elem_of_fmap. by exists (ws, cd).
  - rewrite H. simpl. split; [by apply map_delete_NoDup|].
    intros ws' Hin%elem_of_map_keys_delete. by apply Hlt.
  - by rewrite H.
Qed.

Lemma clientsOk_run evs s :
  NoDup (map_keys (clients s)) ∧ (∀ ws, ws ∈ map_keys (clients s) → (ws < nextWs s)%nat) →
  NoDup (map_keys (clients (run evs s))) ∧
  (∀ ws, ws ∈ map_keys (clients (run evs s)) → (ws < nextWs (run evs s))%nat).
Proof.
  revert s. induction evs as [|e evs IH]; intros s Hs; simpl; [done|].
  by apply IH, clientsOk_step.
Qed.

(** X22.  A connection keeps the player id it was given when it opened:
    no event changes the id in a connection's entry, the entry itself changes
    only through a JOIN_ROOM of that connection that is accepted (which sets
    its room code and name), and it is gone after the connection's Close.
    Connections never share an entry. *)
Theorem connection_keeps_its_player_id lb evs ws cd :
  let s := run evs (initial lb) in
  map_get ws (clients s) = Some cd →
  NoDup (map_keys (clients s)) ∧
  map_get ws (clients (step s (Close ws))) = None ∧
  ∀ e cd', map_get ws (clients (step s e)) = Some cd' →
    playerId cd' = playerId cd ∧
    (cd' = cd ∨ ∃ rc name o, e = Message ws (JOIN_ROOM rc name) o ∧
                 cd' = mkClientData (playerId cd) (Some rc) (Some name)).
Proof.
  intros s Hws.
  assert (Hok : NoDup (map_keys (clients s)) ∧
                ∀ ws, ws ∈ map_keys (clients s) → (ws < nextWs s)%nat).
  { apply clientsOk_run. simpl. split; [constructor|]. by intros ? ?%elem_of_nil. }
  destruct Hok as [Hnd Hlt]. split; [done|]. split.
  - change (clients (step s (Close ws)))
      with (cview (handleDisconnect ws (leaveOpen ws s))).1.
    rewrite cview_handleDisconnect. simpl. by apply map_get_delete_eq.
  - intros e cd' Hcd'. pose proof (cview_step s e) as H.
    change (clients (step s e)) with (cview (step s e)).1 in Hcd'.
    destruct e as [rnd|ws' m o|ws'|tid o|ws'].
    5:{ rewrite H in Hcd'. simpl in Hcd'. rewrite Hws in Hcd'. injection Hcd' as <-.
        split; [done | by left]. }
    + rewrite H in Hcd'. simpl in Hcd'.
      rewrite map_get_set_ne in Hcd'; [|].
      * rewrite Hws in Hcd'. injection Hcd' as <-. split; [done | by left].
      * intros Heq. apply map_get_Some_elem in Hws.
        assert (Hin : ws ∈ map_keys (clients s))
          by (unfold map_keys; apply list_elem_of_fmap; by exists (ws, cd)).
        apply Hlt in Hin. lia.
    + destruct H as [H|(cd0 & rc & name & Hws0 & -> & H)].
      * rewrite H in Hcd'. simpl in Hcd'. rewrite Hws in Hcd'. injection Hcd' as <-.
        split; [done | by left].
      * rewrite H in Hcd'. simpl in Hcd'. destruct (decide (ws' = ws)) as [->|Hne].
        -- rewrite map_get_set_eq in Hcd'. injection Hcd' as <-.
           rewrite Hws in Hws0. injection Hws0 as <-.
           split; [done|]. right. by exists rc, name, o.
        -- rewrite map_get_set_ne in Hcd' by done. rewrite Hws in Hcd'.
           injection Hcd' as <-. split; [done | by left].
    + rewrite H in Hcd'. simpl in Hcd'. destruct (decide (ws' = ws)) as [->|Hne].
      * by rewrite map_get_delete_eq in Hcd'.
      * rewrite map_get_delete_ne in Hcd' by done. rewrite Hws in Hcd'.
        injection Hcd' as <-. split; [done | by left].
    + rewrite H in Hcd'. simpl in Hcd'. rewrite Hws in Hcd'. injection Hcd' as <-.
      split; [done | by left].
Qed.

Lemma connection_keeps_its_player_id_witness :
  let e := Message 0 (JOIN_ROOM "AB12" "Ann") (sampleOracle 5 0) in
  map_get 0%nat (clients lobby) = Some (mkClientData "p1xxxxxxx" (Some "AB12") (Some "Ada")) ∧
  map_get 0%nat (clients (step lobby e)) =
    Some (mkClientData "p1xxxxxxx" (Some "AB12") (Some "Ann")) ∧
  map_get 0%nat (clients (step lobby (Close 0))) = None.
Proof.
  intros e. split; [vm_compute; reflexivity|]. split; [vm_compute; reflexivity|].
  destruct (connection_keeps_its_player_id [] lobbyEvents 0%nat
              (mkClientData "p1xxxxxxx" (Some "AB12") (Some "Ada"))) as (_ & H & _).
  - vm_compute. reflexivity.
  - exact H.
Defined.

(** * Rounds keep going *)

Lemma handlesOk_tview s s' : tview s' = tview s → handlesOk s → handlesOk s'.
Proof.
  unfold tview. intros Htv Hok r room' tid Hroom' Hh.
  injection Htv as Ht Hp Hn _.
  assert (Hr : (timers <$> heap s') !! r = (timers <$> heap s) !! r) by (by rewrite Ht).
  rewrite !lookup_fmap, Hroom' in Hr. simpl in Hr.
  destruct (heap s !! r) as [room|] eqn:Hroom; [|done]. simpl in Hr. injection Hr as Hr.
  rewrite Hr in Hh. rewrite Hn, Hp. by apply (Hok r room tid).
Qed.

Lemma handlesOk_weaken s s' :
  nextTimer s' = nextTimer s →
  (∀ tid t, pending s' !! tid = Some t → pending s !! tid = Some t) →
  (∀ r room' tid, heap s' !! r = Some room' → handleOf (timers room') tid →
     ∃ room, heap s !! r = Some room ∧ handleOf (timers room) tid) →
  handlesOk s → handlesOk s'.
Proof.
  intros Hn Hp Hh Hok r room' tid Hroom' Hof.
  destruct (Hh r room' tid Hroom' Hof) as (room & Hroom & Hof0).
  destruct (Hok r room tid Hroom Hof0) as [Hlt Ho]. rewrite Hn. split; [done|].
  intros t Ht. by apply Ho, Hp.
Qed.

Lemma handlesOk_arm r f t s room :
  handlesOk s → heap s !! r = Some room → owner t = r →
  (∀ tid, handleOf (timers (f room)) tid → tid = nextTimer s ∨ handleOf (timers room) tid) →
  handlesOk (updRoom r f (setTimeout t s).2).
Proof.
  intros Hok Hroom Ho Hf r' room' tid. simpl. rewrite lookup_alter_Some.
  intros [(Heq & x & Hx & Hfx)|(Hne & Hx)] Hof.
  - subst r' room'. rewrite Hroom in Hx. injection Hx as <-.
    destruct (Hf tid Hof) as [->|Hof0].
    + split; [lia|]. intros t'. rewrite lookup_insert_eq. by intros [= <-].
    + destruct (Hok r room tid Hroom Hof0) as [Hlt Hown]. split; [lia|].
      intros t'. rewrite lookup_insert_ne by lia. apply Hown.
  - destruct (Hok r' room' tid Hx Hof) as [Hlt Hown]. split; [lia|].
    intros t'. rewrite lookup_insert_ne by lia. apply Hown.
Qed.

Lemma handlesOk_armPhaseTimer r rc d s :
  handlesOk s → is_Some (heap s !! r) →
  handlesOk (armPhaseTimer r rc d s) ∧ is_Some (heap (armPhaseTimer r rc d s) !! r).
Proof.
  intros Hok [room Hroom]. unfold armPhaseTimer.
  destruct (truthyDuration d) as [d'|]; [|by eauto].
  cbv zeta match beta.
  change (let '(tid, s0) := setTimeout ?t s in updRoom r (set_phaseTimer (Some tid)) s0)
    with (updRoom r (set_phaseTimer (Some (nextTimer s))) (setTimeout t s).2).
  split.
  - apply handlesOk_arm with (room := room); try done.
    intros tid [Hp|He]; [left | right; by right].
    simpl in Hp. by injection Hp.
  - simpl. rewrite lookup_alter_eq, Hroom. simpl. eauto.
Qed.

Lemma handlesOk_armEvidence r rc s ev :
  handlesOk s → is_Some (heap s !! r) →
  handlesOk (armEvidence r rc s ev) ∧ is_Some (heap (armEvidence r rc s ev) !! r).
Proof.
  intros Hok [room Hroom]. unfold armEvidence.
  change (let '(tid, s0) := setTimeout ?t s in updRoom r ?f s0)
    with (updRoom r (fun room => set_evidenceTimers
                       (evidenceTimers (timers room) ++ [nextTimer s]) room)
            (setTimeout t s).2).
  split.
  - apply handlesOk_arm with (room := room); try done.
    intros tid [Hp|He]; [right; by left|].
    simpl in He. apply elem_of_app in He as [He|He]; [right; by right|].
    left. by apply list_elem_of_singleton in He.
  - simpl. rewrite lookup_alter_eq, Hroom. simpl. eauto.
Qed.

Lemma handlesOk_armEvidenceTimers r rc ph c s :
  handlesOk s → is_Some (heap s !! r) → handlesOk (armEvidenceTimers r rc ph c s).
Proof.
  intros Hok Hsome. unfold armEvidenceTimers. destruct ph; try done.
  destruct c as [c|]; [|done].
  apply (foldl_preserve (fun s' => handlesOk s' ∧ is_Some (heap s' !! r))); [|done].
  intros a ev [Ha Hs]. by apply handlesOk_armEvidence.
Qed.

(* startPhase keeps the handles in order, and the timers of other rooms *)
Lemma startPhase_live rc ph d now s r room :
  timersOk s → handlesOk s → getRoom s rc = Some (r, room) →
  let s' := startPhase rc ph d now s in
  handlesOk s' ∧
  ∀ tid t, pending s !! tid = Some t → owner t ≠ r → pending s' !! tid = Some t.
Proof.
  intros Hok Hh Hg. unfold startPhase. rewrite Hg.
  apply getRoom_Some in Hg as [Hr Hroom].
  set (f := upd_gameState (fun g => set_phaseStartTime (Some now) (set_phase ph g))).
  set (s1 := updRoom r f s).
  assert (Htv1 : tview s1 = tview s) by (by apply tview_updRoom).
  assert (Hok1 : timersOk s1) by (by apply (timersOk_tview s)).
  assert (Hh1 : handlesOk s1) by (by apply (handlesOk_tview s)).
  assert (Hroom1 : heap s1 !! r = Some (f room))
    by (subst s1; simpl; by rewrite lookup_alter_eq, Hroom).
  destruct (clearTimers_noneArmed r (f room) s1 Hok1 Hroom1)
    as (Hok2 & Hnone2 & Hn2 & Hold2 & Hsome2).
  change (timers (f room)) with (timers room) in *.
  assert (Hkeep2 : ∀ tid t, pending s !! tid = Some t → owner t ≠ r →
            pending (clearTimers r (timers room) s1) !! tid = Some t).
  { intros tid t Ht Ho. unfold clearTimers. simpl.
    apply foldl_clearTimeout_pending. split.
    - destruct (phaseTimer (timers room)) as [pt|] eqn:Hpt; [|done]. simpl.
      rewrite lookup_delete_ne; [done|]. intros ->.
      destruct (Hh r room tid Hroom (or_introl Hpt)) as [_ Hown]. by apply Ho, Hown.
    - intros Hin. destruct (Hh r room tid Hroom (or_intror Hin)) as [_ Hown].
      by apply Ho, Hown. }
  assert (Hh2 : handlesOk (clearTimers r (timers room) s1)).
  { apply (handlesOk_weaken s1); [done | apply clearTimers_pending | | done].
    intros r' room' tid. destruct (clearTimers_frame r (timers room) s1) as (_ & _ & _ & ->).
    rewrite lookup_alter_Some. intros [(Heq & x & Hx & Hfx)|(Hne & Hx)] Hof.
    - subst r' room'. exists x. split; [done|]. destruct Hof as [Hp|He]; [by left|].
      simpl in He. by apply elem_of_nil in He.
    - eauto. }
  set (s2 := clearTimers r (timers room) s1) in *.
  set (s3 := broadcastPhaseUpdate rc s2).
  assert (Htv3 : tview s3 = tview s2) by apply core_tview, broadcastPhaseUpdate_core.
  assert (Hok3 : timersOk s3) by (by apply (timersOk_tview s2)).
  assert (Hnone3 : noneArmed r s3) by (by apply (noneArmed_tview r s2)).
  assert (Hh3 : handlesOk s3) by (by apply (handlesOk_tview s2)).
  assert (Hhp3 : heap s3 = heap s2 ∧ pending s3 = pending s2)
    by (pose proof (broadcastPhaseUpdate_core rc s2) as Hc; fold s3 in Hc;
        unfold core in Hc; split; congruence).
  destruct Hhp3 as [Hheap3 Hp3].
  assert (Hsome3 : is_Some (heap s3 !! r)) by (by rewrite Hheap3).
  destruct (armPhaseTimer_ok r rc d s3 Hok3 Hnone3 Hsome3) as (Hinv4 & _ & Hkeep4 & _).
  destruct (handlesOk_armPhaseTimer r rc d s3 Hh3 Hsome3) as [Hh4 Hsome4].
  set (s4 := armPhaseTimer r rc d s3) in *.
  destruct (armEvidenceTimers_ok r rc ph (crime (gameState room)) (nextTimer s3) s4 Hinv4)
    as (_ & _ & Hkeep5 & _).
  split; [by apply handlesOk_armEvidenceTimers|].
  intros tid t Ht Ho. apply Hkeep5, Hkeep4. rewrite Hp3. by apply Hkeep2.
Qed.

Lemma rview_core s s' : core s' = core s → rview s' = rview s.
Proof. unfold core, rview. intros H. congruence. Qed.

Lemma rview_dcore s s' : dcore s' = dcore s → rview s' = rview s.
Proof. unfold dcore, rview. intros H. congruence. Qed.

Lemma rview_ncore s s' : ncore s' = ncore s → rview s' = rview s.
Proof. unfold ncore, rview. intros H. congruence. Qed.

Lemma rview_startPhase rc ph d now s : rview (startPhase rc ph d now s) = rview s.
Proof.
  destruct (getRoom s rc) as [[r room]|] eqn:Hg.
  - by rewrite (rview_dcore _ _ (startPhase_dcore rc ph d now s r room Hg)).
  - unfold startPhase. by rewrite Hg.
Qed.

Lemma rview_calculateResults rc now s : rview (calculateResults rc now s) = rview s.
Proof.
  destruct (getRoom s rc) as [[r room]|] eqn:Hg.
  - by rewrite (rview_ncore _ _ (calculateResults_ncore rc now s r room Hg)).
  - unfold calculateResults. by rewrite Hg.
Qed.

Lemma rview_joinRoom ws cd rc name s : rview (joinRoom ws cd rc name s) = rview s.
Proof.
  unfold joinRoom. destruct (getRoom s rc) as [[r room]|]; [|done].
  destruct (8 <=? length (players room))%nat; [done|].
  destruct (negb _); [done|].
  match goal with |- context [heap ?x !! r] => destruct (heap x !! r) end.
  - change (rview (send ?w ?m ?x)) with (rview x).
    by rewrite (rview_core _ _ (broadcastToRoom_core _ _ _)).
  - by rewrite (rview_core _ _ (broadcastToRoom_core _ _ _)).
Qed.

Lemma regOk_rview s s' : rview s' = rview s → regOk s → regOk s'.
Proof. unfold rview, regOk. intros [= -> ->]. done. Qed.

Lemma ticking_view s s' :
  (∀ rc r, rooms s' !! rc = Some r → rooms s !! rc = Some r) →
  eview s' = eview s → pending s' = pending s → ticking s → ticking s'.
Proof.
  intros Hr He Hp Ht rc r ph c shown Hreg Hev Hph.
  rewrite Hp. rewrite He in Hev. by apply (Ht rc r ph c shown); [apply Hr | |].
Qed.

Lemma tickingAt_startPhase rc ph d now s r room :
  timersOk s → handlesOk s → regOk s → getRoom s rc = Some (r, room) →
  (ph ≠ WAITING → is_Some (truthyDuration d)) →
  (∀ rc' r', r' ≠ r → tickingAt s rc' r') →
  handlesOk (startPhase rc ph d now s) ∧ ticking (startPhase rc ph d now s).
Proof.
  intros Hok Hh Hreg Hg Hd Ht.
  destruct (startPhase_live rc ph d now s r room Hok Hh Hg) as [Hh' Hkeep].
  split; [done|].
  destruct (startPhase_timers rc ph d now s r room Hok Hg) as (_ & _ & _ & Hpt).
  pose proof (startPhase_dcore rc ph d now s r room Hg) as Hdc.
  assert (Hrooms : rooms (startPhase rc ph d now s) = rooms s)
    by (unfold dcore in Hdc; by injection Hdc).
  assert (Hev : eview (startPhase rc ph d now s) =
                eview (updRoom r (upd_gameState (fun g =>
                         set_phaseStartTime (Some now) (set_phase ph g))) s))
    by (apply dview_eview; unfold dcore in Hdc; congruence).
  pose proof Hg as Hg0. apply getRoom_Some in Hg0 as [Hrc Hroom].
  intros rc' r' ph' c shown Hreg' Hev' Hph'. rewrite Hrooms in Hreg'. rewrite Hev in Hev'.
  destruct (decide (r' = r)) as [->|Hne].
  - destruct (Hreg rc r Hrc) as [_ Hinj]. rewrite (Hinj rc' Hreg').
    rewrite eview_updRoom_eq, Hroom in Hev'. simpl in Hev'. injection Hev' as <- _ _.
    destruct (Hd Hph') as [d' Hd']. destruct (Hpt d' Hd') as [Hp _]. eauto.
  - rewrite eview_updRoom_ne in Hev' by done.
    destruct (Ht rc' r' Hne ph' c shown Hreg' Hev' Hph') as (tid & d0 & Hp).
    exists tid, d0. by apply Hkeep.
Qed.

Lemma truthy_next ph : is_Some (truthyDuration (PHASE_DURATIONS ph)) ∨ ph = WAITING.
Proof. destruct ph; simpl; eauto. Qed.

Lemma tickInv_startGame rc o s :
  timersOk s → handlesOk s → regOk s → ticking s →
  handlesOk (startGame rc o s) ∧ regOk (startGame rc o s) ∧ ticking (startGame rc o s).
Proof.
  intros Hok Hh Hreg Ht. unfold startGame.
  destruct (getRoom s rc) as [[r room]|] eqn:Hg; [|done].
  destruct (_ <? 4)%nat; [done|].
  set (f := upd_gameState _). set (s1 := updRoom r f s).
  assert (Htv1 : tview s1 = tview s) by (by apply tview_updRoom).
  destruct (tickingAt_startPhase rc SETUP (PHASE_DURATIONS SETUP) (now o) s1 r (f room))
    as [H1 H2].
  - by apply (timersOk_tview s).
  - by apply (handlesOk_tview s).
  - done.
  - by apply getRoom_updRoom.
  - intros _. simpl. eauto.
  - intros rc' r' Hne ph c shown Hreg' Hev'. unfold s1 in Hev'.
    rewrite eview_updRoom_ne in Hev' by done. by apply (Ht rc' r' ph c shown).
  - split; [done|]. split; [|done].
    apply (regOk_rview s1); [apply rview_startPhase | done].
Qed.

Lemma tickInv_advancePhase rc now s :
  timersOk s → handlesOk s → regOk s →
  (∀ rc' r', rc' ≠ rc → tickingAt s rc' r') →
  handlesOk (advancePhase rc now s) ∧ regOk (advancePhase rc now s) ∧
  ticking (advancePhase rc now s) ∨
  (advancePhase rc now s = s ∧
   ∀ r room, getRoom s rc = Some (r, room) → phase (gameState room) = WAITING).
Proof.
  intros Hok Hh Hreg Ht. unfold advancePhase.
  destruct (getRoom s rc) as [[r room]|] eqn:Hg; [|by right].
  destruct (indexOf _ _) as [i|] eqn:Hi.
  2:{ right. split; [done|]. intros r0 room0 [= <- <-].
      destruct (phase (gameState room)); try done; discriminate. }
  left.
  set (s1 := if decide (Some i = indexOf ACCUSATIONS phaseSequence)
             then calculateResults rc now s else s).
  assert (Htv : tview s1 = tview s)
    by (subst s1; destruct (decide _); [apply tview_calculateResults | done]).
  assert (Hev : eview s1 = eview s)
    by (subst s1; destruct (decide _); [apply eview_calculateResults | done]).
  assert (Hrv : rview s1 = rview s)
    by (subst s1; destruct (decide _); [apply rview_calculateResults | done]).
  assert (Hok1 : timersOk s1) by (by apply (timersOk_tview s)).
  assert (Hh1 : handlesOk s1) by (by apply (handlesOk_tview s)).
  assert (Hreg1 : regOk s1) by (by apply (regOk_rview s)).
  assert (Hrooms1 : rooms s1 = rooms s) by (unfold rview in Hrv; congruence).
  assert (Hp1 : pending s1 = pending s) by (by apply tview_pending).
  assert (Ht1 : ∀ rc' r', rc' ≠ rc → tickingAt s1 rc' r').
  { intros rc' r' Hne ph c shown. rewrite Hrooms1, Hev, Hp1. by apply Ht. }
  assert (Hg1 : ∃ room1, getRoom s1 rc = Some (r, room1)).
  { subst s1. destruct (decide _); [|eauto].
    rewrite (calculateResults_getRoom rc now s r room Hg). eauto. }
  destruct Hg1 as [room1 Hg1].
  pose proof Hg1 as Hg1'. apply getRoom_Some in Hg1' as [Hrc1 Hroom1].
  assert (Hother : ∀ rc' r', r' ≠ r → tickingAt s1 rc' r').
  { intros rc' r' Hne. destruct (decide (rc' = rc)) as [->|Hrc]; [|by apply Ht1].
    intros ph c shown Hreg'. congruence. }
  destruct (i <? length phaseSequence - 1)%nat eqn:Hlt.
  - destruct (phaseSequence !! S i) as [nextPh|] eqn:Hnext.
    2:{ apply lookup_ge_None in Hnext. apply Nat.ltb_lt in Hlt. simpl in Hnext, Hlt. lia. }
    destruct (tickingAt_startPhase rc nextPh (PHASE_DURATIONS nextPh) now s1 r room1)
      as [H1 H2]; try done.
    + intros Hw. by destruct (truthy_next nextPh).
    + split; [done|]. split; [|done].
      apply (regOk_rview s1); [apply rview_startPhase | done].
  - set (f := upd_gameState _).
    assert (Hc : core (broadcastPhaseUpdate rc (updRoom r f s1)) = core (updRoom r f s1))
      by apply broadcastPhaseUpdate_core.
    split; [|split].
    + apply (handlesOk_tview (updRoom r f s1));
        [by apply core_tview|]. apply (handlesOk_tview s1); [by apply tview_updRoom | done].
    + apply (regOk_rview s1); [|done]. by rewrite (rview_core _ _ Hc).
    + intros rc' r' ph c shown Hreg' Hev' Hph.
      rewrite (core_eview _ _ Hc) in Hev'.
      destruct (core_fields _ _ Hc) as (Hrooms & _ & _ & _ & Hp & _).
      rewrite Hrooms in Hreg'. rewrite Hp.
      change (rooms (updRoom r f s1)) with (rooms s1) in Hreg'.
      change (pending (updRoom r f s1)) with (pending s1).
      destruct (decide (r' = r)) as [->|Hne].
      * rewrite eview_updRoom_eq, Hroom1 in Hev'. simpl in Hev'. by injection Hev' as <- _ _.
      * rewrite eview_updRoom_ne in Hev' by done.
        by apply (Hother rc' r' Hne ph c shown).
Qed.

Lemma regOk_sub s s' :
  (∀ rc r, rooms s' !! rc = Some r → rooms s !! rc = Some r) →
  nextRoom s' = nextRoom s → regOk s → regOk s'.
Proof.
  intros Hsub Hn Hreg rc r Hr. destruct (Hreg rc r (Hsub rc r Hr)) as [Hlt Hinj].
  rewrite Hn. split; [done|]. intros rc' Hr'. by apply Hinj, Hsub.
Qed.

Lemma rooms_handleDisconnect ws s rc r :
  rooms (handleDisconnect ws s) !! rc = Some r → rooms s !! rc = Some r.
Proof.
  unfold handleDisconnect. destruct (map_get ws (clients s)) as [cd|]; [|done].
  change (rooms (set_clients ?c ?x)) with (rooms x).
  destruct (if bool_decide _ then None else clientRoom s cd) as [[[rc0 r0] room0]|]; [|done].
  assert (H : ∀ m x, rooms (broadcastToRoom rc0 m x) = rooms x)
    by (intros m x; by destruct (core_fields _ _ (broadcastToRoom_core rc0 m x)) as (? & _)).
  destruct (_ =? 0)%nat.
  - change (rooms (set_rooms ?c ?x)) with c. rewrite H. simpl.
    by intros [_ ?]%lookup_delete_Some.
  - by rewrite H.
Qed.

Lemma rview_startGame rc o s : rview (startGame rc o s) = rview s.
Proof.
  unfold startGame. destruct (getRoom s rc) as [[r room]|]; [|done].
  destruct (_ <? 4)%nat; [done|]. by rewrite rview_startPhase.
Qed.

Lemma rview_advancePhase rc now s : rview (advancePhase rc now s) = rview s.
Proof.
  unfold advancePhase. destruct (getRoom s rc) as [[r room]|]; [|done].
  destruct (indexOf _ _) as [i|]; [|done].
  set (s1 := if decide (Some i = indexOf ACCUSATIONS phaseSequence)
             then calculateResults rc now s else s).
  assert (H1 : rview s1 = rview s)
    by (subst s1; destruct (decide _); [apply rview_calculateResults | done]).
  destruct (i <? length phaseSequence - 1)%nat.
  - destruct (phaseSequence !! S i); [by rewrite rview_startPhase | done].
  - by rewrite (rview_core _ _ (broadcastPhaseUpdate_core _ _)).
Qed.

Lemma rview_handleMessage ws m o s :
  m ≠ CREATE_ROOM → rview (handleMessage ws m o s) = rview s.
Proof.
  intros Hm. unfold handleMessage. destruct (map_get ws (clients s)) as [cd|]; [|done].
  destruct m as [|rc0 name0| | | | | |]; try done.
  - apply rview_joinRoom.
  - destruct (roomCode cd); [apply rview_startGame | done].
  - unfold submitAlibi. destruct (clientRoom s cd) as [[[rc r] room]|]; [|done].
    destruct (negb _); [done|]. by rewrite (rview_core _ _ (broadcastToRoom_core _ _ _)).
  - unfold askQuestion. destruct (clientRoom s cd) as [[[rc r] room]|]; [|done].
    destruct (negb _); [done|]. destruct (3 <=? _)%nat; [done|].
    by rewrite (rview_core _ _ (broadcastToRoom_core _ _ _)).
  - unfold answerQuestion. destruct (clientRoom s cd) as [[[rc r] room]|]; [|done].
    destruct (findQuestion _ _); [|done]. destruct (_ || _); [done|].
    by rewrite (rview_core _ _ (broadcastToRoom_core _ _ _)).
  - unfold submitVote. destruct (clientRoom s cd) as [[[rc r] room]|]; [|done].
    destruct (negb _); [done|]. by rewrite (rview_core _ _ (broadcastToRoom_core _ _ _)).
Qed.

(* a code enters the registry only through a CREATE_ROOM that draws it *)
Lemma rooms_step_None rc s e :
  drawsCode rc e = false → rooms s !! rc = None → rooms (step s e) !! rc = None.
Proof.
  intros He Hrc.
  assert (Hv : ∀ s', rview s' = rview s → rooms s' !! rc = None)
    by (intros s' Hs'; unfold rview in Hs'; by replace (rooms s') with (rooms s) by congruence).
  destruct e as [rnd|ws m o|ws|tid o|ws]; simpl.
  - done.
  - assert (Hm : m = CREATE_ROOM ∨ m ≠ CREATE_ROOM) by (destruct m; by eauto).
    destruct Hm as [->|Hm]; [|by apply Hv, rview_handleMessage].
    unfold handleMessage. destruct (map_get ws (clients s)) as [cd|]; [|done].
    simpl in He. apply bool_decide_eq_false in He.
    unfold createRoom. simpl. by rewrite lookup_insert_ne.
  - destruct (rooms (handleDisconnect ws (leaveOpen ws s)) !! rc) as [r|] eqn:E; [|done].
    apply rooms_handleDisconnect in E. simpl in E. congruence.
  - destruct (pending s !! tid) as [t|]; [|done].
    destruct (callback t) as [rc0|r0 rc0 ev]; simpl.
    + apply Hv. by rewrite rview_advancePhase.
    + apply Hv. by rewrite (rview_core _ _ (broadcastToRoom_core _ _ _)).
  - by destruct (map_get ws (clients s)).
Qed.

Lemma rooms_run_None rc evs s :
  forallb (fun e => negb (drawsCode rc e)) evs = true →
  rooms s !! rc = None → rooms (run evs s) !! rc = None.
Proof.
  revert s. induction evs as [|e evs IH]; intros s Hevs Hrc; simpl; [done|].
  simpl in Hevs. apply andb_true_iff in Hevs as [He Hevs].
  apply IH; [done|]. apply rooms_step_None; [|done]. by destruct (drawsCode rc e).
Qed.

(** X8.  When the only player of a room disconnects, the room loses its
    registry entry and nobody is notified, but its pending timers are not
    cancelled.  From then on, whatever happens, the code stays unregistered
    and a JOIN_ROOM with that code is answered "Room not found" (the answer
    reaches the sender if its socket is open), for as long as no CREATE_ROOM
    draws that code again. *)
Theorem last_player_leaving_unregisters_room ws cd rc r room p s :
  map_get ws (clients s) = Some cd →
  roomCode cd = Some rc → rc ≠ "" →
  getRoom s rc = Some (r, room) →
  players room = [(playerId cd, p)] →
  let s' := handleDisconnect ws s in
  rooms s' = delete rc (rooms s) ∧
  pending s' = pending s ∧ outbox s' = outbox s ∧
  clients s' = map_delete ws (clients s) ∧
  ∀ evs, forallb (fun e => negb (drawsCode rc e)) evs = true →
    rooms (run evs s') !! rc = None ∧
    ∀ ws2 cd2 name,
      joinRoom ws2 cd2 rc name (run evs s') =
      send ws2 (ERROR "Room not found") (run evs s').
Proof.
  intros Hws Hrc Hne Hg Hps s'.
  destruct (handleDisconnect_in_room ws cd rc r room s Hws Hrc Hne Hg)
    as (_ & Hrooms & Hcl & Hpe & _ & Hout).
  fold s' in Hrooms, Hcl, Hpe, Hout.
  rewrite Hps in Hrooms, Hout. simpl in Hrooms, Hout.
  rewrite decide_True in Hrooms, Hout by done. simpl in Hrooms, Hout.
  rewrite app_nil_r in Hout.
  do 4 (split; [done|]).
  intros evs Hevs.
  assert (Hnone : rooms (run evs s') !! rc = None)
    by (apply rooms_run_None; [done|]; by rewrite Hrooms, lookup_delete_eq).
  split; [done|].
  intros ws2 cd2 name. unfold joinRoom, getRoom. by rewrite Hnone.
Qed.

Lemma last_player_leaving_unregisters_room_witness :
  let s := run (take 6 lobbyEvents ++ [Message 0 START_GAME (sampleOracle 10 0)]) (initial []) in
  let s' := handleDisconnect 0 s in
  let evs := [Connection (sampleRandom 0 "0.p5xxxxxxxxx");
              Message 1 CREATE_ROOM (mkOracle 20 (sampleRandom 0 "0.cd34efghij")
                                       (sampleRandom 0 "0.cd34efghij"));
              Message 2 (JOIN_ROOM "AB12" "Cyd") (sampleOracle 30 0)] in
  size (rooms s) = 1%nat ∧ rooms s' = ∅ ∧ pending s' = pending s ∧
  rooms (run evs s') !! "CD34" = Some 1%nat ∧
  rooms (run evs s') !! "AB12" = None ∧
  joinRoom 1 (mkClientData "p2xxxxxxx" None None) "AB12" "Bob" (run evs s') =
    send 1 (ERROR "Room not found") (run evs s').
Proof.
  intros s s' evs. split; [vm_compute; reflexivity|].
  destruct (last_player_leaving_unregisters_room 0
              (mkClientData "p1xxxxxxx" (Some "AB12") (Some "Ada")) "AB12" 0%nat (roomAt s 0)
              (mkPlayer "p1xxxxxxx" "Ada" "#E63946" "detective" 0 false) s)
    as (H1 & H2 & _ & _ & H3).
  - vm_compute. reflexivity.
  - reflexivity.
  - discriminate.
  - vm_compute. reflexivity.
  - vm_compute. reflexivity.
  - split; [vm_compute; reflexivity|]. split; [exact H2|].
    split; [vm_compute; reflexivity|].
    destruct (H3 evs) as [H4 H5]; [vm_compute; reflexivity|].
    split; [exact H4 | apply H5].
Defined.

Lemma tickInv_createRoom ws cd rnd s :
  timersOk s → handlesOk s → regOk s → ticking s →
  handlesOk (createRoom ws cd rnd s) ∧ regOk (createRoom ws cd rnd s) ∧
  ticking (createRoom ws cd rnd s).
Proof.
  intros [_ Hfresh] Hh Hreg Ht.
  assert (Hnew : heap s !! nextRoom s = None).
  { destruct (heap s !! nextRoom s) as [room|] eqn:Hroom; [|done].
    apply Hfresh in Hroom. lia. }
  split; [|split].
  - intros r room tid. unfold createRoom. simpl. rewrite lookup_insert_Some.
    intros [[_ <-]|[_ Hroom]] Hof.
    + destruct Hof as [Hp|He]; [done|]. simpl in He. by apply elem_of_nil in He.
    + by apply (Hh r room tid).
  - intros rc r. unfold createRoom. simpl. rewrite lookup_insert_Some.
    intros [[<- <-]|[Hne Hr]].
    + split; [lia|]. intros rc'. rewrite lookup_insert_Some.
      intros [[? _]|[_ Hr']]; [done|]. apply Hreg in Hr' as [? _]. lia.
    + destruct (Hreg rc r Hr) as [Hlt Hinj]. split; [lia|].
      intros rc'. rewrite lookup_insert_Some. intros [[_ ?]|[_ Hr']]; [lia|]. by apply Hinj.
  - intros rc r ph c shown. unfold eview, createRoom. simpl.
    rewrite lookup_insert_Some, lookup_fmap.
    intros [[<- <-]|[Hne Hr]].
    + rewrite lookup_insert_eq. simpl. by intros [= <- _ _].
    + destruct (Hreg rc r Hr) as [Hlt _].
      rewrite lookup_insert_ne by lia. rewrite <- lookup_fmap.
      by apply (Ht rc r ph c shown).
Qed.

Lemma tickInv_view s s' :
  tview s' = tview s → rview s' = rview s → eview s' = eview s →
  handlesOk s ∧ regOk s ∧ ticking s → handlesOk s' ∧ regOk s' ∧ ticking s'.
Proof.
  intros Htv Hrv Hev (Hh & Hreg & Ht). split; [by apply (handlesOk_tview s)|].
  split; [by apply (regOk_rview s)|].
  apply (ticking_view s); [|done | by apply tview_pending | done].
  unfold rview in Hrv. injection Hrv as -> _. done.
Qed.

Lemma tickInv_handleMessage ws m o s :
  timersOk s → handlesOk s → regOk s → ticking s →
  handlesOk (handleMessage ws m o s) ∧ regOk (handleMessage ws m o s) ∧
  ticking (handleMessage ws m o s).
Proof.
  intros Hok Hh Hreg Ht. unfold handleMessage.
  destruct (map_get ws (clients s)) as [cd|]; [|done].
  destruct m as [|rc0 name0| |alibi|toId text|qid ans|suspect conf|].
  - by apply tickInv_createRoom.
  - apply (tickInv_view s);
      [apply tview_joinRoom | apply rview_joinRoom | apply eview_joinRoom | done].
  - destruct (roomCode cd); [by apply tickInv_startGame | done].
  - apply (tickInv_view s); [apply tview_submitAlibi | | | done];
      unfold submitAlibi; destruct (clientRoom s cd) as [[[rc r] room]|]; try done;
      destruct (negb _); try done.
    + by rewrite (rview_core _ _ (broadcastToRoom_core _ _ _)).
    + rewrite (core_eview _ _ (broadcastToRoom_core _ _ _)). by rewrite eview_updRoom.
  - apply (tickInv_view s); [apply tview_askQuestion | | | done];
      unfold askQuestion; destruct (clientRoom s cd) as [[[rc r] room]|]; try done;
      destruct (negb _); try done; destruct (3 <=? _)%nat; try done.
    + by rewrite (rview_core _ _ (broadcastToRoom_core _ _ _)).
    + rewrite (core_eview _ _ (broadcastToRoom_core _ _ _)). by rewrite eview_updRoom.
  - apply (tickInv_view s); [apply tview_answerQuestion | | | done];
      unfold answerQuestion; destruct (clientRoom s cd) as [[[rc r] room]|]; try done;
      destruct (findQuestion _ _); try done; destruct (_ || _); try done.
    + by rewrite (rview_core _ _ (broadcastToRoom_core _ _ _)).
    + rewrite (core_eview _ _ (broadcastToRoom_core _ _ _)). by rewrite eview_updRoom.
  - apply (tickInv_view s); [apply tview_submitVote | | | done];
      unfold submitVote; destruct (clientRoom s cd) as [[[rc r] room]|]; try done;
      destruct (negb _); try done.
    + by rewrite (rview_core _ _ (broadcastToRoom_core _ _ _)).
    + rewrite (core_eview _ _ (broadcastToRoom_core _ _ _)). by rewrite eview_updRoom.
  - done.
Qed.

Lemma tickInv_step s e :
  timersOk s → handlesOk s → regOk s → ticking s →
  handlesOk (step s e) ∧ regOk (step s e) ∧ ticking (step s e).
Proof.
  intros Hok Hh Hreg Ht. destruct e as [rnd|ws m o|ws|tid o|ws]; simpl;
    [| | | |by destruct (map_get ws (clients s))].
  - by apply (tickInv_view s).
  - by apply tickInv_handleMessage.
  - pose proof (tview_handleDisconnect ws (leaveOpen ws s)) as Htv.
    split; [by apply (handlesOk_tview (leaveOpen ws s))|]. split.
    + apply (regOk_sub (leaveOpen ws s));
        [apply (rooms_handleDisconnect ws (leaveOpen ws s)) | | exact Hreg].
      unfold tview in Htv. congruence.
    + apply (ticking_view (leaveOpen ws s));
        [apply (rooms_handleDisconnect ws (leaveOpen ws s))
        | apply (eview_handleDisconnect ws (leaveOpen ws s))
        | by apply tview_pending | exact Ht].
  - destruct (pending s !! tid) as [t|] eqn:Hp; [|done].
    set (s0 := clearTimeout tid s).
    assert (Hok0 : timersOk s0) by (by apply timersOk_clearTimeout).
    assert (Hh0 : handlesOk s0).
    { apply (handlesOk_weaken s); [done | | by eauto | done].
      intros tid' t'. simpl. by intros [_ ?]%lookup_delete_Some. }
    assert (Hreg0 : regOk s0) by exact Hreg.
    assert (Hkeep : ∀ rc r, (∀ d, t ≠ mkTimer r d (CbAdvancePhase rc)) → tickingAt s0 rc r).
    { intros rc r Hne ph c shown Hr Hev Hph.
      destruct (Ht rc r ph c shown Hr Hev Hph) as (tid' & d & Hp').
      exists tid', d. simpl. rewrite lookup_delete_ne; [done|].
      intros <-. rewrite Hp in Hp'. injection Hp' as ->. by apply (Hne d). }
    destruct (callback t) as [rc0|r0 rc0 ev] eqn:Hcb; simpl.
    + destruct (tickInv_advancePhase rc0 (now o) s0 Hok0 Hh0 Hreg0) as [H|[-> Hw]].
      * intros rc' r' Hne. apply Hkeep. intros d ->. simpl in Hcb. congruence.
      * done.
      * split; [done|]. split; [done|]. intros rc r.
        destruct (decide (rc = rc0)) as [->|Hne].
        -- intros ph c shown Hr Hev Hph.
           apply eview_lookup_inv in Hev as (room & Hroom & Hf).
           assert (Hg : getRoom s0 rc0 = Some (r, room)) by (by apply getRoom_Some).
           apply Hw in Hg. unfold evidenceFields in Hf. congruence.
        -- apply Hkeep. intros d ->. simpl in Hcb. congruence.
    + set (f := upd_gameState _).
      assert (Hc : core (broadcastToRoom rc0 (EVIDENCE_REVEALED ev) (updRoom r0 f s0)) =
                   core (updRoom r0 f s0)) by apply broadcastToRoom_core.
      split; [|split].
      * apply (handlesOk_tview s0); [apply tview_revealEvidence | done].
      * apply (regOk_rview s0); [by rewrite (rview_core _ _ Hc) | done].
      * intros rc r ph c shown Hr Hev Hph.
        rewrite (core_eview _ _ Hc) in Hev.
        destruct (core_fields _ _ Hc) as (Hrooms & _ & _ & _ & Hpe & _).
        rewrite Hrooms in Hr. rewrite Hpe.
        assert (Hev0 : ∃ shown0, eview s0 !! r = Some (ph, c, shown0)).
        { destruct (decide (r = r0)) as [->|Hne].
          - rewrite eview_updRoom_eq in Hev.
            destruct (heap s0 !! r0) as [room|] eqn:Hroom; [|done]. simpl in Hev.
            injection Hev as <- <- _. exists (currentEvidence (gameState room)).
            by rewrite (eview_lookup s0 r0 room Hroom).
          - rewrite eview_updRoom_ne in Hev by done. eauto. }
        destruct Hev0 as [shown0 Hev0].
        apply (Hkeep rc r) with (ph := ph) (c := c) (shown := shown0); try done.
        intros d ->. simpl in Hcb. congruence.
Qed.

Lemma tickInv_run evs s :
  timersOk s → handlesOk s → regOk s → ticking s →
  handlesOk (run evs s) ∧ regOk (run evs s) ∧ ticking (run evs s).
Proof.
  revert s. induction evs as [|e evs IH]; intros s Hok Hh Hreg Ht; simpl; [done|].
  destruct (tickInv_step s e Hok Hh Hreg Ht) as (? & ? & ?).
  apply IH; try done. by apply step_timersOk.
Qed.

Lemma tickInv_initial lb : handlesOk (initial lb) ∧ regOk (initial lb) ∧ ticking (initial lb).
Proof.
  split; [|split].
  - intros r room tid. simpl. by rewrite lookup_empty.
  - intros rc r. simpl. by rewrite lookup_empty.
  - intros rc r ph c shown. simpl. by rewrite lookup_empty.
Qed.

(* the phase after advancePhase *)
Lemma advancePhase_phase rc now s r room :
  getRoom s rc = Some (r, room) →
  ∃ room', getRoom (advancePhase rc now s) rc = Some (r, room') ∧
    phase (gameState room') = nextPhase (phase (gameState room)).
Proof.
  intros Hg.
  assert (Hstart : ∀ s1 room1 ph, getRoom s1 rc = Some (r, room1) →
            ∃ room', getRoom (startPhase rc ph (PHASE_DURATIONS ph) now s1) rc = Some (r, room') ∧
              phase (gameState room') = ph).
  { intros s1 room1 ph Hg1.
    destruct (startPhase_room rc ph (PHASE_DURATIONS ph) now s1 r room1 Hg1)
      as (room' & Hh & Hrooms & _ & _ & _ & Hgs).
    exists room'. split; [|by rewrite Hgs].
    apply getRoom_Some. apply getRoom_Some in Hg1 as [Hr _]. by rewrite Hrooms. }
  unfold advancePhase. rewrite Hg.
  destruct (phase (gameState room)) eqn:Hph; simpl.
  - eauto.
  - by apply (Hstart s room).
  - by apply (Hstart s room).
  - by apply (Hstart s room).
  - apply (Hstart _ (scoreRoom room)). by apply calculateResults_getRoom.
  - set (f := upd_gameState _). exists (f room).
    split; [|done]. rewrite (core_getRoom _ _ rc (broadcastPhaseUpdate_core _ _)).
    by apply getRoom_updRoom.
Qed.

(** X23.  A round that is under way cannot stall: in every reachable state
    a registered room that is not in WAITING has a pending phase timer of its
    own, and when that timer fires the room moves on to the next phase of the
    round (to WAITING after RESULTS). *)
Theorem running_round_has_its_timer lb evs rc r room :
  let s := run evs (initial lb) in
  getRoom s rc = Some (r, room) →
  phase (gameState room) ≠ WAITING →
  ∃ tid d, pending s !! tid = Some (mkTimer r d (CbAdvancePhase rc)) ∧
    ∀ o, ∃ room', getRoom (step s (Timeout tid o)) rc = Some (r, room') ∧
      phase (gameState room') = nextPhase (phase (gameState room)).
Proof.
  intros s Hg Hph.
  destruct (tickInv_initial lb) as (Hh0 & Hreg0 & Ht0).
  destruct (tickInv_run evs (initial lb) (initial_timersOk lb) Hh0 Hreg0 Ht0)
    as (_ & _ & Ht). fold s in Ht.
  pose proof Hg as Hg0. apply getRoom_Some in Hg0 as [Hr Hroom].
  destruct (Ht rc r _ _ _ Hr (eview_lookup s r room Hroom) Hph) as (tid & d & Hp).
  exists tid, d. split; [done|]. intros o. simpl. rewrite Hp. simpl.
  apply advancePhase_phase. by apply getRoom_Some.
Qed.

Lemma running_round_has_its_timer_witness :
  phaseOf interrogating "AB12" = Some INTERROGATION ∧
  ∃ tid d, pending interrogating !! tid = Some (mkTimer 0 d (CbAdvancePhase "AB12")) ∧
    ∀ o, ∃ room', getRoom (step interrogating (Timeout tid o)) "AB12" = Some (0%nat, room') ∧
      phase (gameState room') = ACCUSATIONS.
Proof.
  split; [vm_compute; reflexivity|].
  destruct (running_round_has_its_timer [] interrogatingEvents "AB12" 0%nat
              (roomAt interrogating 0)) as (tid & d & H1 & H2).
  - vm_compute. reflexivity.
  - vm_compute. discriminate.
  - exists tid, d. split; [exact H1|]. intros o. destruct (H2 o) as (room' & H3 & H4).
    exists room'. split; [exact H3|]. rewrite H4. vm_compute. reflexivity.
Defined.

(** * Properties of the client-side GameManager *)

Section ClientSide.
Import GameManager.

Lemma map_keys_map_values {A} (f : A → A) (l : list (string * A)) :
  map_keys (map (fun kv => (kv.1, f kv.2)) l) = map_keys l.
Proof. unfold map_keys. induction l as [|[k v] l IH]; simpl; [done|]. by f_equal. Qed.

Lemma Forall_map_values {A} (Q : string * A → Prop) (f : A → A) (l : list (string * A)) :
  Forall (fun kv => Q (kv.1, f kv.2)) l → Forall Q (map (fun kv => (kv.1, f kv.2)) l).
Proof. induction 1; simpl; constructor; done. Qed.

Lemma map_get_map_values {A} (f : A → A) k (l : list (string * A)) :
  map_get k (map (fun kv => (kv.1, f kv.2)) l) = f <$> map_get k l.
Proof.
  induction l as [|[k0 v0] l IH]; simpl; [done|]. by destruct (decide (k0 = k)).
Qed.

Lemma map_get_app_r {A} k (pre l : list (string * A)) :
  k ∉ map_keys pre → map_get k (pre ++ l) = map_get k l.
Proof.
  unfold map_keys. induction pre as [|[k0 v0] pre IH]; simpl; [done|].
  intros Hk. apply not_elem_of_cons in Hk as [Hne Hk]. rewrite decide_False by done. by apply IH.
Qed.

Lemma map_set_app_r {A} k (v v' : A) (pre suf : list (string * A)) :
  k ∉ map_keys pre → map_set k v' (pre ++ (k, v) :: suf) = pre ++ (k, v') :: suf.
Proof.
  unfold map_keys. induction pre as [|[k0 v0] pre IH]; simpl.
  - intros _. by rewrite decide_True.
  - intros Hk. apply not_elem_of_cons in Hk as [Hne Hk]. rewrite decide_False by done.
    by rewrite IH.
Qed.

Lemma changePhase_state ph now m :
  players (state (changePhase ph now m)) = players (state m) ∧
  questions (state (changePhase ph now m)) = questions (state m) ∧
  phase (state (changePhase ph now m)) = ph ∧
  guiltyPlayerId (state (changePhase ph now m)) = guiltyPlayerId (state m) ∧
  crime (state (changePhase ph now m)) = crime (state m) ∧
  roundNumber (state (changePhase ph now m)) = roundNumber (state m).
Proof. unfold changePhase. by destruct (phaseDurations ph). Qed.

Lemma advancePhase_state now m :
  players (state (advancePhase now m)) = players (state m) ∧
  questions (state (advancePhase now m)) = questions (state m) ∧
  guiltyPlayerId (state (advancePhase now m)) = guiltyPlayerId (state m) ∧
  crime (state (advancePhase now m)) = crime (state m) ∧
  roundNumber (state (advancePhase now m)) = roundNumber (state m) ∧
  (phase (state (advancePhase now m)) = phase (state m) ∨
   phase (state (advancePhase now m)) ∈ phaseOrder).
Proof.
  unfold advancePhase. destruct (_ <? _)%Z.
  - destruct (phaseOrder !! _) as [ph|] eqn:Hph.
    + destruct (changePhase_state ph now m) as (-> & -> & -> & -> & -> & ->).
      repeat split; try done. right. by apply list_elem_of_lookup_2 in Hph.
    + repeat split; try done. by left.
  - destruct (changePhase_state WAITING now m) as (-> & -> & -> & -> & -> & ->).
    repeat split; try done. right. apply list_elem_of_here.
Qed.

Lemma addScore_zero p : addScore 0 p = p.
Proof. destruct p. unfold addScore. simpl. by rewrite Z.add_0_r. Qed.

(* the forEach of calculateResults, run over the records that are left *)
Lemma tally_loop g pre suf n :
  NoDup (map_keys (pre ++ suf)) →
  Forall (fun kv : string * Player => pid kv.2 = kv.1) suf →
  foldl (tallyPlayer g) (pre ++ suf, n) (map_keys suf) =
    (pre ++ map (fun kv => (kv.1, tallied g kv.2)) suf, (n + fooled g suf)%Z).
Proof.
  revert pre n. induction suf as [|[k p] suf IH]; intros pre n Hnd Hk.
  - simpl. unfold fooled. simpl. by rewrite Z.add_0_r.
  - apply Forall_cons in Hk as [Hkp Hk]. simpl in Hkp.
    assert (Hpre : k ∉ map_keys pre).
    { unfold map_keys in *. rewrite fmap_app in Hnd. apply NoDup_app in Hnd as (_ & Hd & _).
      intros Hin. apply (Hd k Hin). simpl. apply list_elem_of_here. }
    assert (Hnd' : ∀ p', NoDup (map_keys ((pre ++ [(k, p')]) ++ suf))).
    { intros p'. unfold map_keys in *. rewrite <- app_assoc. simpl.
      by rewrite fmap_app in *. }
    change (map_keys ((k, p) :: suf)) with (k :: map_keys suf). simpl foldl.
    unfold tallyPlayer at 2. simpl. rewrite (map_get_app_r k pre _ Hpre). simpl.
    rewrite decide_True by done.
    unfold tallied at 1. simpl. rewrite Hkp.
    unfold fooled. rewrite filter_cons. simpl.
    destruct (decide (k = g)) as [Hg|Hg].
    + rewrite decide_False by tauto.
      replace (pre ++ (k, p) :: suf) with ((pre ++ [(k, p)]) ++ suf)
        by (by rewrite <- app_assoc).
      rewrite (IH (pre ++ [(k, p)]) n (Hnd' p) Hk). by rewrite <- app_assoc.
    + destruct (decide (vote p = Some g)) as [Hv|Hv].
      * rewrite decide_False by tauto. rewrite (map_set_app_r k p _ pre suf Hpre).
        match goal with |- context [(k, ?p') :: suf] =>
          replace (pre ++ (k, p') :: suf) with ((pre ++ [(k, p')]) ++ suf)
            by (by rewrite <- app_assoc);
          rewrite (IH (pre ++ [(k, p')]) n (Hnd' p') Hk)
        end.
        by rewrite <- app_assoc.
      * rewrite decide_True by tauto.
        replace (pre ++ (k, p) :: suf) with ((pre ++ [(k, p)]) ++ suf)
          by (by rewrite <- app_assoc).
        rewrite (IH (pre ++ [(k, p)]) (n + 1)%Z (Hnd' p) Hk). rewrite <- app_assoc.
        simpl. f_equal. unfold fooled. lia.
Qed.

Lemma playersOk_set k p ps :
  playersOk ps → pid p = k → (0 ≤ score p)%Z →
  (∀ c, confidence p = Some c → (1 ≤ c ≤ 3)%Z) →
  playersOk (map_set k p ps).
Proof.
  intros [H1 H2 H3 H4] Hk Hs Hc. split.
  - by apply map_set_NoDup.
  - by apply map_set_Forall.
  - by apply map_set_Forall.
  - by apply map_set_Forall.
Qed.

Lemma playersOk_get k p ps :
  playersOk ps → map_get k ps = Some p →
  pid p = k ∧ (0 ≤ score p)%Z ∧ (∀ c, confidence p = Some c → (1 ≤ c ≤ 3)%Z).
Proof.
  intros [H1 H2 H3 H4] Hp. split; [|split].
  - apply (map_get_Forall_pair _ k p ps H2 Hp).
  - apply (map_get_Forall_pair _ k p ps H3 Hp).
  - apply (map_get_Forall_pair _ k p ps H4 Hp).
Qed.

Lemma playersOk_map (f : Player → Player) ps :
  playersOk ps →
  (∀ p, pid (f p) = pid p ∧ (0 ≤ score p → 0 ≤ score (f p))%Z ∧
        ((∀ c, confidence p = Some c → (1 ≤ c ≤ 3)%Z) →
         ∀ c, confidence (f p) = Some c → (1 ≤ c ≤ 3)%Z)) →
  playersOk (map (fun kv => (kv.1, f kv.2)) ps).
Proof.
  intros [H1 H2 H3 H4] Hf. split.
  - by rewrite map_keys_map_values.
  - apply Forall_map_values. eapply Forall_impl; [exact H2|].
    intros [k p] Hp. simpl in *. by rewrite (proj1 (Hf p)).
  - apply Forall_map_values. eapply Forall_impl; [exact H3|].
    intros [k p] Hp. simpl in *. by apply (Hf p).
  - apply Forall_map_values. eapply Forall_impl; [exact H4|].
    intros [k p] Hp. simpl in *. by apply (Hf p).
Qed.

Lemma fooled_nonneg g ps : (0 ≤ fooled g ps)%Z.
Proof. unfold fooled. lia. Qed.

Lemma tallied_ok g p :
  (∀ c, confidence p = Some c → (1 ≤ c ≤ 3)%Z) →
  pid (tallied g p) = pid p ∧ (score p ≤ score (tallied g p))%Z ∧
  confidence (tallied g p) = confidence p ∧ vote (tallied g p) = vote p ∧
  isGuilty (tallied g p) = isGuilty p.
Proof.
  intros Hc. unfold tallied. destruct (decide (pid p = g)); [repeat split; lia|].
  destruct (decide (vote p = Some g)); [|repeat split; lia].
  simpl. repeat split; try done.
  destruct (confidence p) as [c|]; [|lia]. specialize (Hc c eq_refl).
  destruct (c =? 0)%Z; lia.
Qed.

(* the players after calculateResults *)
Lemma calculateResults_players m g :
  NoDup (map_keys (players (state m))) →
  Forall (fun kv : string * Player => pid kv.2 = kv.1) (players (state m)) →
  guiltyPlayerId (state m) = Some g → g ≠ "" →
  let ps := map (fun kv => (kv.1, tallied g kv.2)) (players (state m)) in
  players (state (calculateResults m)) =
    match map_get g ps with
    | Some guiltyPlayer =>
        map_set g (addScore (fooled g (players (state m)) * 150) guiltyPlayer) ps
    | None => ps
    end ∧
  questions (state (calculateResults m)) = questions (state m) ∧
  phase (state (calculateResults m)) = phase (state m).
Proof.
  intros Hnd Hk Hg Hne ps. unfold calculateResults. rewrite Hg.
  rewrite bool_decide_false by done.
  pose proof (tally_loop g [] (players (state m)) 0 Hnd Hk) as Hloop.
  simpl in Hloop. rewrite Hloop. fold ps. by destruct (map_get g ps).
Qed.

Lemma wellFormed_calculateResults m : wellFormed m → wellFormed (calculateResults m).
Proof.
  intros [Hp Hq Hph].
  destruct (guiltyPlayerId (state m)) as [g|] eqn:Hg;
    [|unfold calculateResults; rewrite Hg; by split].
  destruct (decide (g = "")) as [->|Hne];
    [unfold calculateResults; rewrite Hg; by split|].
  destruct (calculateResults_players m g (pok_ids _ Hp) (pok_keys _ Hp) Hg Hne)
    as (Hps & Hqs & Hphs).
  split; [|by rewrite Hqs | by rewrite Hphs].
  rewrite Hps.
  assert (Hok : playersOk (map (fun kv => (kv.1, tallied g kv.2)) (players (state m)))).
  { destruct Hp as [H1 H2 H3 H4]. split.
    - by rewrite map_keys_map_values.
    - apply Forall_map_values. eapply Forall_impl; [exact H2|].
      intros [k p] Hkp. simpl in *. unfold tallied.
      destruct (decide _); [done|]. by destruct (decide _).
    - apply Forall_map_values.
      apply Forall_forall. intros [k p] Hin. simpl.
      pose proof (proj1 (Forall_forall _ _) H3 _ Hin) as Hs.
      pose proof (proj1 (Forall_forall _ _) H4 _ Hin) as Hc. simpl in Hs, Hc.
      destruct (tallied_ok g p Hc) as (_ & ? & _). lia.
    - apply Forall_map_values.
      apply Forall_forall. intros [k p] Hin. simpl.
      pose proof (proj1 (Forall_forall _ _) H4 _ Hin) as Hc. simpl in Hc.
      destruct (tallied_ok g p Hc) as (_ & _ & -> & _). done. }
  destruct (map_get g _) as [gp|] eqn:Hgp; [|done].
  destruct (playersOk_get g gp _ Hok Hgp) as (H1 & H2 & H3).
  apply playersOk_set; [done | done | | done].
  simpl. pose proof (fooled_nonneg g (players (state m))). lia.
Qed.

Lemma count_answerFirst qid ans k qs :
  length (filter (fun q => from q = k) (answerFirst qid ans qs)) =
  length (filter (fun q => from q = k) qs).
Proof.
  induction qs as [|q qs IH]; simpl; [done|].
  destruct (decide (id q = qid)).
  - destruct (answer q) as [a|]; [destruct (bool_decide (a = ""))|];
      rewrite ?filter_cons; simpl; by destruct (decide (from q = k)).
  - rewrite !filter_cons. destruct (decide (from q = k)); simpl; by rewrite IH.
Qed.

Lemma wellFormed_call m c : wellFormed m → wellFormed (call m c).
Proof.
  intros Hwf. pose proof Hwf as [Hp Hq Hph].
  destruct c as [pl nm|pl|r1 r2 t|t|ev|pl al|fromId toId txt t rnd|qid ans|pl sus conf|]; simpl.
  - (* addPlayer *)
    split; [|done|done]. simpl. apply playersOk_set; [done | done | simpl; lia | done].
  - (* removePlayer *)
    split; [|done|done]. simpl. destruct Hp as [H1 H2 H3 H4].
    split; [by apply map_delete_NoDup | by apply map_delete_Forall ..].
  - (* startGame *)
    unfold startGame. destruct (canStartGame m); [|done]. cbn [negb].
    match goal with |- wellFormed (changePhase SETUP ?t ?m') =>
      destruct (changePhase_state SETUP t m') as (Hps & Hqs & Hphs & _) end.
    split; [rewrite Hps | rewrite Hqs | by rewrite Hphs].
    + simpl. apply playersOk_map; [|by intros p].
      destruct (map_keys _ !! _) as [g|]; [|done].
      destruct (map_get g _) as [p|] eqn:Hgp; [|done].
      destruct (playersOk_get g p _ Hp Hgp) as (H1 & H2 & H3).
      by apply playersOk_set.
    + simpl. intros k. simpl. lia.
  - (* the phase timer *)
    destruct (phaseTimer m); [|done].
    destruct (advancePhase_state t m) as (Hps & Hqs & _ & _ & _ & Hphs).
    split; [by rewrite Hps | by rewrite Hqs |].
    destruct Hphs as [->|Hin]; [done|]. intros Heq. rewrite Heq in Hin.
    by repeat (apply elem_of_cons in Hin as [?|Hin]; [done|]); apply elem_of_nil in Hin.
  - (* an evidence timer *)
    destruct (bool_decide _); [|done]. unfold revealEvidence.
    destruct (bool_decide _); [|done]. by split.
  - (* submitAlibi *)
    unfold submitAlibi. destruct (map_get _ _) as [p|] eqn:Hgp; [|done].
    destruct (bool_decide _); [|done].
    destruct (playersOk_get _ p _ Hp Hgp) as (H1 & H2 & H3).
    split; [|done|done]. simpl. by apply playersOk_set.
  - (* askQuestion *)
    unfold askQuestion. destruct (negb _); [done|].
    destruct (map_get _ _); [|done].
    destruct (3 <=? _)%nat eqn:Hn; [done|]. apply Nat.leb_gt in Hn.
    split; [done| |done]. simpl. intros k. rewrite filter_app, length_app.
    rewrite filter_cons, filter_nil. simpl.
    destruct (decide (fromId = k)) as [<-|Hne]; simpl; [lia|].
    specialize (Hq k). lia.
  - (* answerQuestion *)
    split; [done| |done]. simpl. intros k. by rewrite count_answerFirst.
  - (* submitVote *)
    unfold submitVote. destruct (map_get _ _) as [p|] eqn:Hgp; [|done].
    destruct (bool_decide _); [|done].
    destruct (playersOk_get _ p _ Hp Hgp) as (H1 & H2 & H3).
    split; [|done|done]. simpl. apply playersOk_set; [done | done | done |].
    simpl. intros c [= <-]. lia.
  - by apply wellFormed_calculateResults.
Qed.

Lemma wellFormed_calls cs m : wellFormed m → wellFormed (calls cs m).
Proof.
  revert m. induction cs as [|c cs IH]; intros m Hm; simpl; [done|].
  by apply IH, wellFormed_call.
Qed.

Lemma wellFormed_create rc : wellFormed (create rc).
Proof.
  split; simpl; [|intros k; simpl; lia | done].
  split; simpl; constructor.
Qed.

(** X17.  Whatever calls are made on a GameManager, and whichever of its
    timers fire, there is one record per player id, each kept under its id,
    no score is negative, a recorded wager is 1, 2 or 3, nobody has more than
    three questions to their name, and the phase is never EVIDENCE_DROP. *)
Theorem manager_stays_well_formed rc cs :
  let st := state (calls cs (create rc)) in
  NoDup (map_keys (players st)) ∧
  (∀ k p, map_get k (players st) = Some p →
     pid p = k ∧ (0 ≤ score p)%Z ∧ ∀ c, confidence p = Some c → (1 ≤ c ≤ 3)%Z) ∧
  (∀ k, (length (filter (fun q => from q = k) (questions st)) ≤ 3)%nat) ∧
  phase st ≠ EVIDENCE_DROP.
Proof.
  intros st.
  destruct (wellFormed_calls cs (create rc) (wellFormed_create rc)) as [Hp Hq Hph].
  split; [apply (pok_ids _ Hp)|]. split; [|done].
  intros k p Hk. by apply (playersOk_get k p _ Hp).
Qed.

(** X18.  calculateResults of the GameManager, when a guilty player is
    set: a player other than the guilty one gains 100 times their wager if
    their vote names the guilty player and nothing otherwise; the guilty
    player gains 150 for every other player whose vote does not name them,
    players who did not vote included, and nothing for their own vote. *)
Theorem manager_scoring rc cs g k p :
  let m := calls cs (create rc) in
  guiltyPlayerId (state m) = Some g → g ≠ "" →
  map_get k (players (state m)) = Some p →
  map_keys (players (state (calculateResults m))) = map_keys (players (state m)) ∧
  map_get k (players (state (calculateResults m))) =
    Some (addScore (award g (players (state m)) k p) p).
Proof.
  intros m Hg Hne Hk.
  destruct (wellFormed_calls cs (create rc) (wellFormed_create rc)) as [Hp _ _].
  fold m in Hp.
  destruct (calculateResults_players m g (pok_ids _ Hp) (pok_keys _ Hp) Hg Hne)
    as (Hps & _).
  destruct (playersOk_get k p _ Hp Hk) as (Hpid & _).
  set (psT := map (fun kv => (kv.1, tallied g kv.2)) (players (state m))) in *.
  assert (HT : ∀ k' p', map_get k' (players (state m)) = Some p' →
                 map_get k' psT = Some (tallied g p'))
    by (intros k' p' H; unfold psT; by rewrite map_get_map_values, H).
  assert (Hkeys : map_keys psT = map_keys (players (state m)))
    by apply map_keys_map_values.
  rewrite Hps. unfold award. destruct (decide (k = g)) as [->|Hkg].
  - rewrite (HT g p Hk). split.
    + rewrite map_keys_set_present; [done|]. rewrite (HT g p Hk). eauto.
    + rewrite map_get_set_eq. unfold tallied. rewrite decide_True by done.
      by rewrite Z.mul_comm.
  - assert (Hkp : map_get k psT = Some (addScore
              (if decide (vote p = Some g)
               then 100 * match confidence p with
                          | Some c => if (c =? 0)%Z then 1 else c
                          | None => 1
                          end
               else 0) p)).
    { rewrite (HT k p Hk). unfold tallied. rewrite decide_False by congruence.
      destruct (decide (vote p = Some g)); [done|]. by rewrite addScore_zero. }
    destruct (map_get g psT) as [gp|] eqn:Hgp.
    + split; [rewrite map_keys_set_present; [done | rewrite Hgp; eauto]|].
      rewrite map_get_set_ne by done. exact Hkp.
    + split; [done | exact Hkp].
Qed.

Lemma manager_scoring_witness :
  guiltyPlayerId (state clientRound) = Some "a" ∧
  scores clientRound = [("a", 0); ("b", 0); ("c", 0); ("d", 0)]%Z ∧
  scores (calculateResults clientRound) = [("a", 300); ("b", 200); ("c", 0); ("d", 0)]%Z ∧
  ∃ p, map_get "a" (players (state clientRound)) = Some p ∧
    map_get "a" (players (state (calculateResults clientRound))) =
      Some (addScore (award "a" (players (state clientRound)) "a" p) p).
Proof.
  split; [vm_compute; reflexivity|]. split; [vm_compute; reflexivity|].
  split; [vm_compute; reflexivity|].
  eexists. split; [vm_compute; reflexivity|].
  apply (manager_scoring "AB12" clientRoundCalls "a" "a").
  - vm_compute. reflexivity.
  - discriminate.
  - vm_compute. reflexivity.
Defined.

Lemma scores_map_set k p p' ps :
  map_get k ps = Some p → score p' = score p →
  map (fun kv : string * Player => (kv.1, score kv.2)) (map_set k p' ps) =
  map (fun kv : string * Player => (kv.1, score kv.2)) ps.
Proof.
  intros Hk Hs. induction ps as [|[k0 p0] ps IH]; simpl in *; [done|].
  destruct (decide (k0 = k)) as [->|Hne]; simpl.
  - injection Hk as ->. by rewrite Hs.
  - f_equal. by apply IH.
Qed.

Lemma scores_map_values (f : Player → Player) ps :
  (∀ p, score (f p) = score p) →
  map (fun kv : string * Player => (kv.1, score kv.2)) (map (fun kv => (kv.1, f kv.2)) ps) =
  map (fun kv : string * Player => (kv.1, score kv.2)) ps.
Proof.
  intros Hf. induction ps as [|[k0 p0] ps IH]; simpl; [done|]. by rewrite Hf, IH.
Qed.

(** X19.  Nothing the GameManager does by itself changes a score: starting
    a game, the phase timer (also from ACCUSATIONS into RESULTS), the evidence
    timers, alibis, questions, answers and votes all leave every score as it
    is.  Scores change only when calculateResults is called from outside, or
    when a player is added or removed. *)
Theorem manager_never_scores_by_itself m c :
  match c with
  | CalculateResults | AddPlayer _ _ | RemovePlayer _ => True
  | _ => scores (call m c) = scores m
  end.
Proof.
  destruct c as [pl nm|pl|r1 r2 t|t|ev|pl al|fromId toId txt t rnd|qid ans|pl sus conf|];
    simpl; try done.
  - unfold startGame. destruct (canStartGame m); [|done]. cbn [negb].
    unfold scores.
    match goal with |- context [changePhase SETUP ?t ?m'] =>
      destruct (changePhase_state SETUP t m') as (-> & _) end.
    simpl. rewrite scores_map_values by done.
    destruct (map_keys _ !! _) as [g|]; [|done].
    destruct (map_get g _) as [p|] eqn:Hgp; [|done].
    by apply scores_map_set with (p := p).
  - destruct (phaseTimer m); [|done]. unfold scores.
    by destruct (advancePhase_state t m) as (-> & _).
  - destruct (bool_decide _); [|done]. unfold revealEvidence. by destruct (bool_decide _).
  - unfold submitAlibi. destruct (map_get _ _) as [p|] eqn:Hgp; [|done].
    destruct (bool_decide _); [|done]. unfold scores. simpl.
    by apply scores_map_set with (p := p).
  - unfold askQuestion. destruct (negb _); [done|]. destruct (map_get _ _); [|done].
    by destruct (3 <=? _)%nat.
  - unfold submitVote. destruct (map_get _ _) as [p|] eqn:Hgp; [|done].
    destruct (bool_decide _); [|done]. unfold scores. simpl.
    by apply scores_map_set with (p := p).
Qed.

Lemma marked_set m k k' p p' :
  map_get k' (players (state m)) = Some p → (isGuilty p = true → isGuilty p' = true) →
  marked m k → marked (set_players (map_set k' p' (players (state m))) m) k.
Proof.
  intros Hk' Hg (p0 & Hp0 & Hm). unfold marked. simpl.
  destruct (decide (k' = k)) as [->|Hne].
  - exists p'. rewrite map_get_set_eq. split; [done|]. apply Hg. congruence.
  - exists p0. by rewrite map_get_set_ne.
Qed.

(** X20.  The guilty mark of a player record is never taken back: once a
    record is marked, it stays marked through every call and timer, until
    that player is removed or added again; and every game that starts marks
    the player it draws.  So the marks of earlier rounds pile up. *)
Theorem manager_guilty_marks_pile_up rc cs :
  let m := calls cs (create rc) in
  (∀ c k, marked m k → c ≠ RemovePlayer k → (∀ n, c ≠ AddPlayer k n) →
     marked (call m c) k) ∧
  (∀ rndCrime rndGuilty now, canStartGame m = true →
     ∃ g, guiltyPlayerId (state (startGame rndCrime rndGuilty now m)) = Some g ∧
       marked (startGame rndCrime rndGuilty now m) g).
Proof.
  intros m.
  pose proof (wellFormed_calls cs (create rc) (wellFormed_create rc)) as Hwf. fold m in Hwf.
  split.
  - intros c k Hm Hrm Hadd. pose proof Hm as (p0 & Hp0 & Hg0).
    destruct c as [pl nm|pl|r1 r2 t|t|ev|pl al|fromId toId txt t rnd|qid ans|pl sus conf|];
      simpl.
    + exists p0. unfold addPlayer. simpl. rewrite map_get_set_ne; [done|].
      intros ->. by apply (Hadd nm).
    + exists p0. unfold removePlayer. simpl. rewrite map_get_delete_ne; [done|].
      intros ->. by apply Hrm.
    + unfold startGame. destruct (canStartGame m); [|done]. cbn [negb]. unfold marked.
      match goal with |- context [changePhase SETUP ?t ?m'] =>
        destruct (changePhase_state SETUP t m') as (-> & _) end.
      simpl. rewrite map_get_map_values.
      destruct (map_keys _ !! _) as [g|]; [|by exists (resetPlayer p0); rewrite Hp0].
      destruct (map_get g _) as [p|] eqn:Hgp; [|by exists (resetPlayer p0); rewrite Hp0].
      destruct (decide (g = k)) as [->|Hne].
      * rewrite map_get_set_eq. by eexists.
      * rewrite map_get_set_ne by done. rewrite Hp0. by eexists.
    + destruct (phaseTimer m); [|done]. unfold marked.
      destruct (advancePhase_state t m) as (-> & _). eauto.
    + destruct (bool_decide _); [|done]. unfold revealEvidence.
      by destruct (bool_decide _).
    + unfold submitAlibi. destruct (map_get pl (players (state m))) as [p|] eqn:Hgp; [|done].
      destruct (bool_decide _); [|done]. apply marked_set with (p := p); [done | by simpl | done].
    + unfold askQuestion. destruct (negb _); [done|].
      destruct (map_get fromId (players (state m))); [|done].
      by destruct (3 <=? _)%nat.
    + done.
    + unfold submitVote. destruct (map_get pl (players (state m))) as [p|] eqn:Hgp; [|done].
      destruct (bool_decide _); [|done]. apply marked_set with (p := p); [done | by simpl | done].
    + destruct Hwf as [Hp _ _].
      destruct (guiltyPlayerId (state m)) as [g|] eqn:Hg;
        [|unfold calculateResults; by rewrite Hg].
      destruct (decide (g = "")) as [->|Hne];
        [unfold calculateResults; by rewrite Hg|].
      destruct (calculateResults_players m g (pok_ids _ Hp) (pok_keys _ Hp) Hg Hne)
        as (Hps & _).
      unfold marked. rewrite Hps.
      assert (HT : map_get k (map (fun kv => (kv.1, tallied g kv.2)) (players (state m)))
                   = Some (tallied g p0)) by (by rewrite map_get_map_values, Hp0).
      assert (HgT : isGuilty (tallied g p0) = true).
      { unfold tallied. destruct (decide _); [done|]. by destruct (decide _). }
      destruct (map_get g _) as [gp|] eqn:Hgp; [|eauto].
      destruct (decide (g = k)) as [->|Hgk].
      * rewrite map_get_set_eq. eexists. split; [done|]. simpl. congruence.
      * rewrite map_get_set_ne by done. eauto.
  - intros rndCrime rndGuilty now Hcan. unfold startGame. rewrite Hcan. cbn [negb].
    unfold canStartGame in Hcan. apply andb_prop in Hcan as [Hlen _].
    apply Nat.leb_le in Hlen.
    destruct (map_keys (players (state m)) !!
                randomIndex rndGuilty (length (map_keys (players (state m))))) as [g|] eqn:Hidx.
    2:{ apply lookup_ge_None in Hidx.
        pose proof (randomIndex_lt rndGuilty (length (map_keys (players (state m))))).
        rewrite length_map_keys in *. lia. }
    exists g. unfold marked.
    match goal with |- context [changePhase SETUP ?t ?m'] =>
      destruct (changePhase_state SETUP t m') as (-> & _ & _ & -> & _) end.
    simpl. split; [done|]. rewrite map_get_map_values.
    assert (Hin : g ∈ map_keys (players (state m))) by (apply list_elem_of_lookup; eauto).
    apply map_get_elem_keys in Hin as [p Hp]. rewrite Hp, map_get_set_eq. by eexists.
Qed.

Lemma manager_guilty_marks_pile_up_witness :
  let m := calls (firstn 4 clientRoundCalls) (create "AB12") in
  let m1 := startGame (sampleRandom 0 "0.5") (sampleRandom 0 "0.5") 0 m in
  let m2 := calls [PhaseTimeout 1; PhaseTimeout 2; PhaseTimeout 3; PhaseTimeout 4;
                   PhaseTimeout 5] m1 in
  let m3 := startGame (sampleRandom 0 "0.5") (sampleRandom 3 "0.5") 6 m2 in
  guiltyPlayerId (state m1) = Some "a" ∧ marked m1 "a" ∧
  guiltyPlayerId (state m3) = Some "b" ∧
  map (fun kv : string * Player => (kv.1, isGuilty kv.2)) (players (state m3)) =
    [("a", true); ("b", true); ("c", false); ("d", false)].
Proof.
  intros m m1 m2 m3.
  destruct (manager_guilty_marks_pile_up "AB12" (firstn 4 clientRoundCalls)) as [_ H].
  destruct (H (sampleRandom 0 "0.5") (sampleRandom 0 "0.5") 0) as (g & Hg & Hm);
    [vm_compute; reflexivity|].
  split; [vm_compute; reflexivity|]. split.
  - assert (Heq : "a" = g) by (vm_compute in Hg; by injection Hg).
    rewrite Heq. exact Hm.
  - split; vm_compute; reflexivity.
Defined.

End ClientSide.
